(** * The FRPG2 reliable-datagram stack

    A shallow embedding of three translation units of the server:

    - [Server/Streams/Frpg2ReliableUdpPacketStream.cpp], the reliable stream
      (handshake, sequencing, retransmission, ordered delivery, teardown);
    - [Server/GameService/GameClient.cpp], the per-client supervisor;
    - [Core/Crypto/CWCCipher.cpp], the authenticated-encryption codec.

    Member functions become functions over an explicit object state.  The
    clock read by [GetSeconds()] is an argument [now] of every function that
    reads it (one reading per call); a clock reading is the rational its
    double denotes, and the difference of two readings is the one the machine
    computes ([double_minus]).  Unsigned 32-bit
    members are integers with the wrap-around written out.  Logging calls
    ([Log], [Warning], [Error]) and the disassembly strings kept for them have
    no effect on the object state and are left out. *)

From Stdlib Require Import String ZArith QArith Qround Bool Lia List ListSet.
From Stdlib.Strings Require Import Byte.
Import ListNotations.

Open Scope Z_scope.

(** ** Numbers, clock readings and bytes *)

(** A [uint32_t] value after an arithmetic operation. *)
Definition u32 (z : Z) : Z := z mod 2 ^ 32.

(** [a > b] on clock readings and on durations ([double] in the source). *)
Definition Qgtb (a b : Q) : bool := negb (Qle_bool a b).

(** [a >= b] on clock readings and on durations. *)
Definition Qgeb (a b : Q) : bool := Qle_bool b a.

(** Modelled from the spec: the constants of the sequence counter space are
    declared in Frpg2ReliableUdpPacketStream.h, which is not among the sources;
    the specification gives [MAX_ACK_VALUE = 2^24], [TOP_QUART = 3 * 2^22] and
    [BOTTOM_QUART = 2^22]. *)
Definition MAX_ACK_VALUE : Z := 2 ^ 24.
Definition MAX_ACK_VALUE_TOP_QUART : Z := 3 * 2 ^ 22.
Definition MAX_ACK_VALUE_BOTTOM_QUART : Z := 2 ^ 22.

(** Modelled from the spec: [sizeof(Frpg2ReliableUdpPacketHeader)]; the struct
    is declared in Frpg2ReliableUdpPacket.h, and the specification gives a
    header of 12 bytes. *)
Definition sizeof_Frpg2ReliableUdpPacketHeader : nat := 12.

(** ** Packets *)

Inductive Frpg2ReliableUdpOpCode : Type :=
| Unset | SYN | SYN_ACK | DAT | HBT | FIN | RST | ACK | RACK | DAT_ACK | FIN_ACK
| UnknownOpCode (raw : byte).

Definition opcode_eqb (a b : Frpg2ReliableUdpOpCode) : bool :=
  match a, b with
  | Unset, Unset | SYN, SYN | SYN_ACK, SYN_ACK | DAT, DAT | HBT, HBT
  | FIN, FIN | RST, RST | ACK, ACK | RACK, RACK | DAT_ACK, DAT_ACK
  | FIN_ACK, FIN_ACK => true
  | UnknownOpCode x, UnknownOpCode y => Byte.eqb x y
  | _, _ => false
  end.

Inductive Frpg2ReliableUdpStreamState : Type :=
| Listening | Connecting | SynRecieved | Established | Closing | Closed.

Definition state_eqb (a b : Frpg2ReliableUdpStreamState) : bool :=
  match a, b with
  | Listening, Listening | Connecting, Connecting | SynRecieved, SynRecieved
  | Established, Established | Closing, Closing | Closed, Closed => true
  | _, _ => false
  end.

(** The datagram of the layer below: [Frpg2UdpPacket].  Its payload field is
    named [Payload] in the source; [auth_token] is [Header.auth_token]. *)
Record Frpg2UdpPacket : Type := mkUdpPacket {
  HasConnectionPrefix : bool;
  auth_token : Z;
  UdpPayload : list byte
}.

(** Modelled from the spec: the fields of the reliable header, declared in
    Frpg2ReliableUdpPacket.h.  The two 24-bit counters are kept as two fields;
    [GetAckCounters] reads them and [SetAckCounters] stores its arguments
    reduced to 24 bits. *)
Record Frpg2ReliableUdpPacketHeader : Type := mkHeader {
  magic_number : Z;
  local_ack : Z;
  remote_ack : Z;
  opcode : Frpg2ReliableUdpOpCode;
  unknown_1 : Z
}.

Definition GetAckCounters (h : Frpg2ReliableUdpPacketHeader) : Z * Z :=
  (local_ack h, remote_ack h).

Definition SetAckCounters (Local Remote : Z) (h : Frpg2ReliableUdpPacketHeader)
  : Frpg2ReliableUdpPacketHeader :=
  mkHeader (magic_number h) (Local mod MAX_ACK_VALUE) (Remote mod MAX_ACK_VALUE)
           (opcode h) (unknown_1 h).

Definition set_opcode (o : Frpg2ReliableUdpOpCode)
  (h : Frpg2ReliableUdpPacketHeader) : Frpg2ReliableUdpPacketHeader :=
  mkHeader (magic_number h) (local_ack h) (remote_ack h) o (unknown_1 h).

Record Frpg2ReliableUdpPacket : Type := mkPacket {
  Header : Frpg2ReliableUdpPacketHeader;
  Payload : list byte;
  SendTime : Q
}.

Definition set_Header (h : Frpg2ReliableUdpPacketHeader)
  (p : Frpg2ReliableUdpPacket) : Frpg2ReliableUdpPacket :=
  mkPacket h (Payload p) (SendTime p).

Definition set_Payload (b : list byte) (p : Frpg2ReliableUdpPacket)
  : Frpg2ReliableUdpPacket :=
  mkPacket (Header p) b (SendTime p).

Definition set_SendTime (t : Q) (p : Frpg2ReliableUdpPacket)
  : Frpg2ReliableUdpPacket :=
  mkPacket (Header p) (Payload p) t.

(** Modelled from the spec: a default-constructed [Frpg2ReliableUdpPacket]
    (magic [0xF502], zero counters, opcode [Unset], [unknown_1] zero, empty
    payload); the member initialisers are in Frpg2ReliableUdpPacket.h. *)
Definition new_Frpg2ReliableUdpPacket : Frpg2ReliableUdpPacket :=
  mkPacket (mkHeader 0xF502 0 0 Unset 0) [] 0%Q.

(** ** The layer below: Frpg2UdpPacketStream *)

(** Modelled from the spec: the base class [Frpg2UdpPacketStream] is not among
    the sources.  The specification says that the upper layer obtains a finite
    sequence of inbound datagrams through [Recieve], submits outbound
    datagrams through [Send], and that [Pump] returns a fatal-error flag.
    [Inbound] holds the decrypted datagrams [Recieve] will yield, [Sent] the
    datagrams accepted by [Send]; [SendFails] and [PumpFatal] are the answers
    of the socket, chosen by the environment. *)
Record Frpg2UdpPacketStream : Type := mkUdp {
  Inbound : list Frpg2UdpPacket;
  Sent : list Frpg2UdpPacket;
  SendFails : bool;
  PumpFatal : bool
}.

Definition Frpg2UdpPacketStream_Recieve (u : Frpg2UdpPacketStream)
  : option Frpg2UdpPacket * Frpg2UdpPacketStream :=
  match Inbound u with
  | [] => (None, u)
  | Packet :: rest => (Some Packet, mkUdp rest (Sent u) (SendFails u) (PumpFatal u))
  end.

Definition Frpg2UdpPacketStream_Send (Packet : Frpg2UdpPacket)
  (u : Frpg2UdpPacketStream) : bool * Frpg2UdpPacketStream :=
  if SendFails u then (false, u)
  else (true, mkUdp (Inbound u) (Sent u ++ [Packet]) (SendFails u) (PumpFatal u)).

Definition Frpg2UdpPacketStream_Pump (u : Frpg2UdpPacketStream)
  : bool * Frpg2UdpPacketStream :=
  (PumpFatal u, u).

(** ** Declarations the translation units take from headers *)

(** The constants used by the reliable stream and by the supervisor.  Their
    values are in Frpg2ReliableUdpPacketStream.h and Config/BuildConfig.h;
    every result below holds for all values.

    Clock readings and intervals are doubles, kept here as the rationals they
    denote; comparing two of them is exact.  Their difference is not: the
    machine rounds it to a double.  [double_minus a b] is the double the
    machine computes for [a - b]; it is left open, so that every result below
    holds for every rounding, the exact difference [Qminus] included. *)
Record BuildConfig : Type := mkBuildConfig {
  START_SEQUENCE_INDEX : Z;
  MAX_PACKETS_IN_FLIGHT : nat;
  MIN_TIME_BETWEEN_RESEND_ACK : Q;
  RETRANSMIT_INTERVAL : Q;
  RETRANSMIT_CYCLE_INTERVAL : Q;
  RESEND_SYN_INTERVAL : Q;
  CONNECTION_CLOSE_TIMEOUT : Q;
  CLIENT_TIMEOUT : Q;
  double_minus : Q -> Q -> Q
}.

(** The byte layout of the structs copied to and from datagrams with
    [memcpy]: the reliable header, the initial connection data and the two
    handshake payloads. *)
Record WireLayout : Type := mkWireLayout {
  HeaderOfBytes : list byte -> Frpg2ReliableUdpPacketHeader;
  BytesOfHeader : Frpg2ReliableUdpPacketHeader -> list byte;
  sizeof_Frpg2ReliableUdpInitialData : nat;
  BytesOfInitialData : string -> list byte;
  Frpg2ReliableUdpPacketOpCodePayload_SYN : list byte;
  Frpg2ReliableUdpPacketOpCodePayload_SYN_ACK : list byte
}.

(** ** The reliable stream object *)

(** The members the translation unit reads or writes.  [Udp] is the
    base-class part of the object; the other members are those of the class
    and the error flag [InErrorState] it sets.  One update function follows
    for each member. *)
Record Frpg2ReliableUdpPacketStream : Type := mkStream {
  Udp : Frpg2UdpPacketStream;
  InErrorState : bool;
  State : Frpg2ReliableUdpStreamState;
  SteamId : string;
  ResendSynTimer : Q;
  SequenceIndex : Z;
  SequenceIndexAcked : Z;
  RemoteSequenceIndex : Z;
  RemoteSequenceIndexAcked : Z;
  DatAckResponses : set Z;
  ExpectedDatAckResponses : set Z;
  SendQueue : list Frpg2ReliableUdpPacket;
  RetransmitBuffer : list Frpg2ReliableUdpPacket;
  PendingRecieveQueue : list Frpg2ReliableUdpPacket;
  RecieveQueue : list Frpg2ReliableUdpPacket;
  LastPacketRecievedTime : Q;
  LastAckSendTime : Q;
  CloseTimer : Q;
  IsRetransmitting : bool;
  RetransmittingIndex : Z;
  RetransmitPacket : Frpg2ReliableUdpPacket;
  RetransmissionTimer : Q
}.

Definition set_Udp (v : Frpg2UdpPacketStream) (s : Frpg2ReliableUdpPacketStream)
  : Frpg2ReliableUdpPacketStream :=
  mkStream v (InErrorState s) (State s) (SteamId s) (ResendSynTimer s)
    (SequenceIndex s) (SequenceIndexAcked s) (RemoteSequenceIndex s)
    (RemoteSequenceIndexAcked s) (DatAckResponses s)
    (ExpectedDatAckResponses s) (SendQueue s) (RetransmitBuffer s)
    (PendingRecieveQueue s) (RecieveQueue s) (LastPacketRecievedTime s)
    (LastAckSendTime s) (CloseTimer s) (IsRetransmitting s)
    (RetransmittingIndex s) (RetransmitPacket s) (RetransmissionTimer s).

Definition set_InErrorState (v : bool) (s : Frpg2ReliableUdpPacketStream)
  : Frpg2ReliableUdpPacketStream :=
  mkStream (Udp s) v (State s) (SteamId s) (ResendSynTimer s)
    (SequenceIndex s) (SequenceIndexAcked s) (RemoteSequenceIndex s)
    (RemoteSequenceIndexAcked s) (DatAckResponses s)
    (ExpectedDatAckResponses s) (SendQueue s) (RetransmitBuffer s)
    (PendingRecieveQueue s) (RecieveQueue s) (LastPacketRecievedTime s)
    (LastAckSendTime s) (CloseTimer s) (IsRetransmitting s)
    (RetransmittingIndex s) (RetransmitPacket s) (RetransmissionTimer s).

Definition set_State (v : Frpg2ReliableUdpStreamState)
  (s : Frpg2ReliableUdpPacketStream)
  : Frpg2ReliableUdpPacketStream :=
  mkStream (Udp s) (InErrorState s) v (SteamId s) (ResendSynTimer s)
    (SequenceIndex s) (SequenceIndexAcked s) (RemoteSequenceIndex s)
    (RemoteSequenceIndexAcked s) (DatAckResponses s)
    (ExpectedDatAckResponses s) (SendQueue s) (RetransmitBuffer s)
    (PendingRecieveQueue s) (RecieveQueue s) (LastPacketRecievedTime s)
    (LastAckSendTime s) (CloseTimer s) (IsRetransmitting s)
    (RetransmittingIndex s) (RetransmitPacket s) (RetransmissionTimer s).

Definition set_SteamId (v : string) (s : Frpg2ReliableUdpPacketStream)
  : Frpg2ReliableUdpPacketStream :=
  mkStream (Udp s) (InErrorState s) (State s) v (ResendSynTimer s)
    (SequenceIndex s) (SequenceIndexAcked s) (RemoteSequenceIndex s)
    (RemoteSequenceIndexAcked s) (DatAckResponses s)
    (ExpectedDatAckResponses s) (SendQueue s) (RetransmitBuffer s)
    (PendingRecieveQueue s) (RecieveQueue s) (LastPacketRecievedTime s)
    (LastAckSendTime s) (CloseTimer s) (IsRetransmitting s)
    (RetransmittingIndex s) (RetransmitPacket s) (RetransmissionTimer s).

Definition set_ResendSynTimer (v : Q) (s : Frpg2ReliableUdpPacketStream)
  : Frpg2ReliableUdpPacketStream :=
  mkStream (Udp s) (InErrorState s) (State s) (SteamId s) v (SequenceIndex s)
    (SequenceIndexAcked s) (RemoteSequenceIndex s)
    (RemoteSequenceIndexAcked s) (DatAckResponses s)
    (ExpectedDatAckResponses s) (SendQueue s) (RetransmitBuffer s)
    (PendingRecieveQueue s) (RecieveQueue s) (LastPacketRecievedTime s)
    (LastAckSendTime s) (CloseTimer s) (IsRetransmitting s)
    (RetransmittingIndex s) (RetransmitPacket s) (RetransmissionTimer s).

Definition set_SequenceIndex (v : Z) (s : Frpg2ReliableUdpPacketStream)
  : Frpg2ReliableUdpPacketStream :=
  mkStream (Udp s) (InErrorState s) (State s) (SteamId s) (ResendSynTimer s) v
    (SequenceIndexAcked s) (RemoteSequenceIndex s)
    (RemoteSequenceIndexAcked s) (DatAckResponses s)
    (ExpectedDatAckResponses s) (SendQueue s) (RetransmitBuffer s)
    (PendingRecieveQueue s) (RecieveQueue s) (LastPacketRecievedTime s)
    (LastAckSendTime s) (CloseTimer s) (IsRetransmitting s)
    (RetransmittingIndex s) (RetransmitPacket s) (RetransmissionTimer s).

Definition set_SequenceIndexAcked (v : Z) (s : Frpg2ReliableUdpPacketStream)
  : Frpg2ReliableUdpPacketStream :=
  mkStream (Udp s) (InErrorState s) (State s) (SteamId s) (ResendSynTimer s)
    (SequenceIndex s) v (RemoteSequenceIndex s) (RemoteSequenceIndexAcked s)
    (DatAckResponses s) (ExpectedDatAckResponses s) (SendQueue s)
    (RetransmitBuffer s) (PendingRecieveQueue s) (RecieveQueue s)
    (LastPacketRecievedTime s) (LastAckSendTime s) (CloseTimer s)
    (IsRetransmitting s) (RetransmittingIndex s) (RetransmitPacket s)
    (RetransmissionTimer s).

Definition set_RemoteSequenceIndex (v : Z) (s : Frpg2ReliableUdpPacketStream)
  : Frpg2ReliableUdpPacketStream :=
  mkStream (Udp s) (InErrorState s) (State s) (SteamId s) (ResendSynTimer s)
    (SequenceIndex s) (SequenceIndexAcked s) v (RemoteSequenceIndexAcked s)
    (DatAckResponses s) (ExpectedDatAckResponses s) (SendQueue s)
    (RetransmitBuffer s) (PendingRecieveQueue s) (RecieveQueue s)
    (LastPacketRecievedTime s) (LastAckSendTime s) (CloseTimer s)
    (IsRetransmitting s) (RetransmittingIndex s) (RetransmitPacket s)
    (RetransmissionTimer s).

Definition set_RemoteSequenceIndexAcked (v : Z)
  (s : Frpg2ReliableUdpPacketStream)
  : Frpg2ReliableUdpPacketStream :=
  mkStream (Udp s) (InErrorState s) (State s) (SteamId s) (ResendSynTimer s)
    (SequenceIndex s) (SequenceIndexAcked s) (RemoteSequenceIndex s) v
    (DatAckResponses s) (ExpectedDatAckResponses s) (SendQueue s)
    (RetransmitBuffer s) (PendingRecieveQueue s) (RecieveQueue s)
    (LastPacketRecievedTime s) (LastAckSendTime s) (CloseTimer s)
    (IsRetransmitting s) (RetransmittingIndex s) (RetransmitPacket s)
    (RetransmissionTimer s).

Definition set_DatAckResponses (v : set Z) (s : Frpg2ReliableUdpPacketStream)
  : Frpg2ReliableUdpPacketStream :=
  mkStream (Udp s) (InErrorState s) (State s) (SteamId s) (ResendSynTimer s)
    (SequenceIndex s) (SequenceIndexAcked s) (RemoteSequenceIndex s)
    (RemoteSequenceIndexAcked s) v (ExpectedDatAckResponses s) (SendQueue s)
    (RetransmitBuffer s) (PendingRecieveQueue s) (RecieveQueue s)
    (LastPacketRecievedTime s) (LastAckSendTime s) (CloseTimer s)
    (IsRetransmitting s) (RetransmittingIndex s) (RetransmitPacket s)
    (RetransmissionTimer s).

Definition set_ExpectedDatAckResponses (v : set Z)
  (s : Frpg2ReliableUdpPacketStream)
  : Frpg2ReliableUdpPacketStream :=
  mkStream (Udp s) (InErrorState s) (State s) (SteamId s) (ResendSynTimer s)
    (SequenceIndex s) (SequenceIndexAcked s) (RemoteSequenceIndex s)
    (RemoteSequenceIndexAcked s) (DatAckResponses s) v (SendQueue s)
    (RetransmitBuffer s) (PendingRecieveQueue s) (RecieveQueue s)
    (LastPacketRecievedTime s) (LastAckSendTime s) (CloseTimer s)
    (IsRetransmitting s) (RetransmittingIndex s) (RetransmitPacket s)
    (RetransmissionTimer s).

Definition set_SendQueue (v : list Frpg2ReliableUdpPacket)
  (s : Frpg2ReliableUdpPacketStream)
  : Frpg2ReliableUdpPacketStream :=
  mkStream (Udp s) (InErrorState s) (State s) (SteamId s) (ResendSynTimer s)
    (SequenceIndex s) (SequenceIndexAcked s) (RemoteSequenceIndex s)
    (RemoteSequenceIndexAcked s) (DatAckResponses s)
    (ExpectedDatAckResponses s) v (RetransmitBuffer s) (PendingRecieveQueue s)
    (RecieveQueue s) (LastPacketRecievedTime s) (LastAckSendTime s)
    (CloseTimer s) (IsRetransmitting s) (RetransmittingIndex s)
    (RetransmitPacket s) (RetransmissionTimer s).

Definition set_RetransmitBuffer (v : list Frpg2ReliableUdpPacket)
  (s : Frpg2ReliableUdpPacketStream)
  : Frpg2ReliableUdpPacketStream :=
  mkStream (Udp s) (InErrorState s) (State s) (SteamId s) (ResendSynTimer s)
    (SequenceIndex s) (SequenceIndexAcked s) (RemoteSequenceIndex s)
    (RemoteSequenceIndexAcked s) (DatAckResponses s)
    (ExpectedDatAckResponses s) (SendQueue s) v (PendingRecieveQueue s)
    (RecieveQueue s) (LastPacketRecievedTime s) (LastAckSendTime s)
    (CloseTimer s) (IsRetransmitting s) (RetransmittingIndex s)
    (RetransmitPacket s) (RetransmissionTimer s).

Definition set_PendingRecieveQueue (v : list Frpg2ReliableUdpPacket)
  (s : Frpg2ReliableUdpPacketStream)
  : Frpg2ReliableUdpPacketStream :=
  mkStream (Udp s) (InErrorState s) (State s) (SteamId s) (ResendSynTimer s)
    (SequenceIndex s) (SequenceIndexAcked s) (RemoteSequenceIndex s)
    (RemoteSequenceIndexAcked s) (DatAckResponses s)
    (ExpectedDatAckResponses s) (SendQueue s) (RetransmitBuffer s) v
    (RecieveQueue s) (LastPacketRecievedTime s) (LastAckSendTime s)
    (CloseTimer s) (IsRetransmitting s) (RetransmittingIndex s)
    (RetransmitPacket s) (RetransmissionTimer s).

Definition set_RecieveQueue (v : list Frpg2ReliableUdpPacket)
  (s : Frpg2ReliableUdpPacketStream)
  : Frpg2ReliableUdpPacketStream :=
  mkStream (Udp s) (InErrorState s) (State s) (SteamId s) (ResendSynTimer s)
    (SequenceIndex s) (SequenceIndexAcked s) (RemoteSequenceIndex s)
    (RemoteSequenceIndexAcked s) (DatAckResponses s)
    (ExpectedDatAckResponses s) (SendQueue s) (RetransmitBuffer s)
    (PendingRecieveQueue s) v (LastPacketRecievedTime s) (LastAckSendTime s)
    (CloseTimer s) (IsRetransmitting s) (RetransmittingIndex s)
    (RetransmitPacket s) (RetransmissionTimer s).

Definition set_LastPacketRecievedTime (v : Q) (s : Frpg2ReliableUdpPacketStream)
  : Frpg2ReliableUdpPacketStream :=
  mkStream (Udp s) (InErrorState s) (State s) (SteamId s) (ResendSynTimer s)
    (SequenceIndex s) (SequenceIndexAcked s) (RemoteSequenceIndex s)
    (RemoteSequenceIndexAcked s) (DatAckResponses s)
    (ExpectedDatAckResponses s) (SendQueue s) (RetransmitBuffer s)
    (PendingRecieveQueue s) (RecieveQueue s) v (LastAckSendTime s)
    (CloseTimer s) (IsRetransmitting s) (RetransmittingIndex s)
    (RetransmitPacket s) (RetransmissionTimer s).

Definition set_LastAckSendTime (v : Q) (s : Frpg2ReliableUdpPacketStream)
  : Frpg2ReliableUdpPacketStream :=
  mkStream (Udp s) (InErrorState s) (State s) (SteamId s) (ResendSynTimer s)
    (SequenceIndex s) (SequenceIndexAcked s) (RemoteSequenceIndex s)
    (RemoteSequenceIndexAcked s) (DatAckResponses s)
    (ExpectedDatAckResponses s) (SendQueue s) (RetransmitBuffer s)
    (PendingRecieveQueue s) (RecieveQueue s) (LastPacketRecievedTime s) v
    (CloseTimer s) (IsRetransmitting s) (RetransmittingIndex s)
    (RetransmitPacket s) (RetransmissionTimer s).

Definition set_CloseTimer (v : Q) (s : Frpg2ReliableUdpPacketStream)
  : Frpg2ReliableUdpPacketStream :=
  mkStream (Udp s) (InErrorState s) (State s) (SteamId s) (ResendSynTimer s)
    (SequenceIndex s) (SequenceIndexAcked s) (RemoteSequenceIndex s)
    (RemoteSequenceIndexAcked s) (DatAckResponses s)
    (ExpectedDatAckResponses s) (SendQueue s) (RetransmitBuffer s)
    (PendingRecieveQueue s) (RecieveQueue s) (LastPacketRecievedTime s)
    (LastAckSendTime s) v (IsRetransmitting s) (RetransmittingIndex s)
    (RetransmitPacket s) (RetransmissionTimer s).

Definition set_IsRetransmitting (v : bool) (s : Frpg2ReliableUdpPacketStream)
  : Frpg2ReliableUdpPacketStream :=
  mkStream (Udp s) (InErrorState s) (State s) (SteamId s) (ResendSynTimer s)
    (SequenceIndex s) (SequenceIndexAcked s) (RemoteSequenceIndex s)
    (RemoteSequenceIndexAcked s) (DatAckResponses s)
    (ExpectedDatAckResponses s) (SendQueue s) (RetransmitBuffer s)
    (PendingRecieveQueue s) (RecieveQueue s) (LastPacketRecievedTime s)
    (LastAckSendTime s) (CloseTimer s) v (RetransmittingIndex s)
    (RetransmitPacket s) (RetransmissionTimer s).

Definition set_RetransmittingIndex (v : Z) (s : Frpg2ReliableUdpPacketStream)
  : Frpg2ReliableUdpPacketStream :=
  mkStream (Udp s) (InErrorState s) (State s) (SteamId s) (ResendSynTimer s)
    (SequenceIndex s) (SequenceIndexAcked s) (RemoteSequenceIndex s)
    (RemoteSequenceIndexAcked s) (DatAckResponses s)
    (ExpectedDatAckResponses s) (SendQueue s) (RetransmitBuffer s)
    (PendingRecieveQueue s) (RecieveQueue s) (LastPacketRecievedTime s)
    (LastAckSendTime s) (CloseTimer s) (IsRetransmitting s) v
    (RetransmitPacket s) (RetransmissionTimer s).

Definition set_RetransmitPacket (v : Frpg2ReliableUdpPacket)
  (s : Frpg2ReliableUdpPacketStream)
  : Frpg2ReliableUdpPacketStream :=
  mkStream (Udp s) (InErrorState s) (State s) (SteamId s) (ResendSynTimer s)
    (SequenceIndex s) (SequenceIndexAcked s) (RemoteSequenceIndex s)
    (RemoteSequenceIndexAcked s) (DatAckResponses s)
    (ExpectedDatAckResponses s) (SendQueue s) (RetransmitBuffer s)
    (PendingRecieveQueue s) (RecieveQueue s) (LastPacketRecievedTime s)
    (LastAckSendTime s) (CloseTimer s) (IsRetransmitting s)
    (RetransmittingIndex s) v (RetransmissionTimer s).

Definition set_RetransmissionTimer (v : Q) (s : Frpg2ReliableUdpPacketStream)
  : Frpg2ReliableUdpPacketStream :=
  mkStream (Udp s) (InErrorState s) (State s) (SteamId s) (ResendSynTimer s)
    (SequenceIndex s) (SequenceIndexAcked s) (RemoteSequenceIndex s)
    (RemoteSequenceIndexAcked s) (DatAckResponses s)
    (ExpectedDatAckResponses s) (SendQueue s) (RetransmitBuffer s)
    (PendingRecieveQueue s) (RecieveQueue s) (LastPacketRecievedTime s)
    (LastAckSendTime s) (CloseTimer s) (IsRetransmitting s)
    (RetransmittingIndex s) (RetransmitPacket s) v.

(** ** Running a member function *)

(** A member function either returns, with a value and the object after the
    call, or stops at a failed [Ensure]. *)
Inductive Outcome (A : Type) : Type :=
| Done (r : A)
| EnsureFailed.

Arguments Done {A} r.
Arguments EnsureFailed {A}.

Definition M (A : Type) : Type :=
  Frpg2ReliableUdpPacketStream -> Outcome (A * Frpg2ReliableUdpPacketStream).

Definition ret {A : Type} (a : A) : M A := fun s => Done (a, s).

Definition bind {A B : Type} (m : M A) (k : A -> M B) : M B :=
  fun s => match m s with
           | Done (a, s') => k a s'
           | EnsureFailed => EnsureFailed
           end.

Definition get : M Frpg2ReliableUdpPacketStream := fun s => Done (s, s).

Definition modify (f : Frpg2ReliableUdpPacketStream -> Frpg2ReliableUdpPacketStream)
  : M unit :=
  fun s => Done (tt, f s).

(** Modelled from the spec: the [Ensure] macro is defined in a header that is
    not among the sources; the specification calls the check an assertion.  A
    failed assertion ends the run: no object state is left to look at. *)
Definition Ensure (expr : bool) : M unit :=
  fun s => if expr then Done (tt, s) else EnsureFailed.

Notation "x <- m ;; k" := (bind m (fun x => k))
  (at level 61, m at next level, right associativity).
Notation "m ;; k" := (bind m (fun _ => k))
  (at level 61, right associativity).

(** ** Frpg2ReliableUdpPacketStream.cpp *)

Section ReliableStream.

Variable cfg : BuildConfig.
Variable wire : WireLayout.

Definition Reset (s : Frpg2ReliableUdpPacketStream) : Frpg2ReliableUdpPacketStream :=
  let s := set_SequenceIndex (START_SEQUENCE_INDEX cfg) s in
  let s := set_SequenceIndexAcked 0 s in
  let s := set_RemoteSequenceIndex 0 s in
  let s := set_RemoteSequenceIndexAcked 0 s in
  let s := set_PendingRecieveQueue [] s in
  let s := set_RecieveQueue [] s in
  let s := set_SendQueue [] s in
  set_RetransmitBuffer [] s.

(** The constructor: the members keep their initialisers [s0], then [Reset]. *)
Definition new_Frpg2ReliableUdpPacketStream (s0 : Frpg2ReliableUdpPacketStream)
  : Frpg2ReliableUdpPacketStream :=
  Reset s0.

Definition IsOpcodeSequenced (Opcode : Frpg2ReliableUdpOpCode) : bool :=
  match Opcode with
  | DAT | DAT_ACK | FIN_ACK => true
  | _ => false
  end.

(** Modelled from the spec: [GetNextRemoteSequenceIndex] is defined in the
    class header; the specification gives
    [next = (remote_sequence_index + 1) mod 2^24]. *)
Definition GetNextRemoteSequenceIndex (s : Frpg2ReliableUdpPacketStream) : Z :=
  u32 (RemoteSequenceIndex s + 1) mod MAX_ACK_VALUE.

Fixpoint GetPacketIndexByLocalSequence_from (i : Z)
  (Queue : list Frpg2ReliableUdpPacket) (SequenceIndex : Z) : Z :=
  match Queue with
  | [] => -1
  | p :: rest =>
      let '(Local, Remote) := GetAckCounters (Header p) in
      if Local =? SequenceIndex then i
      else GetPacketIndexByLocalSequence_from (i + 1) rest SequenceIndex
  end.

Definition GetPacketIndexByLocalSequence
  (Queue : list Frpg2ReliableUdpPacket) (SequenceIndex : Z) : Z :=
  GetPacketIndexByLocalSequence_from 0 Queue SequenceIndex.

Definition EncodeReliablePacket (Input : Frpg2ReliableUdpPacket)
  (s : Frpg2ReliableUdpPacketStream) : bool * Frpg2UdpPacket :=
  let ByteSwappedMessage := Input in
  let IsSyn := opcode_eqb (opcode (Header Input)) SYN in
  let InitialData := if IsSyn then BytesOfInitialData wire (SteamId s) else [] in
  (true,
   mkUdpPacket IsSyn 0
     (InitialData ++ BytesOfHeader wire (Header ByteSwappedMessage)
                  ++ Payload Input)).

Definition DecodeReliablePacket (Input : Frpg2UdpPacket)
  (Output : Frpg2ReliableUdpPacket) : M (bool * Frpg2ReliableUdpPacket) :=
  if (length (UdpPayload Input) <? sizeof_Frpg2ReliableUdpPacketHeader)%nat then
    modify (set_InErrorState true) ;;
    ret (false, Output)
  else
    Ensure (Byte.eqb (nth 0 (UdpPayload Input) x00) xf5
            && Byte.eqb (nth 1 (UdpPayload Input) x00) x02) ;;
    ret (true,
         mkPacket
           (HeaderOfBytes wire
              (firstn sizeof_Frpg2ReliableUdpPacketHeader (UdpPayload Input)))
           (skipn sizeof_Frpg2ReliableUdpPacketHeader (UdpPayload Input))
           (SendTime Output)).

Definition SendRaw (Input : Frpg2ReliableUdpPacket) : M bool :=
  Ensure (negb (opcode_eqb (opcode (Header Input)) Unset)) ;;
  s <- get ;;
  let '(Encoded, Packet) := EncodeReliablePacket Input s in
  if negb Encoded then
    modify (set_InErrorState true) ;;
    ret false
  else
    let '(Sent_ok, u) := Frpg2UdpPacketStream_Send Packet (Udp s) in
    modify (set_Udp u) ;;
    if negb Sent_ok then
      modify (set_InErrorState true) ;;
      ret false
    else ret true.

Definition Send (now : Q) (Input : Frpg2ReliableUdpPacket) : M bool :=
  s <- get ;;
  if state_eqb (State s) Closing then ret true
  else if IsOpcodeSequenced (opcode (Header Input))
          || opcode_eqb (opcode (Header Input)) Unset then
    let SentPacket := set_SendTime now Input in
    SentPacket <-
      (if opcode_eqb (opcode (Header SentPacket)) Unset then
         let '(Local, Remote) := GetAckCounters (Header SentPacket) in
         let SentPacket :=
           set_Header (SetAckCounters (SequenceIndex s) Remote (Header SentPacket))
                      SentPacket in
         if Remote >? 0 then
           modify (fun s =>
             set_DatAckResponses (set_add Z.eq_dec Remote (DatAckResponses s)) s) ;;
           modify (set_RemoteSequenceIndexAcked Remote) ;;
           ret (set_Header (set_opcode DAT_ACK (Header SentPacket)) SentPacket)
         else
           ret (set_Header (set_opcode DAT (Header SentPacket)) SentPacket)
       else ret SentPacket) ;;
    modify (fun s =>
      set_SequenceIndex (u32 (SequenceIndex s + 1) mod MAX_ACK_VALUE) s) ;;
    modify (fun s => set_SendQueue (SendQueue s ++ [SentPacket]) s) ;;
    ret true
  else
    SendRaw Input ;;
    ret true.

Definition Recieve : M (option Frpg2ReliableUdpPacket) :=
  s <- get ;;
  match RecieveQueue s with
  | Output :: rest =>
      modify (set_RecieveQueue rest) ;;
      ret (Some Output)
  | [] => ret None
  end.

Definition Send_SYN (now : Q) : M unit :=
  s <- get ;;
  let SynRequest := new_Frpg2ReliableUdpPacket in
  let SynRequest :=
    set_Header (SetAckCounters (SequenceIndex s) 0 (Header SynRequest)) SynRequest in
  let SynRequest := set_Header (set_opcode SYN (Header SynRequest)) SynRequest in
  let SynRequest :=
    set_Payload (Frpg2ReliableUdpPacketOpCodePayload_SYN wire) SynRequest in
  Send now SynRequest ;;
  ret tt.

Definition Send_SYN_ACK (now : Q) (RemoteIndex : Z) : M unit :=
  s <- get ;;
  let SynAckResponse := new_Frpg2ReliableUdpPacket in
  let SynAckResponse :=
    set_Header (SetAckCounters (SequenceIndex s) RemoteIndex (Header SynAckResponse))
               SynAckResponse in
  let SynAckResponse :=
    set_Header (set_opcode SYN_ACK (Header SynAckResponse)) SynAckResponse in
  let SynAckResponse :=
    set_Payload (Frpg2ReliableUdpPacketOpCodePayload_SYN_ACK wire) SynAckResponse in
  Send now SynAckResponse ;;
  modify (set_RemoteSequenceIndex RemoteIndex) ;;
  modify (fun s =>
    set_SequenceIndex (u32 (SequenceIndex s + 1) mod MAX_ACK_VALUE) s).

(** The packet built by [Send_ACK]. *)
Definition AckResponse_ACK (RemoteIndex : Z) : Frpg2ReliableUdpPacket :=
  let AckResponse := new_Frpg2ReliableUdpPacket in
  let AckResponse :=
    set_Header (SetAckCounters 0 RemoteIndex (Header AckResponse)) AckResponse in
  set_Header (set_opcode ACK (Header AckResponse)) AckResponse.

Definition Send_ACK (now : Q) (RemoteIndex : Z) : M unit :=
  Send now (AckResponse_ACK RemoteIndex) ;;
  modify (set_RemoteSequenceIndexAcked RemoteIndex) ;;
  modify (set_LastAckSendTime now).

Definition Send_DAT_ACK (now : Q) (LocalIndex RemoteIndex : Z) : M unit :=
  let AckResponse := new_Frpg2ReliableUdpPacket in
  let AckResponse :=
    set_Header (SetAckCounters LocalIndex RemoteIndex (Header AckResponse))
               AckResponse in
  let AckResponse := set_Header (set_opcode DAT_ACK (Header AckResponse)) AckResponse in
  Send now AckResponse ;;
  modify (set_RemoteSequenceIndexAcked RemoteIndex) ;;
  modify (set_LastAckSendTime now).

Definition Send_FIN_ACK (now : Q) (RemoteIndex : Z) : M unit :=
  s <- get ;;
  let AckResponse := new_Frpg2ReliableUdpPacket in
  let AckResponse :=
    set_Header (SetAckCounters (SequenceIndex s) RemoteIndex (Header AckResponse))
               AckResponse in
  let AckResponse := set_Header (set_opcode FIN_ACK (Header AckResponse)) AckResponse in
  Send now AckResponse ;;
  ret tt.

Definition Send_FIN (now : Q) : M unit :=
  s <- get ;;
  let AckResponse := new_Frpg2ReliableUdpPacket in
  let AckResponse :=
    set_Header (SetAckCounters (SequenceIndex s) 0 (Header AckResponse)) AckResponse in
  let AckResponse := set_Header (set_opcode FIN (Header AckResponse)) AckResponse in
  Send now AckResponse ;;
  modify (set_State Closing) ;;
  modify (set_CloseTimer now).

Definition Send_HBT (now : Q) : M unit :=
  s <- get ;;
  let HbtResponse := new_Frpg2ReliableUdpPacket in
  let HbtResponse :=
    set_Header (SetAckCounters 0 (RemoteSequenceIndexAcked s) (Header HbtResponse))
               HbtResponse in
  let HbtResponse := set_Header (set_opcode HBT (Header HbtResponse)) HbtResponse in
  Send now HbtResponse ;;
  ret tt.

Definition Disconnect (now : Q) : M unit :=
  s <- get ;;
  if state_eqb (State s) Established then Send_FIN now else ret tt.

Definition Connect (now : Q) (ClientSteamId : string) : M unit :=
  modify (set_State Connecting) ;;
  modify (set_SteamId ClientSteamId) ;;
  modify (set_ResendSynTimer now) ;;
  Send_SYN now.

(** The update of [SequenceIndexAcked] written out in [Handle_HBT],
    [Handle_ACK] and [Handle_DAT_ACK]. *)
Definition UpdateSequenceIndexAcked (InRemoteAck : Z) : M unit :=
  modify (fun s =>
    if (SequenceIndexAcked s >? MAX_ACK_VALUE_TOP_QUART)
       && (InRemoteAck <? MAX_ACK_VALUE_BOTTOM_QUART)
    then set_SequenceIndexAcked InRemoteAck s
    else set_SequenceIndexAcked (Z.max (SequenceIndexAcked s) InRemoteAck) s).

Definition Handle_SYN (now : Q) (Packet : Frpg2ReliableUdpPacket) : M unit :=
  modify (set_State SynRecieved) ;;
  let '(InLocalAck, InRemoteAck) := GetAckCounters (Header Packet) in
  Send_SYN_ACK now InLocalAck ;;
  Send_ACK now InLocalAck.

Definition Handle_SYN_ACK (now : Q) (Packet : Frpg2ReliableUdpPacket) : M unit :=
  modify (set_State SynRecieved) ;;
  let '(InLocalAck, InRemoteAck) := GetAckCounters (Header Packet) in
  modify (set_RemoteSequenceIndex InLocalAck) ;;
  s <- get ;;
  Send_ACK now (RemoteSequenceIndex s) ;;
  modify (fun s =>
    set_SequenceIndex (u32 (SequenceIndex s + 1) mod MAX_ACK_VALUE) s).

Definition Handle_HBT (now : Q) (Packet : Frpg2ReliableUdpPacket) : M unit :=
  let '(InLocalAck, InRemoteAck) := GetAckCounters (Header Packet) in
  UpdateSequenceIndexAcked InRemoteAck ;;
  Send_HBT now.

Definition Handle_FIN (now : Q) (Packet : Frpg2ReliableUdpPacket) : M unit :=
  let '(InLocalAck, InRemoteAck) := GetAckCounters (Header Packet) in
  Send_FIN_ACK now InLocalAck ;;
  modify (set_State Closing).

Definition Handle_FIN_ACK (Packet : Frpg2ReliableUdpPacket) : M unit :=
  modify (set_State Closing).

Definition Handle_RST (Packet : Frpg2ReliableUdpPacket) : M unit :=
  modify (set_State Listening) ;;
  modify Reset.

Definition Handle_ACK (Packet : Frpg2ReliableUdpPacket) : M unit :=
  s <- get ;;
  (if state_eqb (State s) SynRecieved then modify (set_State Established)
   else ret tt) ;;
  let '(InLocalAck, InRemoteAck) := GetAckCounters (Header Packet) in
  UpdateSequenceIndexAcked InRemoteAck.

Definition Handle_RACK (Packet : Frpg2ReliableUdpPacket) : M unit :=
  ret tt.

Definition Handle_DAT (now : Q) (Packet : Frpg2ReliableUdpPacket) : M unit :=
  let '(InLocalAck, InRemoteAck) := GetAckCounters (Header Packet) in
  modify (fun s =>
    set_ExpectedDatAckResponses
      (set_add Z.eq_dec InLocalAck (ExpectedDatAckResponses s)) s) ;;
  modify (fun s => set_RecieveQueue (RecieveQueue s ++ [Packet]) s) ;;
  Send_ACK now InLocalAck.

Definition Handle_DAT_ACK (now : Q) (Packet : Frpg2ReliableUdpPacket) : M unit :=
  let '(InLocalAck, InRemoteAck) := GetAckCounters (Header Packet) in
  UpdateSequenceIndexAcked InRemoteAck ;;
  Send_ACK now InLocalAck ;;
  modify (fun s => set_RecieveQueue (RecieveQueue s ++ [Packet]) s).

Definition ProcessPacket (now : Q) (Packet : Frpg2ReliableUdpPacket) : M unit :=
  match opcode (Header Packet) with
  | SYN => Handle_SYN now Packet
  | SYN_ACK => Handle_SYN_ACK now Packet
  | DAT => Handle_DAT now Packet
  | HBT => Handle_HBT now Packet
  | FIN => Handle_FIN now Packet
  | RST => Handle_RST Packet
  | ACK => Handle_ACK Packet
  | RACK => Handle_RACK Packet
  | DAT_ACK => Handle_DAT_ACK now Packet
  | FIN_ACK => Handle_FIN_ACK Packet
  | Unset | UnknownOpCode _ => Ensure false
  end.

(** The local [IsInCorrectSequence] of the source is true when the packet is
    out of sequence or a duplicate; the name is kept. *)
Definition HandleIncomingPacket (now : Q) (Packet : Frpg2ReliableUdpPacket)
  : M unit :=
  modify (set_LastPacketRecievedTime now) ;;
  let '(LocalAck, RemoteAck) := GetAckCounters (Header Packet) in
  if IsOpcodeSequenced (opcode (Header Packet)) then
    s <- get ;;
    if negb (state_eqb (State s) Established) then
      modify (set_InErrorState true)
    else
      let IsInCorrectSequence := false in
      let IsInCorrectSequence :=
        if negb (LocalAck =? GetNextRemoteSequenceIndex s) then true
        else IsInCorrectSequence in
      let IsInCorrectSequence :=
        if GetPacketIndexByLocalSequence (PendingRecieveQueue s) LocalAck >=? 0
        then true
        else IsInCorrectSequence in
      if IsInCorrectSequence
         && Qgtb (double_minus cfg now (LastAckSendTime s))
                (MIN_TIME_BETWEEN_RESEND_ACK cfg)
      then Send_ACK now (RemoteSequenceIndexAcked s)
      else if negb IsInCorrectSequence then
        modify (fun s =>
          set_PendingRecieveQueue (PendingRecieveQueue s ++ [Packet]) s)
      else ret tt
  else ProcessPacket now Packet.

(** The first loop of [HandleIncoming]: one iteration for each datagram the
    layer below yields. *)
Fixpoint HandleIncoming_recieve (now : Q) (fuel : nat) : M unit :=
  match fuel with
  | O => ret tt
  | S fuel' =>
      s <- get ;;
      match Frpg2UdpPacketStream_Recieve (Udp s) with
      | (None, _) => ret tt
      | (Some Packet, u) =>
          modify (set_Udp u) ;;
          let Packet :=
            if (sizeof_Frpg2ReliableUdpInitialData wire <? length (UdpPayload Packet))%nat
               && negb (Byte.eqb (nth 0 (UdpPayload Packet) x00) xf5)
               && negb (Byte.eqb (nth 0 (UdpPayload Packet) x00) x25)
            then
              mkUdpPacket (HasConnectionPrefix Packet) (auth_token Packet)
                (skipn (sizeof_Frpg2ReliableUdpInitialData wire) (UdpPayload Packet))
            else Packet in
          r <- DecodeReliablePacket Packet new_Frpg2ReliableUdpPacket ;;
          let '(Decoded, ReliablePacket) := r in
          if negb Decoded then
            modify (set_InErrorState true) ;;
            HandleIncoming_recieve now fuel'
          else
            HandleIncomingPacket now ReliablePacket ;;
            HandleIncoming_recieve now fuel'
      end
  end.

(** The second loop of [HandleIncoming]: packets leave the head of the pending
    queue while they carry the next remote sequence index. *)
Fixpoint HandleIncoming_pending (now : Q) (fuel : nat) : M unit :=
  match fuel with
  | O => ret tt
  | S fuel' =>
      s <- get ;;
      match PendingRecieveQueue s with
      | [] => ret tt
      | Next :: _ =>
          let '(Local, Remote) := GetAckCounters (Header Next) in
          if Local =? GetNextRemoteSequenceIndex s then
            ProcessPacket now Next ;;
            modify (fun s =>
              set_PendingRecieveQueue (tl (PendingRecieveQueue s)) s) ;;
            modify (fun s =>
              set_RemoteSequenceIndex
                (u32 (RemoteSequenceIndex s + 1) mod MAX_ACK_VALUE) s) ;;
            HandleIncoming_pending now fuel'
          else ret tt
      end
  end.

(** Each loop runs at most once for each element its queue holds on entry. *)
Definition HandleIncoming (now : Q) : M unit :=
  s <- get ;;
  HandleIncoming_recieve now (length (Inbound (Udp s))) ;;
  s <- get ;;
  HandleIncoming_pending now (length (PendingRecieveQueue s)).

(** The test that keeps a packet in the retransmit buffer. *)
Definition HandleOutgoing_acknowledged (SequenceIndexAcked : Z)
  (Packet : Frpg2ReliableUdpPacket) : bool :=
  let '(InLocalAck, InRemoteAck) := GetAckCounters (Header Packet) in
  (InLocalAck >? MAX_ACK_VALUE_TOP_QUART)
  && (SequenceIndexAcked <? MAX_ACK_VALUE_BOTTOM_QUART)
  || (InLocalAck <=? SequenceIndexAcked).

(** The scan of the retransmit buffer for packets sent too long ago. *)
Fixpoint HandleOutgoing_scan (now CurrentTime : Q)
  (buffer : list Frpg2ReliableUdpPacket) : M unit :=
  match buffer with
  | [] => ret tt
  | Packet :: rest =>
      let '(InLocalAck, InRemoteAck) := GetAckCounters (Header Packet) in
      let ElapsedTime := (double_minus cfg CurrentTime (SendTime Packet)) in
      (if Qgtb ElapsedTime (RETRANSMIT_INTERVAL cfg) then
         SendRaw Packet ;;
         modify (set_IsRetransmitting true) ;;
         modify (set_RetransmittingIndex InLocalAck) ;;
         modify (set_RetransmitPacket Packet) ;;
         modify (set_RetransmissionTimer now)
       else ret tt) ;;
      HandleOutgoing_scan now CurrentTime rest
  end.

(** The loop that moves packets from the send queue to the wire. *)
Fixpoint HandleOutgoing_send (fuel : nat) : M unit :=
  match fuel with
  | O => ret tt
  | S fuel' =>
      s <- get ;;
      match SendQueue s with
      | Packet :: rest =>
          if negb (IsRetransmitting s)
             && (length (RetransmitBuffer s) <? MAX_PACKETS_IN_FLIGHT cfg)%nat
          then
            modify (set_SendQueue rest) ;;
            modify (fun s => set_RetransmitBuffer (RetransmitBuffer s ++ [Packet]) s) ;;
            SendRaw Packet ;;
            HandleOutgoing_send fuel'
          else ret tt
      | [] => ret tt
      end
  end.

Definition HandleOutgoing (now : Q) : M unit :=
  modify (fun s =>
    set_RetransmitBuffer
      (filter (fun Packet =>
                 negb (HandleOutgoing_acknowledged (SequenceIndexAcked s) Packet))
              (RetransmitBuffer s)) s) ;;
  let CurrentTime := now in
  s <- get ;;
  (if negb (IsRetransmitting s) then
     HandleOutgoing_scan now CurrentTime (RetransmitBuffer s)
   else
     let ElapsedTime := (double_minus cfg CurrentTime (RetransmissionTimer s)) in
     if (RetransmittingIndex s >? MAX_ACK_VALUE_TOP_QUART)
        && (SequenceIndexAcked s <? MAX_ACK_VALUE_BOTTOM_QUART)
        || (SequenceIndexAcked s >=? RetransmittingIndex s)
     then modify (set_IsRetransmitting false)
     else if Qgtb ElapsedTime (RETRANSMIT_CYCLE_INTERVAL cfg) then
       modify (set_RetransmissionTimer now) ;;
       SendRaw (RetransmitPacket s) ;;
       ret tt
     else ret tt) ;;
  s <- get ;;
  HandleOutgoing_send (length (SendQueue s)).

Definition Pump (now : Q) : M bool :=
  s <- get ;;
  (if state_eqb (State s) Closing && (length (SendQueue s) =? 0)%nat
   then modify (set_State Closed)
   else ret tt) ;;
  s <- get ;;
  if state_eqb (State s) Closed then
    modify Reset ;;
    ret true
  else
    let '(Fatal, u) := Frpg2UdpPacketStream_Pump (Udp s) in
    modify (set_Udp u) ;;
    if Fatal then ret true
    else
      (if state_eqb (State s) Connecting then
         let ResendElapsed := (double_minus cfg now (ResendSynTimer s)) in
         if Qgtb ResendElapsed (RESEND_SYN_INTERVAL cfg) then
           Send_SYN now ;;
           modify (set_ResendSynTimer now)
         else ret tt
       else ret tt) ;;
      s <- get ;;
      if Qgtb (CloseTimer s) 0
         && state_eqb (State s) Closing
         && Qgtb (double_minus cfg now (CloseTimer s))
                (CONNECTION_CLOSE_TIMEOUT cfg)
      then
        modify (set_State Closed) ;;
        ret true
      else
        HandleIncoming now ;;
        HandleOutgoing now ;;
        ret false.

Definition HandledPacket (now : Q) (AckSequence : Z) : M unit :=
  s <- get ;;
  if set_mem Z.eq_dec AckSequence (DatAckResponses s) then
    modify (set_DatAckResponses
              (set_remove Z.eq_dec AckSequence (DatAckResponses s)))
  else
    NeedsDatAck <-
      (if set_mem Z.eq_dec AckSequence (ExpectedDatAckResponses s) then
         modify (set_ExpectedDatAckResponses
                   (set_remove Z.eq_dec AckSequence (ExpectedDatAckResponses s))) ;;
         ret true
       else ret false) ;;
    s <- get ;;
    if false then Send_DAT_ACK now (SequenceIndex s) AckSequence
    else Send_ACK now AckSequence.

End ReliableStream.

(** [Recieve] called until it returns false: what the caller of the stream
    reads after a tick. *)
Fixpoint Recieve_all (fuel : nat) : M (list Frpg2ReliableUdpPacket) :=
  match fuel with
  | O => ret []
  | S fuel' =>
      r <- Recieve ;;
      match r with
      | Some Output => rest <- Recieve_all fuel' ;; ret (Output :: rest)
      | None => ret []
      end
  end.

(** ** GameClient.cpp *)

(** Modelled from the spec: the collaborators of the supervisor are not among
    the sources.  [NetConnection] answers [Pump] with an error flag and
    [IsConnected] with the connection status; the message handler service
    records the tokens passed to [RefreshAuthToken]. *)
Record NetConnection : Type := mkNetConnection {
  ConnectionPumpError : bool;
  ConnectionIsConnected : bool
}.

Record GameService : Type := mkGameService {
  RefreshedAuthTokens : list Z
}.

(** The calls a [Poll] makes on its collaborators, in order. *)
Inductive Call : Type :=
| Connection_Pump
| Connection_IsConnected
| MessageStream_Pump
| MessageStream_Recieve
| Service_RefreshAuthToken (token : Z).

Record GameClient : Type := mkGameClient {
  Service : GameService;
  Connection : NetConnection;
  MessageStream : Frpg2UdpPacketStream;
  LastMessageRecievedTime : Q
}.

(** The constructor, run when the clock reads [now]. *)
Definition new_GameClient (now : Q) (OwningService : GameService)
  (InConnection : NetConnection) (Stream : Frpg2UdpPacketStream) : GameClient :=
  mkGameClient OwningService InConnection Stream now.

(** The loop at the end of [Poll]. *)
Fixpoint Poll_process (fuel : nat) (c : GameClient) : GameClient * list Call :=
  match fuel with
  | O => (c, [])
  | S fuel' =>
      match Frpg2UdpPacketStream_Recieve (MessageStream c) with
      | (Some Packet, u) =>
          let c :=
            mkGameClient
              (mkGameService (RefreshedAuthTokens (Service c) ++ [auth_token Packet]))
              (Connection c) u (LastMessageRecievedTime c) in
          let '(c, calls) := Poll_process fuel' c in
          (c, MessageStream_Recieve :: Service_RefreshAuthToken (auth_token Packet)
                :: calls)
      | (None, u) =>
          (mkGameClient (Service c) (Connection c) u (LastMessageRecievedTime c),
           [MessageStream_Recieve])
      end
  end.

Definition Poll (cfg : BuildConfig) (now : Q) (c : GameClient)
  : bool * GameClient * list Call :=
  let TimeSinceLastMessage := (double_minus cfg now (LastMessageRecievedTime c)) in
  if Qgeb TimeSinceLastMessage (CLIENT_TIMEOUT cfg) then (true, c, [])
  else if ConnectionPumpError (Connection c) then (true, c, [Connection_Pump])
  else if negb (ConnectionIsConnected (Connection c)) then
    (true, c, [Connection_Pump; Connection_IsConnected])
  else
    let '(Fatal, u) := Frpg2UdpPacketStream_Pump (MessageStream c) in
    let c := mkGameClient (Service c) (Connection c) u (LastMessageRecievedTime c) in
    if Fatal then
      (true, c, [Connection_Pump; Connection_IsConnected; MessageStream_Pump])
    else
      let '(c, calls) := Poll_process (S (length (Inbound (MessageStream c)))) c in
      (false, c,
       [Connection_Pump; Connection_IsConnected; MessageStream_Pump] ++ calls).

(** ** CWCCipher.cpp *)

Section CWC.

(** The CWC primitive of the cryptography library the cipher links against:
    its context type, its error code and [cwc_decrypt_message], which decrypts
    the message buffer in place and checks the tag.  The result holds the
    return code, the message buffer and the context after the call. *)
Variable cwc_ctx : Type.
Variable RETURN_ERROR : Z.
Variable cwc_decrypt_message :
  list byte -> nat -> list byte -> nat -> list byte -> nat -> list byte -> nat ->
  cwc_ctx -> Z * list byte * cwc_ctx.

Record CWCCipher : Type := mkCWCCipher {
  Key : list byte;
  CwcContext : cwc_ctx
}.

(** [Decrypt(Input, Output)]: the result holds the returned flag, [Output]
    after the call and the cipher after the call. *)
Definition Decrypt (Input Output : list byte) (c : CWCCipher)
  : bool * list byte * CWCCipher :=
  if (length Input <? 11 + 16 + 1)%nat then (false, Output, c)
  else
    let IV := firstn 11 Input in
    let Tag := firstn 16 (skipn 11 Input) in
    let Output := firstn (length Input - 11 - 16) (skipn (11 + 16) Input) in
    let '(code, Output, ctx) :=
      cwc_decrypt_message IV 11%nat IV 11%nat Output (length Output) Tag 16%nat
                          (CwcContext c) in
    if code =? RETURN_ERROR then (false, Output, mkCWCCipher (Key c) ctx)
    else (true, Output, mkCWCCipher (Key c) ctx).

End CWC.

Arguments Key {cwc_ctx} c.
Arguments CwcContext {cwc_ctx} c.
Arguments mkCWCCipher {cwc_ctx} Key CwcContext.
Arguments Decrypt {cwc_ctx} RETURN_ERROR cwc_decrypt_message Input Output c.

(** ** Sample values

    The values of the header files are not among the sources.  The examples
    below run the functions at these sample values: a layout that follows the
    wire format of the specification, and a freshly constructed stream. *)

Definition byte_of_Z (z : Z) : byte :=
  match Byte.of_N (Z.to_N (z mod 256)) with
  | Some b => b
  | None => x00
  end.

Definition Z_of_byte (b : byte) : Z := Z.of_N (Byte.to_N b).

Definition sample_byte_of_opcode (o : Frpg2ReliableUdpOpCode) : byte :=
  match o with
  | Unset => x00 | SYN => x01 | SYN_ACK => x02 | DAT => x03 | HBT => x04
  | FIN => x05 | RST => x06 | ACK => x07 | RACK => x08 | DAT_ACK => x09
  | FIN_ACK => x0a | UnknownOpCode raw => raw
  end.

Definition sample_opcode_of_byte (b : byte) : Frpg2ReliableUdpOpCode :=
  match b with
  | x00 => Unset | x01 => SYN | x02 => SYN_ACK | x03 => DAT | x04 => HBT
  | x05 => FIN | x06 => RST | x07 => ACK | x08 => RACK | x09 => DAT_ACK
  | x0a => FIN_ACK | raw => UnknownOpCode raw
  end.

Definition sample_BytesOfHeader (h : Frpg2ReliableUdpPacketHeader) : list byte :=
  [ byte_of_Z (Z.shiftr (magic_number h) 8); byte_of_Z (magic_number h);
    byte_of_Z (Z.shiftr (local_ack h) 16); byte_of_Z (Z.shiftr (local_ack h) 8);
    byte_of_Z (local_ack h);
    byte_of_Z (Z.shiftr (remote_ack h) 16); byte_of_Z (Z.shiftr (remote_ack h) 8);
    byte_of_Z (remote_ack h);
    sample_byte_of_opcode (opcode h); byte_of_Z (unknown_1 h); x00; x00 ].

Definition sample_HeaderOfBytes (b : list byte) : Frpg2ReliableUdpPacketHeader :=
  let at_ (i : nat) := Z_of_byte (nth i b x00) in
  mkHeader (Z.lor (Z.shiftl (at_ 0%nat) 8) (at_ 1%nat))
           (Z.lor (Z.shiftl (at_ 2%nat) 16)
                  (Z.lor (Z.shiftl (at_ 3%nat) 8) (at_ 4%nat)))
           (Z.lor (Z.shiftl (at_ 5%nat) 16)
                  (Z.lor (Z.shiftl (at_ 6%nat) 8) (at_ 7%nat)))
           (sample_opcode_of_byte (nth 8 b x00))
           (at_ 9%nat).

(** A layout of the initial connection data: two fields of 68 bytes, each
    holding the Steam id and its terminating zero as [strcpy] leaves them,
    with zero bytes behind. *)
Definition sample_steam_id_field (id : string) : list byte :=
  let b := firstn 67 (list_byte_of_string id) in
  b ++ repeat x00 (68 - length b).

Definition sample_BytesOfInitialData (id : string) : list byte :=
  sample_steam_id_field id ++ sample_steam_id_field id.

Definition sample_wire : WireLayout :=
  mkWireLayout sample_HeaderOfBytes sample_BytesOfHeader 136
               sample_BytesOfInitialData [] [].

Definition sample_config : BuildConfig :=
  mkBuildConfig 1 32 (1 # 10) 1 (1 # 2) 1 5 30 Qminus.

(** The same constants on a machine whose subtraction rounds: the difference
    is kept to 48 binary digits behind the point, as a double between 16 and
    32 is. *)
Definition round_48 (q : Q) : Q :=
  Qmake (Qfloor (q * (2 ^ 48 # 1) + (1 # 2))) (2 ^ 48).

Definition sample_rounding_config : BuildConfig :=
  mkBuildConfig 1 32 (1 # 10) 1 (1 # 2) 1 5 30 (fun a b => round_48 (a - b)).

Definition sample_members : Frpg2ReliableUdpPacketStream :=
  mkStream (mkUdp [] [] false false) false Listening EmptyString 0 0 0 0 0
           (empty_set Z) (empty_set Z) [] [] [] [] 0 0 0 false 0
           new_Frpg2ReliableUdpPacket 0.

Definition sample_stream : Frpg2ReliableUdpPacketStream :=
  new_Frpg2ReliableUdpPacketStream sample_config sample_members.

(** A packet as the peer builds it, and the datagram that carries it. *)
Definition sample_packet (o : Frpg2ReliableUdpOpCode) (Local Remote : Z)
  : Frpg2ReliableUdpPacket :=
  mkPacket (mkHeader 0xF502 Local Remote o 0) [] 0.

Definition sample_datagram (o : Frpg2ReliableUdpOpCode) (Local Remote : Z)
  : Frpg2UdpPacket :=
  mkUdpPacket false 0 (sample_BytesOfHeader (Header (sample_packet o Local Remote))).

(** The stream [s] with the datagrams [ds] waiting in the layer below. *)
Definition with_Inbound (ds : list Frpg2UdpPacket)
  (s : Frpg2ReliableUdpPacketStream) : Frpg2ReliableUdpPacketStream :=
  set_Udp (mkUdp ds (Sent (Udp s)) (SendFails (Udp s)) (PumpFatal (Udp s))) s.

(** ** Vocabulary of the statements *)

(** [hoare P m Q]: from a state satisfying [P], whenever [m] returns, its
    result and the state after the call satisfy [Q]. *)
Definition hoare {A : Type} (P : Frpg2ReliableUdpPacketStream -> Prop) (m : M A)
  (Q : A -> Frpg2ReliableUdpPacketStream -> Prop) : Prop :=
  forall s, P s ->
    match m s with
    | Done (a, s') => Q a s'
    | EnsureFailed => True
    end.

(** [keeps P m]: [m] preserves [P]. *)
Definition keeps {A : Type} (P : Frpg2ReliableUdpPacketStream -> Prop) (m : M A)
  : Prop :=
  hoare P m (fun _ => P).

(** [total m]: [m] returns from every state. *)
Definition total {A : Type} (m : M A) : Prop :=
  forall s, exists a s', m s = Done (a, s').

(** The modular-compare rule in the words of the specification: when [x] is
    above the top quartile and [y] below the bottom quartile, take [y];
    otherwise take the larger of the two. *)
Definition spec_modular_max (x y : Z) : Z :=
  if (3 * 2 ^ 22 <? x) && (y <? 2 ^ 22) then y else Z.max x y.

(** A datagram of twelve bytes whose first byte is not [0xF5]. *)
Definition bad_magic_datagram : Frpg2UdpPacket :=
  mkUdpPacket false 0 [x00; x02; x00; x00; x02; x00; x00; x00; x03; x00; x00; x00].

(** The operations of the stream: the public interface, the parts of a tick,
    the processing of one received packet (which covers every opcode
    handler), and the layer below changing between two calls. *)
Inductive Operation : Type :=
| Op_Send (now : Q) (Input : Frpg2ReliableUdpPacket)
| Op_Recieve
| Op_Connect (now : Q) (ClientSteamId : string)
| Op_Disconnect (now : Q)
| Op_Pump (now : Q)
| Op_HandledPacket (now : Q) (AckSequence : Z)
| Op_HandleIncoming (now : Q)
| Op_HandleOutgoing (now : Q)
| Op_HandleIncomingPacket (now : Q) (Packet : Frpg2ReliableUdpPacket)
| Op_ProcessPacket (now : Q) (Packet : Frpg2ReliableUdpPacket)
| Op_Reset
| Op_LayerBelow (u : Frpg2UdpPacketStream).

(** What an operation does to the stream. *)
Definition run (cfg : BuildConfig) (wire : WireLayout) (op : Operation) : M unit :=
  match op with
  | Op_Send now Input => Send wire now Input ;; ret tt
  | Op_Recieve => Recieve ;; ret tt
  | Op_Connect now ClientSteamId => Connect wire now ClientSteamId
  | Op_Disconnect now => Disconnect wire now
  | Op_Pump now => Pump cfg wire now ;; ret tt
  | Op_HandledPacket now AckSequence => HandledPacket wire now AckSequence
  | Op_HandleIncoming now => HandleIncoming cfg wire now
  | Op_HandleOutgoing now => HandleOutgoing cfg wire now
  | Op_HandleIncomingPacket now Packet => HandleIncomingPacket cfg wire now Packet
  | Op_ProcessPacket now Packet => ProcessPacket cfg wire now Packet
  | Op_Reset => modify (Reset cfg)
  | Op_LayerBelow u => modify (set_Udp u)
  end.

(** The states a stream can be in: after its constructor, and after any
    operation that returns. *)
Inductive Reachable (cfg : BuildConfig) (wire : WireLayout)
  : Frpg2ReliableUdpPacketStream -> Prop :=
| Reachable_new (members : Frpg2ReliableUdpPacketStream) :
    Reachable cfg wire (new_Frpg2ReliableUdpPacketStream cfg members)
| Reachable_run (op : Operation) (s s' : Frpg2ReliableUdpPacketStream) :
    Reachable cfg wire s ->
    run cfg wire op s = Done (tt, s') ->
    Reachable cfg wire s'.

(** The bound on the packets in flight. *)
Definition InFlightBounded (cfg : BuildConfig)
  (s : Frpg2ReliableUdpPacketStream) : Prop :=
  (length (RetransmitBuffer s) <= MAX_PACKETS_IN_FLIGHT cfg)%nat.

(** A freshly constructed stream after one [Send] of a DAT packet and one
    tick. *)
Definition sample_in_flight : Frpg2ReliableUdpPacketStream :=
  match (Send sample_wire 0 (sample_packet DAT 0 0) ;;
         Pump sample_config sample_wire 0) sample_stream with
  | Done (_, s) => s
  | EnsureFailed => sample_stream
  end.




(** The datagram that carries the ACK built by [Send_ACK]. *)
Definition Encoded_ACK (wire : WireLayout) (RemoteIndex : Z) : Frpg2UdpPacket :=
  mkUdpPacket false 0
    (BytesOfHeader wire (Header (AckResponse_ACK RemoteIndex)) ++ []).

(** A datagram that carries the reliable packet [p] and no connection
    prefix. *)
Definition Decodes (wire : WireLayout) (d : Frpg2UdpPacket)
  (p : Frpg2ReliableUdpPacket) : Prop :=
  (12 <= length (UdpPayload d))%nat
  /\ nth 0 (UdpPayload d) x00 = xf5
  /\ nth 1 (UdpPayload d) x00 = x02
  /\ p = mkPacket (HeaderOfBytes wire (firstn 12 (UdpPayload d)))
                  (skipn 12 (UdpPayload d)) 0.

(** The stream after the layer below has handed over its only datagram. *)
Definition Inbound_taken (s : Frpg2ReliableUdpPacketStream)
  : Frpg2ReliableUdpPacketStream :=
  set_Udp (mkUdp [] (Sent (Udp s)) (SendFails (Udp s)) (PumpFatal (Udp s))) s.

(** The stream a tick leaves behind (the sample stream if the tick stopped at
    an [Ensure]). *)
Definition stream_after (o : Outcome (bool * Frpg2ReliableUdpPacketStream))
  : Frpg2ReliableUdpPacketStream :=
  match o with
  | Done (_, s) => s
  | EnsureFailed => sample_stream
  end.

(** The first datagram of a client: the connection prefix with its Steam id,
    then a SYN with local index 1. *)
Definition sample_SYN_datagram : Frpg2UdpPacket :=
  mkUdpPacket true 0
    (sample_BytesOfInitialData "76561198000000001"
     ++ sample_BytesOfHeader (Header (sample_packet SYN 1 0))).

(** A stream that has completed the handshake as the server: the SYN arrives,
    then the ACK. *)
Definition sample_established : Frpg2ReliableUdpPacketStream :=
  stream_after
    (Pump sample_config sample_wire 0
       (with_Inbound [sample_datagram ACK 0 1]
          (stream_after
             (Pump sample_config sample_wire 0
                (with_Inbound [sample_SYN_datagram] sample_stream))))).

(** The life of a client constructed when the clock reads [t0]: it is polled,
    and between polls datagrams arrive on its stream, its connection changes
    and the service records tokens. *)
Inductive ClientHistory (cfg : BuildConfig) (t0 : Q) : GameClient -> Prop :=
| History_new OwningService InConnection Stream :
    ClientHistory cfg t0 (new_GameClient t0 OwningService InConnection Stream)
| History_Poll now c :
    ClientHistory cfg t0 c ->
    ClientHistory cfg t0 (snd (fst (Poll cfg now c)))
| History_traffic c OwningService InConnection Stream :
    ClientHistory cfg t0 c ->
    ClientHistory cfg t0
      (mkGameClient OwningService InConnection Stream (LastMessageRecievedTime c)).

(** A stand-in for the CWC primitive, for running [Decrypt]: it accepts the
    tag made of sixteen [0x01] bytes and flips nothing. *)
Definition toy_cwc_decrypt_message
  (iv : list byte) (iv_len : nat) (hdr : list byte) (hdr_len : nat)
  (msg : list byte) (msg_len : nat) (tag : list byte) (tag_len : nat)
  (ctx : unit) : Z * list byte * unit :=
  if list_eq_dec Byte.byte_eq_dec tag (repeat x01 16) then (0, msg, ctx)
  else (-1, msg, ctx).

(** ** CWCCipher.cpp: encryption *)

Section CWCEncrypt.

(** The other half of the CWC primitive, and the random source of
    Core/Utils/Random.h.  [cwc_encrypt_message] encrypts the message buffer in
    place and writes the tag buffer; the result holds the return code, the
    message buffer, the tag buffer and the context after the call.
    [FillRandomBytes] overwrites the buffer it is given. *)
Variable cwc_ctx : Type.
Variable RETURN_ERROR : Z.
Variable cwc_encrypt_message :
  list byte -> nat -> list byte -> nat -> list byte -> nat -> list byte -> nat ->
  cwc_ctx -> Z * list byte * list byte * cwc_ctx.
Variable FillRandomBytes : list byte -> list byte.

(** [Encrypt(Input, Output)]: the result holds the returned flag, [Output]
    after the call and the cipher after the call. *)
Definition Encrypt (Input Output : list byte) (c : CWCCipher cwc_ctx)
  : bool * list byte * CWCCipher cwc_ctx :=
  let IV := repeat x00 11 in
  let Tag := repeat x00 16 in
  let Payload := Input in
  let IV := FillRandomBytes IV in
  let '(code, Payload, Tag, ctx) :=
    cwc_encrypt_message IV 11%nat IV 11%nat Payload (length Payload) Tag 16%nat
                        (CwcContext c) in
  if code =? RETURN_ERROR then (false, Output, mkCWCCipher (Key c) ctx)
  else
    (true, firstn 11 IV ++ firstn 16 Tag ++ Payload, mkCWCCipher (Key c) ctx).

End CWCEncrypt.

Arguments Encrypt {cwc_ctx} RETURN_ERROR cwc_encrypt_message FillRandomBytes
  Input Output c.

(** Stand-ins for the encrypting half of the CWC primitive and for the random
    source, matching [toy_cwc_decrypt_message]. *)
Definition toy_cwc_encrypt_message
  (iv : list byte) (iv_len : nat) (hdr : list byte) (hdr_len : nat)
  (msg : list byte) (msg_len : nat) (tag : list byte) (tag_len : nat)
  (ctx : unit) : Z * list byte * list byte * unit :=
  (0, msg, map (fun _ => x01) tag, ctx).

Definition toy_FillRandomBytes (buffer : list byte) : list byte :=
  map (fun _ => x2a) buffer.

(** Stand-ins for the two halves of the primitive that depend on the key.
    The context is the key; the tag is the key, cut or padded with zeros to
    the size of the tag buffer; decryption refuses every other tag. *)
Definition keyed_tag (key : list byte) (n : nat) : list byte :=
  firstn n (key ++ repeat x00 n).

Definition keyed_cwc_encrypt_message
  (iv : list byte) (iv_len : nat) (hdr : list byte) (hdr_len : nat)
  (msg : list byte) (msg_len : nat) (tag : list byte) (tag_len : nat)
  (ctx : list byte) : Z * list byte * list byte * list byte :=
  (0, msg, keyed_tag ctx (length tag), ctx).

Definition keyed_cwc_decrypt_message
  (iv : list byte) (iv_len : nat) (hdr : list byte) (hdr_len : nat)
  (msg : list byte) (msg_len : nat) (tag : list byte) (tag_len : nat)
  (ctx : list byte) : Z * list byte * list byte :=
  if list_eq_dec Byte.byte_eq_dec tag (keyed_tag ctx (length tag))
  then (0, msg, ctx)
  else (-1, msg, ctx).

(** ** Datagrams the stream sends *)

(** The datagram [SendRaw] hands to the layer below for a packet that is not
    a SYN: the header, then the payload. *)
Definition Encoded (wire : WireLayout) (p : Frpg2ReliableUdpPacket)
  : Frpg2UdpPacket :=
  mkUdpPacket false 0 (BytesOfHeader wire (Header p) ++ Payload p).

(** The packets built by [Send_SYN], [Send_SYN_ACK], [Send_FIN] and
    [Send_HBT]. *)
Definition Packet_SYN (wire : WireLayout) (SequenceIndex : Z)
  : Frpg2ReliableUdpPacket :=
  mkPacket (mkHeader 0xF502 (SequenceIndex mod MAX_ACK_VALUE)
                     (0 mod MAX_ACK_VALUE) SYN 0)
           (Frpg2ReliableUdpPacketOpCodePayload_SYN wire) 0.

Definition Packet_SYN_ACK (wire : WireLayout) (SequenceIndex RemoteIndex : Z)
  : Frpg2ReliableUdpPacket :=
  mkPacket (mkHeader 0xF502 (SequenceIndex mod MAX_ACK_VALUE)
                     (RemoteIndex mod MAX_ACK_VALUE) SYN_ACK 0)
           (Frpg2ReliableUdpPacketOpCodePayload_SYN_ACK wire) 0.

Definition Packet_FIN (SequenceIndex : Z) : Frpg2ReliableUdpPacket :=
  mkPacket (mkHeader 0xF502 (SequenceIndex mod MAX_ACK_VALUE)
                     (0 mod MAX_ACK_VALUE) FIN 0) [] 0.

(** The layer below after it has accepted the datagrams [ds]. *)
Definition Udp_sent (ds : list Frpg2UdpPacket) (u : Frpg2UdpPacketStream)
  : Frpg2UdpPacketStream :=
  mkUdp (Inbound u) (Sent u ++ ds) (SendFails u) (PumpFatal u).

(** The datagram that carries a SYN: the initial connection data with the
    Steam id, then the header and the payload. *)
Definition Encoded_SYN (wire : WireLayout) (ClientSteamId : string)
  (SequenceIndex : Z) : Frpg2UdpPacket :=
  mkUdpPacket true 0
    (BytesOfInitialData wire ClientSteamId
     ++ BytesOfHeader wire (Header (Packet_SYN wire SequenceIndex))
     ++ Payload (Packet_SYN wire SequenceIndex)).

(** An Established stream with one DAT packet queued, after [Disconnect] when
    the clock reads 5. *)
Definition sample_closing : Frpg2ReliableUdpPacketStream :=
  match (Send sample_wire 4 (sample_packet DAT 0 0) ;;
         Disconnect sample_wire 5) sample_established with
  | Done (_, s) => s
  | EnsureFailed => sample_stream
  end.

(** A fresh stream after [Connect]. *)
Definition sample_connecting : Frpg2ReliableUdpPacketStream :=
  match Connect sample_wire 0 "76561198000000001"%string sample_stream with
  | Done (_, s) => s
  | EnsureFailed => sample_stream
  end.

(** ** Well-formed streams *)

(** A packet with a sequenced opcode. *)
Definition Sequenced (p : Frpg2ReliableUdpPacket) : Prop :=
  IsOpcodeSequenced (opcode (Header p)) = true.

(** The local sequence indices of the packets of a queue. *)
Definition local_acks (Queue : list Frpg2ReliableUdpPacket) : list Z :=
  map (fun p => local_ack (Header p)) Queue.

(** What the code relies on between two calls: the sequence index is a
    24-bit value; no two packets of the pending queue carry the same local
    index; the pending queue, the send queue and the retransmit buffer hold
    packets with sequenced opcodes only, and so does the retransmit cursor
    while the stream is retransmitting. *)
Definition WellFormed (s : Frpg2ReliableUdpPacketStream) : Prop :=
  0 <= SequenceIndex s < MAX_ACK_VALUE
  /\ NoDup (local_acks (PendingRecieveQueue s))
  /\ Forall Sequenced (PendingRecieveQueue s)
  /\ Forall Sequenced (SendQueue s)
  /\ Forall Sequenced (RetransmitBuffer s)
  /\ (IsRetransmitting s = true -> Sequenced (RetransmitPacket s)).

(** [Runs cfg wire s s']: some operations, run one after the other from [s],
    all return and leave the stream [s']. *)
Inductive Runs (cfg : BuildConfig) (wire : WireLayout)
  : Frpg2ReliableUdpPacketStream -> Frpg2ReliableUdpPacketStream -> Prop :=
| Runs_none (s : Frpg2ReliableUdpPacketStream) : Runs cfg wire s s
| Runs_more (op : Operation) (s s1 s2 : Frpg2ReliableUdpPacketStream) :
    run cfg wire op s = Done (tt, s1) ->
    Runs cfg wire s1 s2 ->
    Runs cfg wire s s2.


(** Total correctness: from a state where [P] holds, [m] returns, and [Q]
    holds of what it returns. *)
Definition hoare_total {A : Type} (P : Frpg2ReliableUdpPacketStream -> Prop)
  (m : M A) (Q : A -> Frpg2ReliableUdpPacketStream -> Prop) : Prop :=
  forall s, P s -> exists a s', m s = Done (a, s') /\ Q a s'.

(** The opcodes [ProcessPacket] has a handler for. *)
Definition opcode_known (o : Frpg2ReliableUdpOpCode) : bool :=
  match o with
  | Unset | UnknownOpCode _ => false
  | _ => true
  end.

(** What the first loop of [HandleIncoming] hands to [DecodeReliablePacket]:
    the datagram without its connection prefix, when it has one. *)
Definition without_InitialData (wire : WireLayout) (Packet : Frpg2UdpPacket)
  : Frpg2UdpPacket :=
  if (sizeof_Frpg2ReliableUdpInitialData wire <? length (UdpPayload Packet))%nat
     && negb (Byte.eqb (nth 0 (UdpPayload Packet) x00) xf5)
     && negb (Byte.eqb (nth 0 (UdpPayload Packet) x00) x25)
  then
    mkUdpPacket (HasConnectionPrefix Packet) (auth_token Packet)
      (skipn (sizeof_Frpg2ReliableUdpInitialData wire) (UdpPayload Packet))
  else Packet.

(** One iteration of the first loop of [HandleIncoming], after the datagram
    has been taken from the layer below. *)
Definition HandleIncoming_recieve_one (cfg : BuildConfig) (wire : WireLayout)
  (now : Q) (Packet : Frpg2UdpPacket) : M unit :=
  r <- DecodeReliablePacket wire (without_InitialData wire Packet)
         new_Frpg2ReliableUdpPacket ;;
  let '(Decoded, ReliablePacket) := r in
  if negb Decoded then modify (set_InErrorState true)
  else HandleIncomingPacket cfg wire now ReliablePacket.

(** The datagrams the stream takes without stopping: those too short to hold
    a header, and those that start with the magic bytes and carry an opcode
    that has a handler. *)
Definition Acceptable (wire : WireLayout) (d : Frpg2UdpPacket) : bool :=
  let Packet := without_InitialData wire d in
  (length (UdpPayload Packet) <? sizeof_Frpg2ReliableUdpPacketHeader)%nat
  || Byte.eqb (nth 0 (UdpPayload Packet) x00) xf5
     && Byte.eqb (nth 1 (UdpPayload Packet) x00) x02
     && opcode_known
          (opcode (HeaderOfBytes wire
                     (firstn sizeof_Frpg2ReliableUdpPacketHeader
                        (UdpPayload Packet)))).

(** The stream after the layer below has handed over its first datagram. *)
Definition Inbound_popped (s : Frpg2ReliableUdpPacketStream)
  : Frpg2ReliableUdpPacketStream :=
  set_Udp (mkUdp (tl (Inbound (Udp s))) (Sent (Udp s)) (SendFails (Udp s))
                 (PumpFatal (Udp s))) s.

(** A freshly constructed stream with two DAT packets in its send queue, and
    the same stream after [HandleOutgoing]. *)
Definition sample_queued : Frpg2ReliableUdpPacketStream :=
  stream_after
    ((Send sample_wire 0 (sample_packet DAT 0 0) ;;
      Send sample_wire 0 (sample_packet DAT 0 0)) sample_stream).


(** The packet [Send] queues for a packet handed over with opcode [Unset] and
    no sequence to acknowledge: a DAT that carries the sequence index of the
    stream. *)
Definition Packet_DAT (now : Q) (SequenceIndex : Z)
  (Input : Frpg2ReliableUdpPacket) : Frpg2ReliableUdpPacket :=
  mkPacket (mkHeader (magic_number (Header Input))
                     (SequenceIndex mod MAX_ACK_VALUE)
                     (remote_ack (Header Input) mod MAX_ACK_VALUE)
                     DAT (unknown_1 (Header Input)))
           (Payload Input) now.

(** A message as the caller of [Send] builds it, and an established peer that
    expects the sequence index of [sample_established] next. *)
Definition sample_message : Frpg2ReliableUdpPacket :=
  mkPacket (mkHeader 0xF502 0 0 Unset 0) [x68; x69] 0.

Definition sample_peer : Frpg2ReliableUdpPacketStream :=
  set_RemoteSequenceIndex (SequenceIndex sample_established - 1)
    sample_established.

(** The packet [Send] queues for a packet handed over with opcode [Unset]
    that answers the sequence [remote_ack]: a DAT_ACK. *)
Definition Packet_DAT_ACK (now : Q) (SequenceIndex : Z)
  (Input : Frpg2ReliableUdpPacket) : Frpg2ReliableUdpPacket :=
  mkPacket (mkHeader (magic_number (Header Input))
                     (SequenceIndex mod MAX_ACK_VALUE)
                     (remote_ack (Header Input) mod MAX_ACK_VALUE)
                     DAT_ACK (unknown_1 (Header Input)))
           (Payload Input) now.

(** [sample_established] with one DAT sent and not yet acknowledged, and a
    reply to the sequence 7. *)
Definition sample_unacknowledged : Frpg2ReliableUdpPacketStream :=
  match (Send sample_wire 1 sample_message ;;
         HandleOutgoing sample_config sample_wire 1) sample_established with
  | Done (_, s) => s
  | EnsureFailed => sample_stream
  end.

Definition sample_reply : Frpg2ReliableUdpPacket :=
  mkPacket (mkHeader 0xF502 0 7 Unset 0) [x6f; x6b] 0.

(** The test of the scan of [HandleOutgoing]: the packet was sent more than
    [RETRANSMIT_INTERVAL] ago. *)
Definition stale (cfg : BuildConfig) (CurrentTime : Q)
  (Packet : Frpg2ReliableUdpPacket) : bool :=
  Qgtb (double_minus cfg CurrentTime (SendTime Packet)) (RETRANSMIT_INTERVAL cfg).

(** The test that ends retransmit mode in [HandleOutgoing]: the peer has
    acknowledged the packet under the cursor. *)
Definition cursor_acknowledged (s : Frpg2ReliableUdpPacketStream) : bool :=
  (RetransmittingIndex s >? MAX_ACK_VALUE_TOP_QUART)
  && (SequenceIndexAcked s <? MAX_ACK_VALUE_BOTTOM_QUART)
  || (SequenceIndexAcked s >=? RetransmittingIndex s).

(** The packets of the retransmit buffer the peer has not acknowledged. *)
Definition unacknowledged (s : Frpg2ReliableUdpPacketStream)
  : list Frpg2ReliableUdpPacket :=
  filter (fun Packet =>
            negb (HandleOutgoing_acknowledged (SequenceIndexAcked s) Packet))
         (RetransmitBuffer s).

(** [sample_unacknowledged] after the tick at time 5 that finds its packet
    stale. *)
Definition sample_retransmitting : Frpg2ReliableUdpPacketStream :=
  match HandleOutgoing sample_config sample_wire 5 sample_unacknowledged with
  | Done (_, s) => s
  | EnsureFailed => sample_stream
  end.

(** * Properties *)

(** ** Reasoning about member functions *)

Lemma hoare_ret {A} P (a : A) (Q : A -> _ -> Prop) :
  (forall s, P s -> Q a s) -> hoare P (ret a) Q.
Proof. intros H s Hs. cbn. auto. Qed.

Lemma hoare_bind {A B} P (R : A -> _ -> Prop) (Q : B -> _ -> Prop)
  (m : M A) (k : A -> M B) :
  hoare P m R -> (forall a, hoare (R a) (k a) Q) -> hoare P (bind m k) Q.
Proof.
  intros Hm Hk s Hs. unfold bind. specialize (Hm s Hs).
  destruct (m s) as [[a s']|]; [|exact I]. apply (Hk a s' Hm).
Qed.

Lemma hoare_get_bind {A} P (Q : A -> _ -> Prop)
  (k : Frpg2ReliableUdpPacketStream -> M A) :
  (forall s0, hoare (fun s => P s /\ s = s0) (k s0) Q) -> hoare P (bind get k) Q.
Proof. intros H s Hs. unfold bind, get. apply (H s s). auto. Qed.

Lemma hoare_modify P f (Q : unit -> _ -> Prop) :
  (forall s, P s -> Q tt (f s)) -> hoare P (modify f) Q.
Proof. intros H s Hs. cbn. auto. Qed.

Lemma hoare_Ensure P b (Q : unit -> _ -> Prop) :
  (b = true -> forall s, P s -> Q tt s) -> hoare P (Ensure b) Q.
Proof. intros H s Hs. unfold Ensure. destruct b; auto. Qed.

Lemma hoare_weaken {A} (P P' : _ -> Prop) (Q Q' : A -> _ -> Prop) (m : M A) :
  hoare P' m Q' -> (forall s, P s -> P' s) ->
  (forall a s, Q' a s -> Q a s) -> hoare P m Q.
Proof.
  intros H HP HQ s Hs. specialize (H s (HP s Hs)).
  destruct (m s) as [[a s']|]; auto.
Qed.

Lemma hoare_done {A} P (m : M A) (Q : A -> _ -> Prop) s a s' :
  hoare P m Q -> P s -> m s = Done (a, s') -> Q a s'.
Proof. intros H Hs E. specialize (H s Hs). rewrite E in H. exact H. Qed.

Lemma keeps_ret {A} P (a : A) : keeps P (ret a).
Proof. apply hoare_ret. auto. Qed.

Lemma keeps_bind {A B} P (m : M A) (k : A -> M B) :
  keeps P m -> (forall a, keeps P (k a)) -> keeps P (bind m k).
Proof. intros Hm Hk. eapply hoare_bind; [exact Hm|exact Hk]. Qed.

Lemma keeps_get_bind {A} P (k : Frpg2ReliableUdpPacketStream -> M A) :
  (forall s0, keeps P (k s0)) -> keeps P (bind get k).
Proof.
  intros H. apply hoare_get_bind. intros s0.
  eapply hoare_weaken; [apply (H s0)| |]; cbn; tauto.
Qed.

Lemma keeps_modify P f : (forall s, P s -> P (f s)) -> keeps P (modify f).
Proof. intros H. apply hoare_modify. exact H. Qed.

Lemma keeps_Ensure P b : keeps P (Ensure b).
Proof. apply hoare_Ensure. auto. Qed.

Lemma keeps_done {A} P (m : M A) s a s' :
  keeps P m -> P s -> m s = Done (a, s') -> P s'.
Proof. intros H. apply (hoare_done P m (fun _ => P) s a s' H). Qed.

Create HintDb keeps.

(** One step of a preservation proof: follow the shape of the function. *)
Ltac keeps_step :=
  lazymatch goal with
  | |- keeps _ (ret _) => apply keeps_ret
  | |- keeps _ (bind get _) => apply keeps_get_bind; intros ?
  | |- keeps _ (bind _ _) => apply keeps_bind; [ | intros ? ]
  | |- keeps _ (modify _) => apply keeps_modify; intros ? ?
  | |- keeps _ (Ensure _) => apply keeps_Ensure
  | |- keeps _ (if ?b then _ else _) => destruct b
  | |- keeps _ (match ?x with _ => _ end) => destruct x
  | |- keeps _ _ => solve [eauto with keeps]
  | |- _ => solve [eauto with keeps]
  end.

Ltac keeps_auto := unfold GetAckCounters; cbv iota beta; repeat keeps_step.

(** ** Properties that survive the assignments of the stream *)

Section Stable.

Variable cfg : BuildConfig.
Variable wire : WireLayout.
Variable P : Frpg2ReliableUdpPacketStream -> Prop.

Hypothesis P_Udp : forall v s, P s -> P (set_Udp v s).
Hypothesis P_InErrorState : forall v s, P s -> P (set_InErrorState v s).
Hypothesis P_State : forall v s, v <> Closed -> P s -> P (set_State v s).
Hypothesis P_SteamId : forall v s, P s -> P (set_SteamId v s).
Hypothesis P_ResendSynTimer : forall v s, P s -> P (set_ResendSynTimer v s).
Hypothesis P_SequenceIndex : forall v s, P s -> P (set_SequenceIndex v s).
Hypothesis P_SequenceIndexAcked :
  forall v s, P s -> P (set_SequenceIndexAcked v s).
Hypothesis P_RemoteSequenceIndex :
  forall v s, P s -> P (set_RemoteSequenceIndex v s).
Hypothesis P_RemoteSequenceIndexAcked :
  forall v s, P s -> P (set_RemoteSequenceIndexAcked v s).
Hypothesis P_DatAckResponses : forall v s, P s -> P (set_DatAckResponses v s).
Hypothesis P_ExpectedDatAckResponses :
  forall v s, P s -> P (set_ExpectedDatAckResponses v s).
Hypothesis P_SendQueue : forall v s, P s -> P (set_SendQueue v s).
Hypothesis P_RetransmitBuffer : forall v s, P s -> P (set_RetransmitBuffer v s).
Hypothesis P_PendingRecieveQueue :
  forall v s, P s -> P (set_PendingRecieveQueue v s).
Hypothesis P_RecieveQueue : forall v s, P s -> P (set_RecieveQueue v s).
Hypothesis P_LastPacketRecievedTime :
  forall v s, P s -> P (set_LastPacketRecievedTime v s).
Hypothesis P_LastAckSendTime : forall v s, P s -> P (set_LastAckSendTime v s).
Hypothesis P_CloseTimer : forall v s, P s -> P (set_CloseTimer v s).
Hypothesis P_IsRetransmitting : forall v s, P s -> P (set_IsRetransmitting v s).
Hypothesis P_RetransmittingIndex :
  forall v s, P s -> P (set_RetransmittingIndex v s).
Hypothesis P_RetransmitPacket : forall v s, P s -> P (set_RetransmitPacket v s).
Hypothesis P_RetransmissionTimer :
  forall v s, P s -> P (set_RetransmissionTimer v s).
Hypothesis P_Reset : forall s, P s -> P (Reset cfg s).

Lemma SendRaw_keeps Input : keeps P (SendRaw wire Input).
Proof.
  unfold SendRaw, EncodeReliablePacket, Frpg2UdpPacketStream_Send.
  keeps_auto.
Qed.
#[local] Hint Resolve SendRaw_keeps : keeps.
#[local] Hint Extern 1 (_ <> Closed) => discriminate : keeps.

(** [Send] of a packet that is not queued: the branch through [SendRaw]. *)
Lemma Send_raw_keeps now Input :
  IsOpcodeSequenced (opcode (Header Input))
  || opcode_eqb (opcode (Header Input)) Unset = false ->
  keeps P (Send wire now Input).
Proof.
  intros H. unfold Send. rewrite H. keeps_auto.
Qed.

Lemma Send_keeps now Input : keeps P (Send wire now Input).
Proof.
  unfold Send. keeps_auto.
Qed.

Lemma Send_ACK_keeps now RemoteIndex : keeps P (Send_ACK wire now RemoteIndex).
Proof.
  unfold Send_ACK. keeps_auto. apply Send_raw_keeps. reflexivity.
Qed.

Lemma Send_HBT_keeps now : keeps P (Send_HBT wire now).
Proof.
  unfold Send_HBT. keeps_auto. apply Send_raw_keeps. reflexivity.
Qed.

Lemma Send_SYN_keeps now : keeps P (Send_SYN wire now).
Proof.
  unfold Send_SYN. keeps_auto. apply Send_raw_keeps. reflexivity.
Qed.

Lemma Send_SYN_ACK_keeps now RemoteIndex :
  keeps P (Send_SYN_ACK wire now RemoteIndex).
Proof.
  unfold Send_SYN_ACK. keeps_auto. apply Send_raw_keeps. reflexivity.
Qed.

Lemma Send_FIN_keeps now : keeps P (Send_FIN wire now).
Proof.
  unfold Send_FIN. keeps_auto. apply Send_raw_keeps. reflexivity.
Qed.

Lemma Send_FIN_ACK_keeps now RemoteIndex :
  keeps P (Send_FIN_ACK wire now RemoteIndex).
Proof.
  unfold Send_FIN_ACK. keeps_auto. apply Send_keeps.
Qed.

Lemma Send_DAT_ACK_keeps now LocalIndex RemoteIndex :
  keeps P (Send_DAT_ACK wire now LocalIndex RemoteIndex).
Proof.
  unfold Send_DAT_ACK. keeps_auto. apply Send_keeps.
Qed.

#[local] Hint Resolve Send_keeps Send_ACK_keeps Send_HBT_keeps Send_SYN_keeps
  Send_SYN_ACK_keeps Send_FIN_keeps Send_FIN_ACK_keeps Send_DAT_ACK_keeps : keeps.

Lemma Recieve_keeps : keeps P Recieve.
Proof. unfold Recieve. keeps_auto. Qed.

Lemma Disconnect_keeps now : keeps P (Disconnect wire now).
Proof. unfold Disconnect. keeps_auto. Qed.

Lemma Connect_keeps now ClientSteamId :
  keeps P (Connect wire now ClientSteamId).
Proof. unfold Connect. keeps_auto. Qed.

Lemma HandledPacket_keeps now AckSequence :
  keeps P (HandledPacket wire now AckSequence).
Proof. unfold HandledPacket. keeps_auto. Qed.

Lemma UpdateSequenceIndexAcked_keeps InRemoteAck :
  keeps P (UpdateSequenceIndexAcked InRemoteAck).
Proof.
  unfold UpdateSequenceIndexAcked. apply keeps_modify. intros s Hs.
  destruct (_ && _); auto.
Qed.
#[local] Hint Resolve UpdateSequenceIndexAcked_keeps : keeps.

Lemma Handle_SYN_keeps now Packet : keeps P (Handle_SYN wire now Packet).
Proof. unfold Handle_SYN. keeps_auto. Qed.

Lemma Handle_SYN_ACK_keeps now Packet : keeps P (Handle_SYN_ACK wire now Packet).
Proof. unfold Handle_SYN_ACK. keeps_auto. Qed.

Lemma Handle_HBT_keeps now Packet : keeps P (Handle_HBT wire now Packet).
Proof. unfold Handle_HBT. keeps_auto. Qed.

Lemma Handle_FIN_keeps now Packet : keeps P (Handle_FIN wire now Packet).
Proof. unfold Handle_FIN. keeps_auto. Qed.

Lemma Handle_FIN_ACK_keeps Packet : keeps P (Handle_FIN_ACK Packet).
Proof. unfold Handle_FIN_ACK. keeps_auto. Qed.

Lemma Handle_RST_keeps Packet : keeps P (Handle_RST cfg Packet).
Proof. unfold Handle_RST. keeps_auto. Qed.

Lemma Handle_ACK_keeps Packet : keeps P (Handle_ACK Packet).
Proof. unfold Handle_ACK. keeps_auto. Qed.

Lemma Handle_RACK_keeps Packet : keeps P (Handle_RACK Packet).
Proof. unfold Handle_RACK. keeps_auto. Qed.

Lemma Handle_DAT_keeps now Packet : keeps P (Handle_DAT wire now Packet).
Proof. unfold Handle_DAT. keeps_auto. Qed.

Lemma Handle_DAT_ACK_keeps now Packet : keeps P (Handle_DAT_ACK wire now Packet).
Proof. unfold Handle_DAT_ACK. keeps_auto. Qed.

#[local] Hint Resolve Handle_SYN_keeps Handle_SYN_ACK_keeps Handle_HBT_keeps
  Handle_FIN_keeps Handle_FIN_ACK_keeps Handle_RST_keeps Handle_ACK_keeps
  Handle_RACK_keeps Handle_DAT_keeps Handle_DAT_ACK_keeps : keeps.

Lemma ProcessPacket_keeps now Packet :
  keeps P (ProcessPacket cfg wire now Packet).
Proof. unfold ProcessPacket. keeps_auto. Qed.
#[local] Hint Resolve ProcessPacket_keeps : keeps.

Lemma HandleIncomingPacket_keeps now Packet :
  keeps P (HandleIncomingPacket cfg wire now Packet).
Proof. unfold HandleIncomingPacket. keeps_auto. Qed.

Lemma DecodeReliablePacket_keeps Input Output :
  keeps P (DecodeReliablePacket wire Input Output).
Proof. unfold DecodeReliablePacket. keeps_auto. Qed.

#[local] Hint Resolve HandleIncomingPacket_keeps DecodeReliablePacket_keeps : keeps.

Lemma HandleIncoming_recieve_keeps now fuel :
  keeps P (HandleIncoming_recieve cfg wire now fuel).
Proof.
  induction fuel as [|fuel IH]; cbn [HandleIncoming_recieve].
  - apply keeps_ret.
  - unfold Frpg2UdpPacketStream_Recieve. keeps_auto.
Qed.

Lemma HandleIncoming_pending_keeps now fuel :
  keeps P (HandleIncoming_pending cfg wire now fuel).
Proof.
  induction fuel as [|fuel IH]; cbn [HandleIncoming_pending].
  - apply keeps_ret.
  - keeps_auto.
Qed.

#[local] Hint Resolve HandleIncoming_recieve_keeps HandleIncoming_pending_keeps
  : keeps.

Lemma HandleIncoming_keeps now : keeps P (HandleIncoming cfg wire now).
Proof. unfold HandleIncoming. keeps_auto. Qed.

Lemma HandleOutgoing_scan_keeps now CurrentTime buffer :
  keeps P (HandleOutgoing_scan cfg wire now CurrentTime buffer).
Proof.
  induction buffer as [|Packet rest IH]; cbn [HandleOutgoing_scan].
  - apply keeps_ret.
  - keeps_auto.
Qed.

Lemma HandleOutgoing_send_keeps fuel :
  keeps P (HandleOutgoing_send cfg wire fuel).
Proof.
  induction fuel as [|fuel IH]; cbn [HandleOutgoing_send].
  - apply keeps_ret.
  - keeps_auto.
Qed.

#[local] Hint Resolve HandleOutgoing_scan_keeps HandleOutgoing_send_keeps : keeps.


End Stable.

(** ** Results of calls that cannot stop at an [Ensure] *)

Lemma total_ret {A} (a : A) : total (ret a).
Proof. intros s. do 2 eexists. reflexivity. Qed.

Lemma total_bind {A B} (m : M A) (k : A -> M B) :
  total m -> (forall a, total (k a)) -> total (bind m k).
Proof.
  intros Hm Hk s. unfold bind. destruct (Hm s) as (a & s' & E). rewrite E.
  apply Hk.
Qed.

Lemma total_get_bind {A} (k : Frpg2ReliableUdpPacketStream -> M A) :
  (forall s0, total (k s0)) -> total (bind get k).
Proof. intros H s. unfold bind, get. apply H. Qed.

Lemma total_modify f : total (modify f).
Proof. intros s. do 2 eexists. reflexivity. Qed.

Lemma total_Ensure_true : total (Ensure true).
Proof. intros s. do 2 eexists. reflexivity. Qed.

Lemma total_hoare {A} P (m : M A) (Q : A -> _ -> Prop) s :
  total m -> hoare P m Q -> P s -> exists a s', m s = Done (a, s') /\ Q a s'.
Proof.
  intros Ht Hh Hs. destruct (Ht s) as (a & s' & E). exists a, s'. split; [exact E|].
  apply (hoare_done P m Q s a s' Hh Hs E).
Qed.

Create HintDb total.

Ltac total_step :=
  lazymatch goal with
  | |- total (ret _) => apply total_ret
  | |- total (bind get _) => apply total_get_bind; intros ?
  | |- total (bind _ _) => apply total_bind; [ | intros ? ]
  | |- total (modify _) => apply total_modify
  | |- total (Ensure true) => apply total_Ensure_true
  | |- total (if ?b then _ else _) => destruct b
  | |- total (match ?x with _ => _ end) => destruct x
  | |- _ => solve [eauto with total]
  end.

Ltac total_auto := unfold GetAckCounters; cbv iota beta; repeat total_step.

Section Totality.

Variable cfg : BuildConfig.
Variable wire : WireLayout.

Lemma SendRaw_total Input :
  opcode_eqb (opcode (Header Input)) Unset = false -> total (SendRaw wire Input).
Proof.
  intros H. unfold SendRaw, EncodeReliablePacket, Frpg2UdpPacketStream_Send.
  rewrite H. cbn [negb]. total_auto.
Qed.

Lemma Send_total now Input : total (Send wire now Input).
Proof.
  unfold Send. apply total_get_bind. intros s0.
  destruct (state_eqb (State s0) Closing); [apply total_ret|].
  destruct (IsOpcodeSequenced (opcode (Header Input))
            || opcode_eqb (opcode (Header Input)) Unset) eqn:E.
  - total_auto.
  - apply orb_false_elim in E. destruct E as [_ E].
    apply total_bind; [apply SendRaw_total; exact E|intros ?; apply total_ret].
Qed.
#[local] Hint Resolve Send_total : total.

Lemma Send_ACK_total now RemoteIndex : total (Send_ACK wire now RemoteIndex).
Proof. unfold Send_ACK. total_auto. Qed.

Lemma Send_HBT_total now : total (Send_HBT wire now).
Proof. unfold Send_HBT. total_auto. Qed.

Lemma Send_SYN_total now : total (Send_SYN wire now).
Proof. unfold Send_SYN. total_auto. Qed.

Lemma Send_SYN_ACK_total now RemoteIndex : total (Send_SYN_ACK wire now RemoteIndex).
Proof. unfold Send_SYN_ACK. total_auto. Qed.

Lemma Send_FIN_total now : total (Send_FIN wire now).
Proof. unfold Send_FIN. total_auto. Qed.

Lemma Send_FIN_ACK_total now RemoteIndex : total (Send_FIN_ACK wire now RemoteIndex).
Proof. unfold Send_FIN_ACK. total_auto. Qed.

#[local] Hint Resolve Send_ACK_total Send_HBT_total Send_SYN_total
  Send_SYN_ACK_total Send_FIN_total Send_FIN_ACK_total : total.

Lemma UpdateSequenceIndexAcked_total InRemoteAck :
  total (UpdateSequenceIndexAcked InRemoteAck).
Proof. apply total_modify. Qed.
#[local] Hint Resolve UpdateSequenceIndexAcked_total : total.

(** Every packet whose opcode is one of the ten known opcodes is processed to
    the end. *)
Lemma ProcessPacket_total now Packet :
  match opcode (Header Packet) with
  | Unset | UnknownOpCode _ => False
  | _ => True
  end ->
  total (ProcessPacket cfg wire now Packet).
Proof.
  unfold ProcessPacket. intros H.
  destruct (opcode (Header Packet)); try contradiction;
    unfold Handle_SYN, Handle_SYN_ACK, Handle_DAT, Handle_HBT, Handle_FIN,
      Handle_RST, Handle_ACK, Handle_RACK, Handle_DAT_ACK, Handle_FIN_ACK;
    total_auto.
Qed.

End Totality.

(** Closes the side conditions of the lemmas of [Stable]. *)
Ltac stable := intros; cbn in *; auto; try discriminate; try lia.

Lemma hoare_get_bind_forget {A} P (Q : A -> _ -> Prop)
  (k : Frpg2ReliableUdpPacketStream -> M A) :
  (forall s0, hoare P (k s0) Q) -> hoare P (bind get k) Q.
Proof.
  intros H. apply hoare_get_bind. intros s0.
  eapply hoare_weaken; [apply (H s0)| |]; cbn; tauto.
Qed.

(** A call that preserves [P], followed by the rest of the function. *)
Lemma hoare_keeps_bind {A B} P (Q : B -> _ -> Prop) (m : M A) (k : A -> M B) :
  keeps P m -> (forall a, hoare P (k a) Q) -> hoare P (bind m k) Q.
Proof. intros Hm Hk. eapply hoare_bind; [exact Hm|exact Hk]. Qed.

Lemma u32_mod_MAX_ACK_VALUE z : u32 z mod MAX_ACK_VALUE = z mod MAX_ACK_VALUE.
Proof.
  unfold u32, MAX_ACK_VALUE.
  apply Z.mod_mod_divide. exists (2 ^ 8). reflexivity.
Qed.

(** ** Sequenced packets before the handshake is complete *)

(** C3.  A packet with a sequenced opcode (DAT, DAT_ACK, FIN_ACK) that arrives
    while the state is not Established marks the stream as being in the error
    state and is dropped: [HandleIncomingPacket] returns after recording the
    arrival time and setting [InErrorState]; the pending queue, the receive
    queue, the state and the datagrams sent are as before, so no handler ran
    and nothing is left for the pending loop to process. *)
Theorem HandleIncomingPacket_sequenced_before_Established
  (cfg : BuildConfig) (wire : WireLayout) (now : Q)
  (Packet : Frpg2ReliableUdpPacket) (s : Frpg2ReliableUdpPacketStream) :
  IsOpcodeSequenced (opcode (Header Packet)) = true ->
  State s <> Established ->
  let s' := set_InErrorState true (set_LastPacketRecievedTime now s) in
  HandleIncomingPacket cfg wire now Packet s = Done (tt, s')
  /\ InErrorState s' = true
  /\ PendingRecieveQueue s' = PendingRecieveQueue s
  /\ RecieveQueue s' = RecieveQueue s
  /\ State s' = State s
  /\ Sent (Udp s') = Sent (Udp s).
Proof.
  intros Hseq Hstate s'. subst s'. repeat split.
  unfold HandleIncomingPacket, bind, modify, get. cbn.
  rewrite Hseq. cbn.
  destruct (State s) eqn:E; cbn; try reflexivity.
  contradiction Hstate. reflexivity.
Qed.

(** ** The update of the acknowledged sequence index *)

Lemma UpdateSequenceIndexAcked_spec InRemoteAck v :
  hoare (fun s => SequenceIndexAcked s = v)
        (UpdateSequenceIndexAcked InRemoteAck)
        (fun _ s => SequenceIndexAcked s = spec_modular_max v InRemoteAck).
Proof.
  apply hoare_modify. intros s Hs. unfold spec_modular_max.
  unfold MAX_ACK_VALUE_TOP_QUART, MAX_ACK_VALUE_BOTTOM_QUART. rewrite Hs.
  rewrite Z.gtb_ltb.
  destruct ((3 * 2 ^ 22 <? v) && (InRemoteAck <? 2 ^ 22)); reflexivity.
Qed.

Lemma ProcessPacket_SequenceIndexAcked_hoare cfg wire now Packet v :
  opcode (Header Packet) = ACK \/ opcode (Header Packet) = HBT
  \/ opcode (Header Packet) = DAT_ACK ->
  hoare (fun s => SequenceIndexAcked s = v)
        (ProcessPacket cfg wire now Packet)
        (fun _ s =>
           SequenceIndexAcked s = spec_modular_max v (remote_ack (Header Packet))).
Proof.
  intros H. unfold ProcessPacket.
  destruct H as [H|[H|H]]; rewrite H.
  - unfold Handle_ACK, GetAckCounters. apply hoare_get_bind_forget. intros s0.
    apply hoare_keeps_bind.
    + destruct (state_eqb (State s0) SynRecieved);
        [apply keeps_modify; stable|apply keeps_ret].
    + intros ?. apply UpdateSequenceIndexAcked_spec.
  - unfold Handle_HBT, GetAckCounters.
    eapply hoare_bind; [apply UpdateSequenceIndexAcked_spec|].
    intros ?. apply Send_HBT_keeps; stable.
  - unfold Handle_DAT_ACK, GetAckCounters.
    eapply hoare_bind; [apply UpdateSequenceIndexAcked_spec|].
    intros ?. apply keeps_bind; [apply Send_ACK_keeps; stable|].
    intros ?. apply keeps_modify. stable.
Qed.

(** C6.  Processing an ACK, HBT or DAT_ACK packet always returns, and leaves
    [SequenceIndexAcked] equal to the modular-compare rule applied to its old
    value and the packet's remote_ack: the remote_ack when the old value is
    above [3 * 2^22] and the remote_ack below [2^22], the maximum of the two
    otherwise. *)
Theorem ProcessPacket_updates_SequenceIndexAcked
  (cfg : BuildConfig) (wire : WireLayout) (now : Q)
  (Packet : Frpg2ReliableUdpPacket) (s : Frpg2ReliableUdpPacketStream) :
  opcode (Header Packet) = ACK \/ opcode (Header Packet) = HBT
  \/ opcode (Header Packet) = DAT_ACK ->
  exists s',
    ProcessPacket cfg wire now Packet s = Done (tt, s')
    /\ SequenceIndexAcked s' =
       spec_modular_max (SequenceIndexAcked s) (remote_ack (Header Packet)).
Proof.
  intros H.
  destruct (total_hoare (fun s0 => SequenceIndexAcked s0 = SequenceIndexAcked s)
              (ProcessPacket cfg wire now Packet)
              (fun _ s0 => SequenceIndexAcked s0 =
                 spec_modular_max (SequenceIndexAcked s) (remote_ack (Header Packet)))
              s) as ([] & s' & E & Hs').
  - apply ProcessPacket_total. destruct H as [H|[H|H]]; rewrite H; exact I.
  - apply ProcessPacket_SequenceIndexAcked_hoare. exact H.
  - reflexivity.
  - exists s'. split; assumption.
Qed.

(** ** The sequence index *)

Lemma HandleIncomingPacket_not_sequenced cfg wire now Packet s :
  IsOpcodeSequenced (opcode (Header Packet)) = false ->
  HandleIncomingPacket cfg wire now Packet s =
  ProcessPacket cfg wire now Packet (set_LastPacketRecievedTime now s).
Proof.
  intros H. unfold HandleIncomingPacket, bind, modify, GetAckCounters.
  rewrite H. reflexivity.
Qed.

(** Queueing a sequenced packet. *)
Lemma Send_sequenced wire now Input s :
  IsOpcodeSequenced (opcode (Header Input)) = true ->
  State s <> Closing ->
  Send wire now Input s =
  Done (true,
        set_SendQueue (SendQueue s ++ [set_SendTime now Input])
          (set_SequenceIndex (u32 (SequenceIndex s + 1) mod MAX_ACK_VALUE) s)).
Proof.
  intros Hseq Hstate. unfold Send, bind, get, modify, ret.
  replace (state_eqb (State s) Closing) with false
    by (destruct (State s); try reflexivity; contradiction Hstate; reflexivity).
  rewrite Hseq. cbn [orb set_SendTime Header opcode].
  destruct (opcode (Header Input)); try discriminate Hseq; reflexivity.
Qed.

Lemma Send_Closing wire now Input s :
  State s = Closing -> Send wire now Input s = Done (true, s).
Proof.
  intros H. unfold Send, bind, get, ret. rewrite H. reflexivity.
Qed.

Lemma hoare_True {A} P (m : M A) : hoare P m (fun _ _ => True).
Proof. intros s _. destruct (m s) as [[? ?]|]; exact I. Qed.

Lemma Send_returns_true wire now Input :
  hoare (fun _ => True) (Send wire now Input) (fun r _ => r = true).
Proof.
  unfold Send. apply hoare_get_bind_forget. intros s0.
  destruct (state_eqb (State s0) Closing); [apply hoare_ret; auto|].
  destruct (_ || _).
  - eapply hoare_bind; [apply hoare_True|]. intros ?.
    eapply hoare_bind; [apply hoare_True|]. intros ?.
    eapply hoare_bind; [apply hoare_True|]. intros ?.
    apply hoare_ret. auto.
  - eapply hoare_bind; [apply hoare_True|]. intros ?.
    apply hoare_ret. auto.
Qed.

Lemma Send_not_queued_SequenceIndex wire now Input s :
  IsOpcodeSequenced (opcode (Header Input))
  || opcode_eqb (opcode (Header Input)) Unset = false ->
  exists s',
    Send wire now Input s = Done (true, s') /\ SequenceIndex s' = SequenceIndex s.
Proof.
  intros H.
  destruct (Send_total wire now Input s) as (r & s' & E).
  assert (r = true) by
    (apply (hoare_done _ _ _ s r s' (Send_returns_true wire now Input) I E)).
  subst r. exists s'. split; [exact E|].
  apply (keeps_done (fun s0 => SequenceIndex s0 = SequenceIndex s)
           (Send wire now Input) s true s'); [|reflexivity|exact E].
  apply Send_raw_keeps; [stable|stable|exact H].
Qed.

Lemma Send_SYN_ACK_SequenceIndex wire now RemoteIndex v :
  hoare (fun s => SequenceIndex s = v)
        (Send_SYN_ACK wire now RemoteIndex)
        (fun _ s => SequenceIndex s = (v + 1) mod MAX_ACK_VALUE).
Proof.
  unfold Send_SYN_ACK. apply hoare_get_bind_forget. intros s0.
  apply hoare_keeps_bind; [apply Send_raw_keeps; [stable|stable|reflexivity]|].
  intros ?. apply hoare_keeps_bind; [apply keeps_modify; stable|]. intros ?.
  apply hoare_modify. intros s Hs. cbn. rewrite Hs.
  apply u32_mod_MAX_ACK_VALUE.
Qed.

Lemma ProcessPacket_SequenceIndex_kept cfg wire now Packet v :
  In (opcode (Header Packet)) [ACK; HBT; RACK] ->
  keeps (fun s => SequenceIndex s = v) (ProcessPacket cfg wire now Packet).
Proof.
  intros H. unfold ProcessPacket.
  destruct H as [H|[H|[H|[]]]]; rewrite <- H.
  - apply Handle_ACK_keeps; stable.
  - apply Handle_HBT_keeps; stable.
  - apply Handle_RACK_keeps.
Qed.

Lemma ProcessPacket_SequenceIndex_handshake cfg wire now Packet v :
  In (opcode (Header Packet)) [SYN; SYN_ACK] ->
  hoare (fun s => SequenceIndex s = v)
        (ProcessPacket cfg wire now Packet)
        (fun _ s => SequenceIndex s = (v + 1) mod MAX_ACK_VALUE).
Proof.
  intros H. unfold ProcessPacket.
  destruct H as [H|[H|[]]]; rewrite <- H.
  - unfold Handle_SYN, GetAckCounters.
    apply hoare_keeps_bind; [apply keeps_modify; stable|]. intros ?.
    eapply hoare_bind; [apply Send_SYN_ACK_SequenceIndex|]. intros ?.
    apply Send_ACK_keeps; stable.
  - unfold Handle_SYN_ACK, GetAckCounters.
    apply hoare_keeps_bind; [apply keeps_modify; stable|]. intros ?.
    apply hoare_keeps_bind; [apply keeps_modify; stable|]. intros ?.
    apply hoare_get_bind_forget. intros s0.
    apply hoare_keeps_bind; [apply Send_ACK_keeps; stable|]. intros ?.
    apply hoare_modify. intros s Hs. cbn. rewrite Hs.
    apply u32_mod_MAX_ACK_VALUE.
Qed.

Lemma Handle_FIN_SequenceIndex wire now Packet s :
  exists s',
    Handle_FIN wire now Packet s = Done (tt, s')
    /\ SequenceIndex s' =
       if state_eqb (State s) Closing then SequenceIndex s
       else (SequenceIndex s + 1) mod MAX_ACK_VALUE.
Proof.
  unfold Handle_FIN, Send_FIN_ACK, GetAckCounters, bind, get.
  destruct (state_eqb (State s) Closing) eqn:E.
  - rewrite Send_Closing by (destruct (State s); try discriminate E; reflexivity).
    eexists. split; reflexivity.
  - rewrite Send_sequenced;
      [|reflexivity|intros C; rewrite C in E; discriminate E].
    eexists. split; [reflexivity|]. cbn. apply u32_mod_MAX_ACK_VALUE.
Qed.

Lemma Handle_RST_SequenceIndex cfg Packet s :
  exists s',
    Handle_RST cfg Packet s = Done (tt, s')
    /\ SequenceIndex s' = START_SEQUENCE_INDEX cfg.
Proof. eexists. split; reflexivity. Qed.

(** C2 (as the code has it).  Queueing a DAT, DAT_ACK or FIN_ACK packet with
    [Send], in any state but Closing, appends it to the send queue and
    increments [SequenceIndex] modulo 2^24.  [Send] of a SYN, SYN_ACK, ACK,
    HBT, FIN, RST or RACK packet leaves [SequenceIndex] as it is, and so does
    the arrival of an ACK, HBT or RACK packet.  The handshake is the
    exception: the arrival of a SYN (answered through [Send_SYN_ACK]) and the
    arrival of a SYN_ACK both increment [SequenceIndex] modulo 2^24.  The
    arrival of a FIN queues a FIN_ACK, which increments it unless the state is
    already Closing, and the arrival of a RST sets it to
    [START_SEQUENCE_INDEX]. *)
Theorem SequenceIndex_discipline
  (cfg : BuildConfig) (wire : WireLayout) (now : Q)
  (Packet : Frpg2ReliableUdpPacket) (s : Frpg2ReliableUdpPacketStream) :
  (IsOpcodeSequenced (opcode (Header Packet)) = true -> State s <> Closing ->
   exists s',
     Send wire now Packet s = Done (true, s')
     /\ SequenceIndex s' = (SequenceIndex s + 1) mod MAX_ACK_VALUE
     /\ SendQueue s' = SendQueue s ++ [set_SendTime now Packet])
  /\ (In (opcode (Header Packet)) [SYN; SYN_ACK; ACK; HBT; FIN; RST; RACK] ->
      exists s',
        Send wire now Packet s = Done (true, s')
        /\ SequenceIndex s' = SequenceIndex s)
  /\ (In (opcode (Header Packet)) [ACK; HBT; RACK] ->
      exists s',
        HandleIncomingPacket cfg wire now Packet s = Done (tt, s')
        /\ SequenceIndex s' = SequenceIndex s)
  /\ (In (opcode (Header Packet)) [SYN; SYN_ACK] ->
      exists s',
        HandleIncomingPacket cfg wire now Packet s = Done (tt, s')
        /\ SequenceIndex s' = (SequenceIndex s + 1) mod MAX_ACK_VALUE)
  /\ (opcode (Header Packet) = FIN ->
      exists s',
        HandleIncomingPacket cfg wire now Packet s = Done (tt, s')
        /\ SequenceIndex s' =
           if state_eqb (State s) Closing then SequenceIndex s
           else (SequenceIndex s + 1) mod MAX_ACK_VALUE)
  /\ (opcode (Header Packet) = RST ->
      exists s',
        HandleIncomingPacket cfg wire now Packet s = Done (tt, s')
        /\ SequenceIndex s' = START_SEQUENCE_INDEX cfg).
Proof.
  repeat apply conj.
  - intros Hseq Hstate. rewrite (Send_sequenced wire now Packet s Hseq Hstate).
    eexists. split; [reflexivity|]. cbn. split; [|reflexivity].
    apply u32_mod_MAX_ACK_VALUE.
  - intros H. apply Send_not_queued_SequenceIndex.
    cbn in H. decompose [or] H; try contradiction;
      match goal with E : _ = opcode _ |- _ => rewrite <- E end; reflexivity.
  - intros H. rewrite HandleIncomingPacket_not_sequenced
      by (cbn in H; decompose [or] H; try contradiction;
          match goal with E : _ = opcode _ |- _ => rewrite <- E end; reflexivity).
    destruct (total_hoare
                (fun s0 => SequenceIndex s0 = SequenceIndex s)
                (ProcessPacket cfg wire now Packet)
                (fun _ s0 => SequenceIndex s0 = SequenceIndex s)
                (set_LastPacketRecievedTime now s)) as ([] & s' & E & Hs').
    + apply ProcessPacket_total. cbn in H. decompose [or] H; try contradiction;
        match goal with E : _ = opcode _ |- _ => rewrite <- E end; exact I.
    + apply ProcessPacket_SequenceIndex_kept. exact H.
    + reflexivity.
    + exists s'. split; assumption.
  - intros H. rewrite HandleIncomingPacket_not_sequenced
      by (cbn in H; decompose [or] H; try contradiction;
          match goal with E : _ = opcode _ |- _ => rewrite <- E end; reflexivity).
    destruct (total_hoare
                (fun s0 => SequenceIndex s0 = SequenceIndex s)
                (ProcessPacket cfg wire now Packet)
                (fun _ s0 => SequenceIndex s0 =
                   (SequenceIndex s + 1) mod MAX_ACK_VALUE)
                (set_LastPacketRecievedTime now s)) as ([] & s' & E & Hs').
    + apply ProcessPacket_total. cbn in H. decompose [or] H; try contradiction;
        match goal with E : _ = opcode _ |- _ => rewrite <- E end; exact I.
    + apply ProcessPacket_SequenceIndex_handshake. exact H.
    + reflexivity.
    + exists s'. split; assumption.
  - intros H. rewrite HandleIncomingPacket_not_sequenced by (rewrite H; reflexivity).
    unfold ProcessPacket. rewrite H.
    apply (Handle_FIN_SequenceIndex wire now Packet
             (set_LastPacketRecievedTime now s)).
  - intros H. rewrite HandleIncomingPacket_not_sequenced by (rewrite H; reflexivity).
    unfold ProcessPacket. rewrite H. apply Handle_RST_SequenceIndex.
Qed.

(** Non-sequenced opcodes can move the sequence index: on a freshly
    constructed stream, whose sequence index is 1, the arrival of a SYN_ACK
    packet leaves the sequence index at 2, although SYN_ACK is not a
    sequenced opcode. *)
Lemma SequenceIndex_incremented_by_SYN_ACK :
  IsOpcodeSequenced SYN_ACK = false
  /\ SequenceIndex sample_stream = 1
  /\ exists s',
       HandleIncomingPacket sample_config sample_wire 0
         (sample_packet SYN_ACK 1 1) sample_stream = Done (tt, s')
       /\ SequenceIndex s' = 2.
Proof.
  split; [reflexivity|]. split; [reflexivity|].
  eexists. split; [vm_compute; reflexivity|reflexivity].
Qed.

Lemma SequenceIndex_discipline_witness :
  exists s',
    Send sample_wire 0 (sample_packet DAT 0 0) sample_stream = Done (true, s')
    /\ SequenceIndex s' = (SequenceIndex sample_stream + 1) mod MAX_ACK_VALUE
    /\ SendQueue s' =
       SendQueue sample_stream ++ [set_SendTime 0 (sample_packet DAT 0 0)].
Proof.
  apply (SequenceIndex_discipline sample_config sample_wire 0
           (sample_packet DAT 0 0) sample_stream).
  - reflexivity.
  - discriminate.
Defined.

Lemma HandleIncomingPacket_sequenced_before_Established_witness :
  HandleIncomingPacket sample_config sample_wire 0 (sample_packet DAT 2 0)
    sample_stream
  = Done (tt, set_InErrorState true (set_LastPacketRecievedTime 0 sample_stream)).
Proof.
  apply (HandleIncomingPacket_sequenced_before_Established sample_config
           sample_wire 0 (sample_packet DAT 2 0) sample_stream).
  - reflexivity.
  - discriminate.
Defined.

Lemma ProcessPacket_updates_SequenceIndexAcked_witness :
  exists s',
    ProcessPacket sample_config sample_wire 0 (sample_packet ACK 0 7)
      sample_stream = Done (tt, s')
    /\ SequenceIndexAcked s' =
       spec_modular_max (SequenceIndexAcked sample_stream) 7.
Proof.
  apply (ProcessPacket_updates_SequenceIndexAcked sample_config sample_wire 0
           (sample_packet ACK 0 7) sample_stream).
  left. reflexivity.
Defined.

(** ** Malformed reliable headers *)

Lemma skipn_length_le {A} (n : nat) (l : list A) :
  (length (skipn n l) <= length l)%nat.
Proof. rewrite length_skipn. lia. Qed.

(** One turn of the first loop of [HandleIncoming] on a datagram that is
    shorter than the reliable header: the error flag is set (by the decoder
    and once more by the loop), [HandleIncomingPacket] is not called, and the
    loop goes on with the next datagram. *)
Lemma HandleIncoming_recieve_short cfg wire now fuel s d rest :
  Inbound (Udp s) = d :: rest ->
  (length (UdpPayload d) < sizeof_Frpg2ReliableUdpPacketHeader)%nat ->
  HandleIncoming_recieve cfg wire now (S fuel) s =
  HandleIncoming_recieve cfg wire now fuel
    (set_InErrorState true
       (set_InErrorState true
          (set_Udp (mkUdp rest (Sent (Udp s)) (SendFails (Udp s))
                          (PumpFatal (Udp s))) s))).
Proof.
  intros Hin Hlen. cbn [HandleIncoming_recieve].
  unfold bind at 1, get. unfold Frpg2UdpPacketStream_Recieve. rewrite Hin.
  unfold bind at 1, modify at 1.
  match goal with
  | |- bind (DecodeReliablePacket _ ?p _) _ _ = _ =>
      assert (Hp : (length (UdpPayload p) <? sizeof_Frpg2ReliableUdpPacketHeader)%nat
                   = true)
  end.
  { apply Nat.ltb_lt. destruct (_ && _); cbn [UdpPayload]; [|exact Hlen].
    eapply Nat.le_lt_trans; [apply skipn_length_le|exact Hlen]. }
  unfold bind at 1, DecodeReliablePacket. rewrite Hp.
  reflexivity.
Qed.

(** What the decoder does with every datagram.  A datagram whose payload is
    shorter than the 12-byte header marks the stream as being in the error
    state and no reliable packet is decoded from it: [DecodeReliablePacket]
    returns false with its output untouched, and the receiving loop skips the
    datagram without calling [HandleIncomingPacket].  A datagram of at least
    12 bytes is never rejected through the error flag: when its first two
    bytes are [0xF5 0x02] it is decoded, and when they are not, the only
    check is the [Ensure], which fails. *)
Theorem DecodeReliablePacket_malformed
  (cfg : BuildConfig) (wire : WireLayout) (now : Q) (fuel : nat)
  (Input : Frpg2UdpPacket) (Output : Frpg2ReliableUdpPacket)
  (rest : list Frpg2UdpPacket) (s : Frpg2ReliableUdpPacketStream) :
  ((length (UdpPayload Input) < 12)%nat ->
   DecodeReliablePacket wire Input Output s
   = Done ((false, Output), set_InErrorState true s)
   /\ (Inbound (Udp s) = Input :: rest ->
       HandleIncoming_recieve cfg wire now (S fuel) s =
       HandleIncoming_recieve cfg wire now fuel
         (set_InErrorState true
            (set_InErrorState true
               (set_Udp (mkUdp rest (Sent (Udp s)) (SendFails (Udp s))
                               (PumpFatal (Udp s))) s)))))
  /\ ((12 <= length (UdpPayload Input))%nat ->
      nth 0 (UdpPayload Input) x00 = xf5 ->
      nth 1 (UdpPayload Input) x00 = x02 ->
      DecodeReliablePacket wire Input Output s
      = Done ((true,
               mkPacket (HeaderOfBytes wire (firstn 12 (UdpPayload Input)))
                        (skipn 12 (UdpPayload Input)) (SendTime Output)), s))
  /\ ((12 <= length (UdpPayload Input))%nat ->
      nth 0 (UdpPayload Input) x00 <> xf5
      \/ nth 1 (UdpPayload Input) x00 <> x02 ->
      DecodeReliablePacket wire Input Output s = EnsureFailed).
Proof.
  repeat apply conj.
  - intros Hlen. split.
    + unfold DecodeReliablePacket, sizeof_Frpg2ReliableUdpPacketHeader.
      replace (length (UdpPayload Input) <? 12)%nat with true
        by (symmetry; apply Nat.ltb_lt; exact Hlen).
      reflexivity.
    + intros Hin.
      apply (HandleIncoming_recieve_short cfg wire now fuel s Input rest Hin Hlen).
  - intros Hlen H0 H1.
    unfold DecodeReliablePacket, sizeof_Frpg2ReliableUdpPacketHeader.
    replace (length (UdpPayload Input) <? 12)%nat with false
      by (symmetry; apply Nat.ltb_ge; exact Hlen).
    rewrite H0, H1. reflexivity.
  - intros Hlen Hbad.
    unfold DecodeReliablePacket, sizeof_Frpg2ReliableUdpPacketHeader.
    replace (length (UdpPayload Input) <? 12)%nat with false
      by (symmetry; apply Nat.ltb_ge; exact Hlen).
    unfold bind, Ensure.
    destruct (Byte.eqb (nth 0 (UdpPayload Input) x00) xf5) eqn:E0;
      [|reflexivity].
    destruct (Byte.eqb (nth 1 (UdpPayload Input) x00) x02) eqn:E1;
      [|reflexivity].
    apply Byte.byte_dec_bl in E0. apply Byte.byte_dec_bl in E1.
    destruct Hbad as [Hbad|Hbad]; contradiction.
Qed.

(** C7 (the code at the failing input).  A datagram of twelve bytes that
    starts with [0x00] instead of the magic bytes is not rejected: the
    decoder stops at the failed [Ensure], and so does the tick that receives
    the datagram; neither returns with the stream marked as being in the
    error state.  The size check of the same function does mark the stream
    and return false ([DecodeReliablePacket_malformed]). *)
Lemma bad_magic_not_marked_fatal :
  length (UdpPayload bad_magic_datagram) = 12%nat
  /\ nth 0 (UdpPayload bad_magic_datagram) x00 <> xf5
  /\ DecodeReliablePacket sample_wire bad_magic_datagram
       new_Frpg2ReliableUdpPacket sample_stream = EnsureFailed
  /\ Pump sample_config sample_wire 0
       (with_Inbound [bad_magic_datagram] sample_stream) = EnsureFailed
  /\ ~ (exists r s',
          DecodeReliablePacket sample_wire bad_magic_datagram
            new_Frpg2ReliableUdpPacket sample_stream = Done (r, s')
          /\ InErrorState s' = true)
  /\ ~ (exists r s',
          Pump sample_config sample_wire 0
            (with_Inbound [bad_magic_datagram] sample_stream) = Done (r, s')
          /\ InErrorState s' = true).
Proof.
  assert (E1 : DecodeReliablePacket sample_wire bad_magic_datagram
                 new_Frpg2ReliableUdpPacket sample_stream = EnsureFailed)
    by (vm_compute; reflexivity).
  assert (E2 : Pump sample_config sample_wire 0
                 (with_Inbound [bad_magic_datagram] sample_stream) = EnsureFailed)
    by (vm_compute; reflexivity).
  split; [reflexivity|]. split; [discriminate|].
  split; [exact E1|]. split; [exact E2|]. split.
  - intros (r & s' & E & _). rewrite E1 in E. discriminate E.
  - intros (r & s' & E & _). rewrite E2 in E. discriminate E.
Qed.

Lemma DecodeReliablePacket_malformed_witness :
  DecodeReliablePacket sample_wire (mkUdpPacket false 0 [xf5; x02])
    new_Frpg2ReliableUdpPacket sample_stream
  = Done ((false, new_Frpg2ReliableUdpPacket), set_InErrorState true sample_stream).
Proof.
  refine (proj1 (proj1 (DecodeReliablePacket_malformed sample_config sample_wire
                          0 0 (mkUdpPacket false 0 [xf5; x02])
                          new_Frpg2ReliableUdpPacket [] sample_stream) _)).
  cbn. lia.
Defined.

(** ** The retransmit buffer *)

Section InFlight.

Variable cfg : BuildConfig.
Variable wire : WireLayout.

Lemma filter_length_le {A} (f : A -> bool) (l : list A) :
  (length (filter f l) <= length l)%nat.
Proof.
  induction l as [|a l IH]; cbn; [lia|]. destruct (f a); cbn; lia.
Qed.

Lemma HandleOutgoing_send_bounded fuel :
  keeps (InFlightBounded cfg) (HandleOutgoing_send cfg wire fuel).
Proof.
  induction fuel as [|fuel IH]; cbn [HandleOutgoing_send]; [apply keeps_ret|].
  apply hoare_get_bind. intros s0.
  destruct (SendQueue s0) as [|Packet rest];
    [apply hoare_ret; intros s [Hs _]; exact Hs|].
  destruct (negb (IsRetransmitting s0)
            && (length (RetransmitBuffer s0) <? MAX_PACKETS_IN_FLIGHT cfg)%nat)
    eqn:Guard; [|apply hoare_ret; intros s [Hs _]; exact Hs].
  apply andb_prop in Guard. destruct Guard as [_ Guard].
  apply Nat.ltb_lt in Guard.
  eapply hoare_bind with (R := fun _ s => s = set_SendQueue rest s0);
    [apply hoare_modify; intros s [_ ->]; reflexivity|intros ?].
  eapply hoare_bind with (R := fun _ => InFlightBounded cfg).
  - apply hoare_modify. intros s ->. unfold InFlightBounded. cbn.
    rewrite length_app. cbn. lia.
  - intros ?. apply keeps_bind; [apply SendRaw_keeps; stable|intros ?; exact IH].
Qed.

Lemma HandleOutgoing_bounded now :
  keeps (InFlightBounded cfg) (HandleOutgoing cfg wire now).
Proof.
  unfold HandleOutgoing.
  apply keeps_bind.
  { apply keeps_modify. intros s Hs. unfold InFlightBounded in *. cbn.
    eapply Nat.le_trans; [apply filter_length_le|exact Hs]. }
  intros ?. apply keeps_get_bind. intros s0.
  apply keeps_bind.
  { destruct (negb (IsRetransmitting s0)).
    - apply HandleOutgoing_scan_keeps; stable.
    - destruct (_ || _); [apply keeps_modify; stable|].
      destruct (Qgtb _ _); [|apply keeps_ret].
      apply keeps_bind; [apply keeps_modify; stable|intros ?].
      apply keeps_bind; [apply SendRaw_keeps; stable|intros ?; apply keeps_ret]. }
  intros ?. apply keeps_get_bind. intros s1. apply HandleOutgoing_send_bounded.
Qed.

Lemma Reset_bounded s : InFlightBounded cfg (Reset cfg s).
Proof. unfold InFlightBounded. cbn. lia. Qed.

Lemma HandleIncoming_bounded now :
  keeps (InFlightBounded cfg) (HandleIncoming cfg wire now).
Proof. apply HandleIncoming_keeps; stable; apply Reset_bounded. Qed.

Lemma Pump_bounded now : keeps (InFlightBounded cfg) (Pump cfg wire now).
Proof.
  unfold Pump, Frpg2UdpPacketStream_Pump.
  apply keeps_get_bind. intros s0.
  apply keeps_bind.
  { destruct (_ && _); [apply keeps_modify; stable|apply keeps_ret]. }
  intros ?. apply keeps_get_bind. intros s1.
  destruct (state_eqb (State s1) Closed).
  { apply keeps_bind; [apply keeps_modify; intros; apply Reset_bounded|].
    intros ?. apply keeps_ret. }
  apply keeps_bind; [apply keeps_modify; stable|intros ?].
  destruct (PumpFatal (Udp s1)); [apply keeps_ret|].
  apply keeps_bind.
  { destruct (state_eqb (State s1) Connecting); [|apply keeps_ret].
    destruct (Qgtb _ _); [|apply keeps_ret].
    apply keeps_bind; [apply Send_SYN_keeps; stable|intros ?].
    apply keeps_modify; stable. }
  intros ?. apply keeps_get_bind. intros s2.
  destruct (_ && _).
  { apply keeps_bind; [apply keeps_modify; stable|intros ?; apply keeps_ret]. }
  apply keeps_bind; [apply HandleIncoming_bounded|intros ?].
  apply keeps_bind; [apply HandleOutgoing_bounded|intros ?; apply keeps_ret].
Qed.

Lemma run_bounded op : keeps (InFlightBounded cfg) (run cfg wire op).
Proof.
  destruct op; cbn [run].
  - apply keeps_bind; [apply Send_keeps; stable|intros ?; apply keeps_ret].
  - apply keeps_bind; [apply Recieve_keeps; stable|intros ?; apply keeps_ret].
  - apply Connect_keeps; stable.
  - apply Disconnect_keeps; stable.
  - apply keeps_bind; [apply Pump_bounded|intros ?; apply keeps_ret].
  - apply HandledPacket_keeps; stable.
  - apply HandleIncoming_bounded.
  - apply HandleOutgoing_bounded.
  - apply HandleIncomingPacket_keeps; stable; apply Reset_bounded.
  - apply ProcessPacket_keeps; stable; apply Reset_bounded.
  - apply keeps_modify. intros; apply Reset_bounded.
  - apply keeps_modify. stable.
Qed.

End InFlight.

(** C4.  In every state a stream can be in, that is, after its constructor and
    before and after every operation (send, receive, connect, disconnect,
    pump and its two halves, the processing of a received packet by any
    opcode handler, reset), the retransmit buffer holds at most
    [MAX_PACKETS_IN_FLIGHT] packets. *)
Theorem RetransmitBuffer_bounded
  (cfg : BuildConfig) (wire : WireLayout) (s : Frpg2ReliableUdpPacketStream) :
  Reachable cfg wire s ->
  (length (RetransmitBuffer s) <= MAX_PACKETS_IN_FLIGHT cfg)%nat.
Proof.
  intros H. induction H as [members|op s s' _ IH E].
  - apply Reset_bounded.
  - apply (keeps_done (InFlightBounded cfg) (run cfg wire op) s tt s'
             (run_bounded cfg wire op) IH E).
Qed.

Example sample_in_flight_RetransmitBuffer :
  map (fun p => local_ack (Header p)) (RetransmitBuffer sample_in_flight) = [0]
  /\ SendQueue sample_in_flight = [].
Proof. split; reflexivity. Qed.

(** With room for two packets in flight, three queued packets leave one in the
    send queue after a tick. *)
Example in_flight_cap_reached :
  let cfg := mkBuildConfig 1 2 (1 # 10) 1 (1 # 2) 1 5 30 Qminus in
  match (Send sample_wire 0 (sample_packet DAT 0 0) ;;
         Send sample_wire 0 (sample_packet DAT 0 0) ;;
         Send sample_wire 0 (sample_packet DAT 0 0) ;;
         Pump cfg sample_wire 0)
          (new_Frpg2ReliableUdpPacketStream cfg sample_members) with
  | Done (r, s) =>
      r = false /\ length (RetransmitBuffer s) = 2%nat
      /\ length (SendQueue s) = 1%nat
  | EnsureFailed => False
  end.
Proof. vm_compute. repeat split. Qed.

Lemma RetransmitBuffer_bounded_witness :
  (length (RetransmitBuffer sample_in_flight)
   <= MAX_PACKETS_IN_FLIGHT sample_config)%nat.
Proof.
  apply (RetransmitBuffer_bounded sample_config sample_wire).
  apply (Reachable_run sample_config sample_wire (Op_Pump 0)
           (match Send sample_wire 0 (sample_packet DAT 0 0) sample_stream with
            | Done (_, s) => s
            | EnsureFailed => sample_stream
            end)).
  - apply (Reachable_run sample_config sample_wire
             (Op_Send 0 (sample_packet DAT 0 0)) sample_stream).
    + apply Reachable_new.
    + vm_compute. reflexivity.
  - vm_compute. reflexivity.
Defined.

(** ** The result of a tick *)

Lemma bind_get {A} (k : Frpg2ReliableUdpPacketStream -> M A) s :
  bind get k s = k s s.
Proof. reflexivity. Qed.

Lemma bind_modify {A} f (k : unit -> M A) s : bind (modify f) k s = k tt (f s).
Proof. reflexivity. Qed.

Lemma bind_ret {A B} (a : A) (k : A -> M B) s : bind (ret a) k s = k a s.
Proof. reflexivity. Qed.



Lemma Pump_Closing_drained cfg wire now s :
  State s = Closing -> SendQueue s = [] ->
  Pump cfg wire now s = Done (true, Reset cfg (set_State Closed s)).
Proof.
  intros H Hq. unfold Pump. rewrite bind_get, H, Hq. reflexivity.
Qed.






(** A tick that delivers nothing and sends nothing returns false and leaves an
    Established stream Established. *)
Example Pump_Established_idle :
  exists s',
    Pump sample_config sample_wire 0 (set_State Established sample_stream)
    = Done (false, s')
    /\ State s' = Established.
Proof. eexists. split; [vm_compute; reflexivity|reflexivity]. Qed.

(** ** Packets that arrive out of order *)

Lemma Send_ACK_sent wire now RemoteIndex s :
  State s <> Closing -> SendFails (Udp s) = false ->
  Send_ACK wire now RemoteIndex s =
  Done (tt,
        set_LastAckSendTime now
          (set_RemoteSequenceIndexAcked RemoteIndex
             (set_Udp (mkUdp (Inbound (Udp s))
                             (Sent (Udp s) ++ [Encoded_ACK wire RemoteIndex])
                             (SendFails (Udp s)) (PumpFatal (Udp s))) s))).
Proof.
  intros Hstate Hsend.
  unfold Send_ACK, Send, SendRaw, EncodeReliablePacket,
    Frpg2UdpPacketStream_Send, bind, get, modify, ret, Ensure.
  replace (state_eqb (State s) Closing) with false
    by (destruct (State s); try reflexivity; contradiction Hstate; reflexivity).
  cbn. rewrite Hsend. cbn. reflexivity.
Qed.

Lemma HandleIncomingPacket_out_of_sequence cfg wire now Packet s :
  State s = Established ->
  IsOpcodeSequenced (opcode (Header Packet)) = true ->
  local_ack (Header Packet) <> GetNextRemoteSequenceIndex s ->
  HandleIncomingPacket cfg wire now Packet s =
  if Qgtb (double_minus cfg now (LastAckSendTime s))
         (MIN_TIME_BETWEEN_RESEND_ACK cfg)
  then Send_ACK wire now (RemoteSequenceIndexAcked s)
         (set_LastPacketRecievedTime now s)
  else Done (tt, set_LastPacketRecievedTime now s).
Proof.
  intros Hstate Hseq Hlocal.
  unfold HandleIncomingPacket, GetAckCounters. rewrite bind_modify, Hseq, bind_get.
  cbn [State set_LastPacketRecievedTime]. rewrite Hstate. cbn [state_eqb negb].
  replace (local_ack (Header Packet)
           =? GetNextRemoteSequenceIndex (set_LastPacketRecievedTime now s))
    with false by (symmetry; apply Z.eqb_neq; exact Hlocal).
  cbn [negb].
  destruct (GetPacketIndexByLocalSequence _ _ >=? 0); cbn [andb negb];
    cbn [LastAckSendTime RemoteSequenceIndexAcked set_LastPacketRecievedTime];
    destruct (Qgtb _ _); reflexivity.
Qed.

Lemma HandleIncomingPacket_in_sequence cfg wire now Packet s :
  State s = Established ->
  IsOpcodeSequenced (opcode (Header Packet)) = true ->
  local_ack (Header Packet) = GetNextRemoteSequenceIndex s ->
  PendingRecieveQueue s = [] ->
  HandleIncomingPacket cfg wire now Packet s =
  Done (tt, set_PendingRecieveQueue [Packet] (set_LastPacketRecievedTime now s)).
Proof.
  intros Hstate Hseq Hlocal Hpending.
  unfold HandleIncomingPacket, GetAckCounters. rewrite bind_modify, Hseq, bind_get.
  cbn [State set_LastPacketRecievedTime]. rewrite Hstate. cbn [state_eqb negb].
  replace (local_ack (Header Packet)
           =? GetNextRemoteSequenceIndex (set_LastPacketRecievedTime now s))
    with true by (symmetry; apply Z.eqb_eq; exact Hlocal).
  cbn [negb PendingRecieveQueue set_LastPacketRecievedTime]. rewrite Hpending.
  unfold GetPacketIndexByLocalSequence. cbn [GetPacketIndexByLocalSequence_from].
  change (-1 >=? 0) with false. cbn [andb negb]. unfold modify.
  cbn [PendingRecieveQueue set_LastPacketRecievedTime]. rewrite Hpending.
  reflexivity.
Qed.

Lemma DecodeReliablePacket_decoded wire Input Output s :
  (12 <= length (UdpPayload Input))%nat ->
  nth 0 (UdpPayload Input) x00 = xf5 ->
  nth 1 (UdpPayload Input) x00 = x02 ->
  DecodeReliablePacket wire Input Output s
  = Done ((true,
           mkPacket (HeaderOfBytes wire (firstn 12 (UdpPayload Input)))
                    (skipn 12 (UdpPayload Input)) (SendTime Output)), s).
Proof.
  intros Hlen H0 H1.
  unfold DecodeReliablePacket, sizeof_Frpg2ReliableUdpPacketHeader.
  replace (length (UdpPayload Input) <? 12)%nat with false
    by (symmetry; apply Nat.ltb_ge; exact Hlen).
  rewrite H0, H1. reflexivity.
Qed.

Lemma bind_ret_tt (m : M unit) s : bind m (fun _ => ret tt) s = m s.
Proof. unfold bind. destruct (m s) as [[[] s']|]; reflexivity. Qed.

Lemma HandleIncoming_single cfg wire now s d p :
  Inbound (Udp s) = [d] -> Decodes wire d p ->
  HandleIncoming cfg wire now s =
  (HandleIncomingPacket cfg wire now p ;;
   s <- get ;;
   HandleIncoming_pending cfg wire now (length (PendingRecieveQueue s)))
    (Inbound_taken s).
Proof.
  intros Hin (Hlen & H0 & H1 & ->).
  unfold HandleIncoming. rewrite bind_get, Hin. cbn [length].
  unfold bind at 1. unfold bind at 3.
  replace (HandleIncoming_recieve cfg wire now 1 s)
    with (HandleIncomingPacket cfg wire now
            (mkPacket (HeaderOfBytes wire (firstn 12 (UdpPayload d)))
                      (skipn 12 (UdpPayload d)) 0) (Inbound_taken s));
    [reflexivity|].
  cbn [HandleIncoming_recieve]. rewrite bind_get.
  unfold Frpg2UdpPacketStream_Recieve. rewrite Hin, bind_modify.
  rewrite H0. cbn [Byte.eqb].
  replace (_ && negb (Byte.eqb xf5 xf5) && _) with false
    by (destruct (_ <? _)%nat; reflexivity).
  fold (Inbound_taken s). unfold bind at 1.
  rewrite (DecodeReliablePacket_decoded wire d new_Frpg2ReliableUdpPacket
             (Inbound_taken s) Hlen H0 H1).
  cbn [negb SendTime new_Frpg2ReliableUdpPacket]. rewrite bind_ret_tt. reflexivity.
Qed.

(** The head of the pending queue is the next DAT packet: it is handed to
    [Handle_DAT], acknowledged, and the remote sequence index advances. *)
Lemma HandleIncoming_pending_DAT cfg wire now Packet s :
  State s = Established -> SendFails (Udp s) = false ->
  PendingRecieveQueue s = [Packet] ->
  opcode (Header Packet) = DAT ->
  local_ack (Header Packet) = GetNextRemoteSequenceIndex s ->
  exists s',
    HandleIncoming_pending cfg wire now 1 s = Done (tt, s')
    /\ RecieveQueue s' = RecieveQueue s ++ [Packet]
    /\ PendingRecieveQueue s' = []
    /\ RemoteSequenceIndex s' = GetNextRemoteSequenceIndex s
    /\ RemoteSequenceIndexAcked s' = local_ack (Header Packet)
    /\ State s' = Established
    /\ SendFails (Udp s') = false
    /\ Inbound (Udp s') = Inbound (Udp s)
    /\ Sent (Udp s') =
       Sent (Udp s) ++ [Encoded_ACK wire (local_ack (Header Packet))].
Proof.
  intros Hstate Hsend Hpending Hop Hlocal.
  cbn [HandleIncoming_pending]. rewrite bind_get, Hpending.
  unfold GetAckCounters.
  replace (local_ack (Header Packet) =? GetNextRemoteSequenceIndex s) with true
    by (symmetry; apply Z.eqb_eq; exact Hlocal).
  unfold ProcessPacket. rewrite Hop. unfold Handle_DAT, GetAckCounters.
  unfold bind at 1. unfold bind at 1. unfold modify at 1. cbv beta iota.
  rewrite bind_modify.
  rewrite Send_ACK_sent by (cbn; congruence).
  cbv beta iota. rewrite bind_modify, bind_modify. unfold ret.
  eexists. split; [reflexivity|]. cbn.
  rewrite Hpending, Hsend. repeat split; try assumption.
Qed.



Lemma HandleIncoming_out_of_sequence cfg wire now s d p :
  State s = Established -> SendFails (Udp s) = false ->
  PendingRecieveQueue s = [] ->
  Inbound (Udp s) = [d] -> Decodes wire d p ->
  IsOpcodeSequenced (opcode (Header p)) = true ->
  local_ack (Header p) <> GetNextRemoteSequenceIndex s ->
  exists s',
    HandleIncoming cfg wire now s = Done (tt, s')
    /\ RecieveQueue s' = RecieveQueue s
    /\ PendingRecieveQueue s' = []
    /\ RemoteSequenceIndex s' = RemoteSequenceIndex s
    /\ State s' = Established
    /\ SendFails (Udp s') = false
    /\ Sent (Udp s') =
       Sent (Udp s)
       ++ (if Qgtb (double_minus cfg now (LastAckSendTime s))
              (MIN_TIME_BETWEEN_RESEND_ACK cfg)
           then [Encoded_ACK wire (RemoteSequenceIndexAcked s)] else []).
Proof.
  intros Hstate Hsend Hpending Hin Hd Hseq Hlocal.
  rewrite (HandleIncoming_single cfg wire now s d p Hin Hd).
  unfold bind at 1.
  rewrite HandleIncomingPacket_out_of_sequence by assumption.
  cbn [LastAckSendTime Inbound_taken set_Udp].
  destruct (Qgtb _ _).
  - rewrite Send_ACK_sent by (cbn; congruence).
    rewrite bind_get. cbn. rewrite Hpending. cbn.
    eexists. split; [reflexivity|]. cbn. rewrite Hsend. repeat split; assumption.
  - rewrite bind_get. cbn. rewrite Hpending. cbn.
    eexists. split; [reflexivity|]. cbn. rewrite app_nil_r.
    repeat split; assumption.
Qed.

Lemma HandleIncoming_in_sequence cfg wire now s d p :
  State s = Established -> SendFails (Udp s) = false ->
  PendingRecieveQueue s = [] ->
  Inbound (Udp s) = [d] -> Decodes wire d p ->
  opcode (Header p) = DAT ->
  local_ack (Header p) = GetNextRemoteSequenceIndex s ->
  exists s',
    HandleIncoming cfg wire now s = Done (tt, s')
    /\ RecieveQueue s' = RecieveQueue s ++ [p]
    /\ PendingRecieveQueue s' = []
    /\ RemoteSequenceIndex s' = GetNextRemoteSequenceIndex s
    /\ State s' = Established
    /\ SendFails (Udp s') = false
    /\ Sent (Udp s') = Sent (Udp s) ++ [Encoded_ACK wire (local_ack (Header p))].
Proof.
  intros Hstate Hsend Hpending Hin Hd Hop Hlocal.
  rewrite (HandleIncoming_single cfg wire now s d p Hin Hd).
  unfold bind at 1.
  rewrite HandleIncomingPacket_in_sequence;
    [|assumption|rewrite Hop; reflexivity|assumption|assumption].
  rewrite bind_get. cbn [PendingRecieveQueue set_PendingRecieveQueue length].
  destruct (HandleIncoming_pending_DAT cfg wire now p
              (set_PendingRecieveQueue [p]
                 (set_LastPacketRecievedTime now (Inbound_taken s))))
    as (s' & E & Hrq & Hpq & Hrsi & _ & Hst & Hsf & _ & Hsent);
    try assumption; try reflexivity.
  exists s'. split; [exact E|]. repeat split; assumption.
Qed.

Lemma successor_differs x :
  0 <= x < MAX_ACK_VALUE -> (x + 1) mod MAX_ACK_VALUE <> x.
Proof.
  unfold MAX_ACK_VALUE. intros Hx.
  destruct (Z.eq_dec x (2 ^ 24 - 1)) as [->|Hne].
  - cbn. discriminate.
  - rewrite Z.mod_small by lia. lia.
Qed.

Lemma second_successor_differs x :
  0 <= x < MAX_ACK_VALUE ->
  ((x + 1) mod MAX_ACK_VALUE + 1) mod MAX_ACK_VALUE <> x.
Proof.
  unfold MAX_ACK_VALUE. intros Hx.
  destruct (Z.eq_dec x (2 ^ 24 - 1)) as [->|Hne1]; [cbn; discriminate|].
  destruct (Z.eq_dec x (2 ^ 24 - 2)) as [->|Hne2]; [cbn; discriminate|].
  rewrite (Z.mod_small (x + 1)) by lia. rewrite Z.mod_small by lia. lia.
Qed.

Lemma GetNextRemoteSequenceIndex_range s :
  0 <= GetNextRemoteSequenceIndex s < MAX_ACK_VALUE.
Proof.
  unfold GetNextRemoteSequenceIndex. apply Z.mod_pos_bound. reflexivity.
Qed.

(** C1 (as the code has it).  On an Established stream with an empty pending
    queue, a DAT packet that arrives ahead of the next expected remote
    sequence index is discarded, not buffered: the receive queue and the
    pending queue are as before.  The arrival causes no acknowledgement of
    its own: the only datagram it can cause is a repeated ACK that carries
    [RemoteSequenceIndexAcked], the sequence the stream acknowledged last,
    sent when more than [MIN_TIME_BETWEEN_RESEND_ACK] has passed since the
    last ACK and not otherwise.  That sequence is read from the stream, not
    from the packet; it is the last sequence received in order, and so not
    the sequence of the early packet, whenever the last acknowledgement of
    the stream was for the last packet it received in order.  When the
    expected packet then arrives it is delivered alone and acknowledged.
    The early packet is delivered, after the expected one, only once the peer
    has sent it again, so that the receive queue holds the packets in the
    order the peer sent them. *)
Theorem reordered_DAT_is_dropped_then_resent
  (cfg : BuildConfig) (wire : WireLayout) (now1 now2 now3 : Q)
  (s : Frpg2ReliableUdpPacketStream)
  (d_next d_ahead : Frpg2UdpPacket) (p_next p_ahead : Frpg2ReliableUdpPacket) :
  State s = Established ->
  SendFails (Udp s) = false ->
  PendingRecieveQueue s = [] ->
  Decodes wire d_next p_next ->
  Decodes wire d_ahead p_ahead ->
  opcode (Header p_next) = DAT ->
  opcode (Header p_ahead) = DAT ->
  local_ack (Header p_next) = GetNextRemoteSequenceIndex s ->
  local_ack (Header p_ahead) = (local_ack (Header p_next) + 1) mod MAX_ACK_VALUE ->
  exists s1 s2 s3,
    HandleIncoming cfg wire now1 (with_Inbound [d_ahead] s) = Done (tt, s1)
    /\ RecieveQueue s1 = RecieveQueue s
    /\ PendingRecieveQueue s1 = []
    /\ Sent (Udp s1) =
       Sent (Udp s)
       ++ (if Qgtb (double_minus cfg now1 (LastAckSendTime s))
              (MIN_TIME_BETWEEN_RESEND_ACK cfg)
           then [Encoded_ACK wire (RemoteSequenceIndexAcked s)] else [])
    /\ HandleIncoming cfg wire now2 (with_Inbound [d_next] s1) = Done (tt, s2)
    /\ RecieveQueue s2 = RecieveQueue s ++ [p_next]
    /\ PendingRecieveQueue s2 = []
    /\ Sent (Udp s2) =
       Sent (Udp s1) ++ [Encoded_ACK wire (local_ack (Header p_next))]
    /\ HandleIncoming cfg wire now3 (with_Inbound [d_ahead] s2) = Done (tt, s3)
    /\ RecieveQueue s3 = RecieveQueue s ++ [p_next; p_ahead]
    /\ (RemoteSequenceIndexAcked s = RemoteSequenceIndex s ->
        0 <= RemoteSequenceIndex s < MAX_ACK_VALUE ->
        RemoteSequenceIndexAcked s <> local_ack (Header p_ahead)).
Proof.
  intros Hstate Hsend Hpending Hdn Hda Hopn Hopa Hnext Hahead.
  destruct (HandleIncoming_out_of_sequence cfg wire now1
              (with_Inbound [d_ahead] s) d_ahead p_ahead)
    as (s1 & E1 & Hrq1 & Hpq1 & Hrsi1 & Hst1 & Hsf1 & Hsent1);
    try assumption; try reflexivity.
  { rewrite Hopa. reflexivity. }
  { change (GetNextRemoteSequenceIndex (with_Inbound [d_ahead] s))
      with (GetNextRemoteSequenceIndex s).
    rewrite Hahead, Hnext. apply successor_differs.
    apply GetNextRemoteSequenceIndex_range. }
  destruct (HandleIncoming_in_sequence cfg wire now2
              (with_Inbound [d_next] s1) d_next p_next)
    as (s2 & E2 & Hrq2 & Hpq2 & Hrsi2 & Hst2 & Hsf2 & Hsent2);
    try assumption; try reflexivity.
  { change (GetNextRemoteSequenceIndex (with_Inbound [d_next] s1))
      with (u32 (RemoteSequenceIndex s1 + 1) mod MAX_ACK_VALUE).
    rewrite Hrsi1. exact Hnext. }
  destruct (HandleIncoming_in_sequence cfg wire now3
              (with_Inbound [d_ahead] s2) d_ahead p_ahead)
    as (s3 & E3 & Hrq3 & _);
    try assumption; try reflexivity.
  { change (GetNextRemoteSequenceIndex (with_Inbound [d_ahead] s2))
      with (u32 (RemoteSequenceIndex s2 + 1) mod MAX_ACK_VALUE).
    rewrite Hrsi2.
    change (GetNextRemoteSequenceIndex (with_Inbound [d_next] s1))
      with (u32 (RemoteSequenceIndex s1 + 1) mod MAX_ACK_VALUE).
    rewrite Hrsi1.
    change (u32 (RemoteSequenceIndex (with_Inbound [d_ahead] s) + 1)
            mod MAX_ACK_VALUE) with (GetNextRemoteSequenceIndex s).
    rewrite <- Hnext.
    rewrite u32_mod_MAX_ACK_VALUE. exact Hahead. }
  exists s1, s2, s3.
  cbn in Hrq1, Hsent1, Hrq2, Hsent2, Hrq3.
  repeat split; try assumption.
  - rewrite Hrq2, Hrq1. reflexivity.
  - rewrite Hrq3, Hrq2, Hrq1, <- app_assoc. reflexivity.
  - intros Hlast Hrange Hsame.
    rewrite Hahead, Hnext, Hlast in Hsame.
    unfold GetNextRemoteSequenceIndex in Hsame.
    rewrite u32_mod_MAX_ACK_VALUE in Hsame.
    symmetry in Hsame. revert Hsame. apply second_successor_differs.
    exact Hrange.
Qed.

Example sample_established_state :
  State sample_established = Established
  /\ RemoteSequenceIndex sample_established = 1
  /\ RemoteSequenceIndexAcked sample_established = 1
  /\ PendingRecieveQueue sample_established = []
  /\ RecieveQueue sample_established = []
  /\ InErrorState sample_established = false.
Proof. repeat apply conj; vm_compute; reflexivity. Qed.

(** A packet that arrives early is not kept.  The peer's DAT with local
    index 3 arrives one second after the handshake, before the DAT with local
    index 2.  The tick that receives it delivers nothing and keeps nothing; the tick
    that receives the DAT with local index 2 delivers that packet.  After both
    have arrived [Recieve] yields the packet with local index 2 and nothing
    else, and both queues are empty: the packet with local index 3 is gone. *)
Lemma reordered_DAT_is_lost :
  let s1 :=
    stream_after
      (Pump sample_config sample_wire 1
         (with_Inbound [sample_datagram DAT 3 0] sample_established)) in
  let s2 :=
    stream_after
      (Pump sample_config sample_wire 2
         (with_Inbound [sample_datagram DAT 2 0] s1)) in
  Pump sample_config sample_wire 1
    (with_Inbound [sample_datagram DAT 3 0] sample_established) = Done (false, s1)
  /\ RecieveQueue s1 = [] /\ PendingRecieveQueue s1 = []
  /\ Pump sample_config sample_wire 2
       (with_Inbound [sample_datagram DAT 2 0] s1) = Done (false, s2)
  /\ Recieve_all 3 s2
     = Done ([sample_packet DAT 2 0], set_RecieveQueue [] s2)
  /\ PendingRecieveQueue s2 = [].
Proof.
  cbv zeta. repeat apply conj; vm_compute; reflexivity.
Qed.

(** When the early packet arrives within [MIN_TIME_BETWEEN_RESEND_ACK] of the
    last ACK, the tick sends nothing at all. *)
Example reordered_DAT_soon_after_ACK :
  let s1 :=
    stream_after
      (Pump sample_config sample_wire (1 # 20)
         (with_Inbound [sample_datagram DAT 3 0] sample_established)) in
  Sent (Udp s1) = Sent (Udp sample_established)
  /\ RecieveQueue s1 = [] /\ PendingRecieveQueue s1 = [].
Proof. cbv zeta. repeat apply conj; vm_compute; reflexivity. Qed.

(** The same when both datagrams are read in one tick, the early one first. *)
Example reordered_DAT_same_tick :
  let s1 :=
    stream_after
      (Pump sample_config sample_wire 1
         (with_Inbound [sample_datagram DAT 3 0; sample_datagram DAT 2 0]
                       sample_established)) in
  RecieveQueue s1 = [sample_packet DAT 2 0] /\ PendingRecieveQueue s1 = [].
Proof. cbv zeta. repeat apply conj; vm_compute; reflexivity. Qed.

Lemma reordered_DAT_is_dropped_then_resent_witness :
  exists s1 s2 s3,
    HandleIncoming sample_config sample_wire 1
      (with_Inbound [sample_datagram DAT 3 0] sample_established) = Done (tt, s1)
    /\ RecieveQueue s1 = RecieveQueue sample_established
    /\ PendingRecieveQueue s1 = []
    /\ Sent (Udp s1) =
       Sent (Udp sample_established)
       ++ (if Qgtb (double_minus sample_config 1 (LastAckSendTime sample_established))
                   (MIN_TIME_BETWEEN_RESEND_ACK sample_config)
           then [Encoded_ACK sample_wire
                   (RemoteSequenceIndexAcked sample_established)]
           else [])
    /\ HandleIncoming sample_config sample_wire 2
         (with_Inbound [sample_datagram DAT 2 0] s1) = Done (tt, s2)
    /\ RecieveQueue s2 =
       RecieveQueue sample_established ++ [sample_packet DAT 2 0]
    /\ PendingRecieveQueue s2 = []
    /\ Sent (Udp s2) =
       Sent (Udp s1)
       ++ [Encoded_ACK sample_wire (local_ack (Header (sample_packet DAT 2 0)))]
    /\ HandleIncoming sample_config sample_wire 3
         (with_Inbound [sample_datagram DAT 3 0] s2) = Done (tt, s3)
    /\ RecieveQueue s3 =
       RecieveQueue sample_established
       ++ [sample_packet DAT 2 0; sample_packet DAT 3 0]
    /\ (RemoteSequenceIndexAcked sample_established
        = RemoteSequenceIndex sample_established ->
        0 <= RemoteSequenceIndex sample_established < MAX_ACK_VALUE ->
        RemoteSequenceIndexAcked sample_established
        <> local_ack (Header (sample_packet DAT 3 0))).
Proof.
  refine (reordered_DAT_is_dropped_then_resent sample_config sample_wire 1 2 3
            sample_established (sample_datagram DAT 2 0) (sample_datagram DAT 3 0)
            (sample_packet DAT 2 0) (sample_packet DAT 3 0) _ _ _ _ _ _ _ _ _);
    try (vm_compute; reflexivity);
    (split; [cbn; lia|repeat split]).
Defined.

(** The repeated ACK carries what the stream acknowledged last, whatever that
    is: when [HandledPacket] has acknowledged the sequence 3 beforehand, the
    early packet with sequence 3 is still discarded, and the ACK repeated on
    its arrival carries 3. *)
Example early_packet_after_HandledPacket :
  let s0 :=
    match HandledPacket sample_wire 0 3 sample_established with
    | Done (_, s) => s
    | EnsureFailed => sample_stream
    end in
  let s1 :=
    match HandleIncoming sample_config sample_wire 1
            (with_Inbound [sample_datagram DAT 3 0] s0) with
    | Done (_, s) => s
    | EnsureFailed => sample_stream
    end in
  RemoteSequenceIndex s0 = 1
  /\ RemoteSequenceIndexAcked s0 = 3
  /\ HandleIncoming sample_config sample_wire 1
       (with_Inbound [sample_datagram DAT 3 0] s0) = Done (tt, s1)
  /\ RecieveQueue s1 = []
  /\ PendingRecieveQueue s1 = []
  /\ Sent (Udp s1) = Sent (Udp s0) ++ [Encoded_ACK sample_wire 3].
Proof. cbv zeta. repeat apply conj; vm_compute; reflexivity. Qed.

(** ** The supervisor *)

Lemma Poll_timed_out cfg now c :
  (CLIENT_TIMEOUT cfg <= double_minus cfg now (LastMessageRecievedTime c))%Q ->
  Poll cfg now c = (true, c, []).
Proof.
  intros H. unfold Poll, Qgeb.
  apply Qle_bool_iff in H. rewrite H. reflexivity.
Qed.

(** C8.  When the time since [LastMessageRecievedTime] is at least
    [CLIENT_TIMEOUT], [Poll] returns true, and it does so at once: it calls
    neither the connection nor the message stream (the list of calls is
    empty) and leaves the client as it was.  The time since the last message
    is the difference of the two clock readings as the machine computes it,
    whatever its rounding. *)
Theorem Poll_timeout_first
  (cfg : BuildConfig) (now : Q) (c : GameClient) :
  (CLIENT_TIMEOUT cfg <= double_minus cfg now (LastMessageRecievedTime c))%Q ->
  Poll cfg now c = (true, c, []).
Proof.
  intros H. unfold Poll.
  replace (Qgeb (double_minus cfg now (LastMessageRecievedTime c))
         (CLIENT_TIMEOUT cfg)) with true.
  - reflexivity.
  - symmetry. unfold Qgeb. apply Qle_bool_iff. exact H.
Qed.

Lemma Poll_timeout_first_witness :
  Poll sample_config 31
    (new_GameClient 1 (mkGameService []) (mkNetConnection false true)
                    (mkUdp [sample_datagram HBT 0 0] [] false false))
  = (true,
     new_GameClient 1 (mkGameService []) (mkNetConnection false true)
                    (mkUdp [sample_datagram HBT 0 0] [] false false),
     []).
Proof.
  apply (Poll_timeout_first sample_config 31).
  unfold Qle. cbn. lia.
Defined.

(** The timeout test reads the difference the machine computes.  A client
    constructed when the clock reads [2^-60] and polled when it reads 30 has
    waited less than 30 seconds; on a machine that rounds the difference to
    30, [Poll] reports the timeout. *)
Example Poll_rounded_difference :
  let c :=
    new_GameClient (1 # 2 ^ 60) (mkGameService []) (mkNetConnection false true)
                   (mkUdp [] [] false false) in
  (30 - LastMessageRecievedTime c < CLIENT_TIMEOUT sample_rounding_config)%Q
  /\ Poll sample_rounding_config 30 c = (true, c, [])
  /\ fst (fst (Poll sample_config 30 c)) = false.
Proof. cbv zeta. repeat apply conj; vm_compute; reflexivity. Qed.

(** Before the timeout the same client is polled through: the connection and
    the stream are pumped and the waiting datagram is read. *)
Example Poll_before_timeout :
  Poll sample_config 2
    (new_GameClient 1 (mkGameService []) (mkNetConnection false true)
                    (mkUdp [sample_datagram HBT 0 0] [] false false))
  = (false,
     mkGameClient (mkGameService [0]) (mkNetConnection false true)
                  (mkUdp [] [] false false) 1,
     [Connection_Pump; Connection_IsConnected; MessageStream_Pump;
      MessageStream_Recieve; Service_RefreshAuthToken 0; MessageStream_Recieve]).
Proof. vm_compute. reflexivity. Qed.

Lemma Poll_process_LastMessageRecievedTime fuel c :
  LastMessageRecievedTime (fst (Poll_process fuel c)) = LastMessageRecievedTime c.
Proof.
  revert c. induction fuel as [|fuel IH]; intros c; cbn [Poll_process];
    [reflexivity|].
  unfold Frpg2UdpPacketStream_Recieve.
  destruct (Inbound (MessageStream c)) as [|Packet rest]; [reflexivity|].
  match goal with
  | |- context [Poll_process fuel ?c'] =>
      specialize (IH c'); destruct (Poll_process fuel c') as [c'' calls]
  end.
  exact IH.
Qed.

Lemma Poll_LastMessageRecievedTime cfg now c :
  LastMessageRecievedTime (snd (fst (Poll cfg now c))) = LastMessageRecievedTime c.
Proof.
  unfold Poll, Frpg2UdpPacketStream_Pump.
  destruct (Qgeb _ _); [reflexivity|].
  destruct (ConnectionPumpError _); [reflexivity|].
  destruct (negb _); [reflexivity|].
  destruct (PumpFatal _); [reflexivity|].
  match goal with
  | |- context [Poll_process ?n ?c'] =>
      pose proof (Poll_process_LastMessageRecievedTime n c') as H;
      destruct (Poll_process n c') as [c'' calls]
  end.
  exact H.
Qed.

(** C9.  [LastMessageRecievedTime] is set by the constructor and by nothing
    else: after any number of polls and any inbound traffic it still holds
    the time of construction.  So every [Poll] made when at least
    [CLIENT_TIMEOUT] has passed since construction (the difference of the two
    clock readings as the machine computes it, whatever its rounding) returns
    true, whatever has arrived in between. *)
Theorem Poll_times_out_after_construction
  (cfg : BuildConfig) (t0 now : Q) (c : GameClient) :
  ClientHistory cfg t0 c ->
  (CLIENT_TIMEOUT cfg <= double_minus cfg now t0)%Q ->
  LastMessageRecievedTime c = t0
  /\ Poll cfg now c = (true, c, []).
Proof.
  intros H Hnow.
  assert (Ht : LastMessageRecievedTime c = t0).
  { induction H as [svc conn stream|now' c H IH|c svc conn stream H IH].
    - reflexivity.
    - rewrite Poll_LastMessageRecievedTime. exact IH.
    - exact IH. }
  split; [exact Ht|].
  apply Poll_timed_out. rewrite Ht. exact Hnow.
Qed.

Lemma Poll_times_out_after_construction_witness :
  let c :=
    snd (fst (Poll sample_config 2
                (new_GameClient 1 (mkGameService []) (mkNetConnection false true)
                   (mkUdp [sample_datagram HBT 0 0] [] false false)))) in
  LastMessageRecievedTime c = 1%Q /\ Poll sample_config 31 c = (true, c, []).
Proof.
  apply (Poll_times_out_after_construction sample_config 1 31).
  - apply History_Poll. apply History_new.
  - unfold Qle. cbn. lia.
Defined.

(** ** The cipher *)

Section CWCProperties.

Variable cwc_ctx : Type.
Variable RETURN_ERROR : Z.
Variable cwc_decrypt_message :
  list byte -> nat -> list byte -> nat -> list byte -> nat -> list byte -> nat ->
  cwc_ctx -> Z * list byte * cwc_ctx.

(** C10.  [Decrypt] fails on every input shorter than 11 + 16 + 1 bytes and
    leaves its output untouched.  On a longer input it takes the first 11
    bytes as the IV, the next 16 as the tag and the rest as the ciphertext,
    hands them to the CWC primitive, and fails exactly when the primitive
    reports an error; otherwise it returns true with the decrypted rest of
    the input as its output. *)
Theorem Decrypt_result
  (Input Output : list byte) (c : CWCCipher cwc_ctx) :
  ((length Input < 11 + 16 + 1)%nat ->
   Decrypt RETURN_ERROR cwc_decrypt_message Input Output c = (false, Output, c))
  /\ ((11 + 16 + 1 <= length Input)%nat ->
      let IV := firstn 11 Input in
      let Tag := firstn 16 (skipn 11 Input) in
      let Ciphertext := skipn (11 + 16) Input in
      let result :=
        cwc_decrypt_message IV 11%nat IV 11%nat Ciphertext (length Ciphertext)
                            Tag 16%nat (CwcContext c) in
      let code := fst (fst result) in
      let Plaintext := snd (fst result) in
      Decrypt RETURN_ERROR cwc_decrypt_message Input Output c
      = (negb (code =? RETURN_ERROR), Plaintext, mkCWCCipher (Key c) (snd result))
      /\ (fst (fst (Decrypt RETURN_ERROR cwc_decrypt_message Input Output c))
          = false <-> code = RETURN_ERROR)).
Proof.
  split.
  - intros H. unfold Decrypt.
    replace (length Input <? 11 + 16 + 1)%nat with true
      by (symmetry; apply Nat.ltb_lt; exact H).
    reflexivity.
  - intros H IV Tag Ciphertext result code Plaintext.
    assert (E : Decrypt RETURN_ERROR cwc_decrypt_message Input Output c
                = (negb (code =? RETURN_ERROR), Plaintext,
                   mkCWCCipher (Key c) (snd result))).
    { unfold Decrypt.
      replace (length Input <? 11 + 16 + 1)%nat with false
        by (symmetry; apply Nat.ltb_ge; exact H).
      replace (firstn (length Input - 11 - 16) (skipn (11 + 16) Input))
        with Ciphertext.
      2:{ subst Ciphertext. symmetry. apply firstn_all2.
          rewrite length_skipn. lia. }
      fold IV. fold Tag. fold result.
      subst code Plaintext. destruct result as [[code' out] ctx]. cbn [fst snd].
      destruct (code' =? RETURN_ERROR); reflexivity. }
    split; [exact E|]. rewrite E. cbn [fst].
    rewrite negb_false_iff. apply Z.eqb_eq.
Qed.

End CWCProperties.

Lemma Decrypt_result_witness :
  Decrypt (-1) toy_cwc_decrypt_message (repeat x01 27) [x07] (mkCWCCipher [] tt)
  = (false, [x07], mkCWCCipher [] tt).
Proof.
  refine (proj1 (Decrypt_result unit (-1) toy_cwc_decrypt_message
                   (repeat x01 27) [x07] (mkCWCCipher [] tt)) _).
  cbn. lia.
Defined.

Example Decrypt_accepts :
  Decrypt (-1) toy_cwc_decrypt_message (repeat x01 27 ++ [x41; x42]) []
          (mkCWCCipher [] tt)
  = (true, [x41; x42], mkCWCCipher [] tt).
Proof. vm_compute. reflexivity. Qed.

Example Decrypt_rejects_tag :
  Decrypt (-1) toy_cwc_decrypt_message (repeat x02 27 ++ [x41; x42]) []
          (mkCWCCipher [] tt)
  = (false, [x41; x42], mkCWCCipher [] tt).
Proof. vm_compute. reflexivity. Qed.

(** * Further properties *)

(** ** Looking a packet up by its local sequence index *)

Lemma GetPacketIndexByLocalSequence_from_spec Queue key i0 :
  0 <= i0 ->
  let i := GetPacketIndexByLocalSequence_from i0 Queue key in
  (i = -1 /\ forall p, In p Queue -> local_ack (Header p) <> key)
  \/ (i0 <= i < i0 + Z.of_nat (length Queue)
      /\ (exists p, nth_error Queue (Z.to_nat (i - i0)) = Some p
                    /\ local_ack (Header p) = key)
      /\ forall j p, (j < Z.to_nat (i - i0))%nat -> nth_error Queue j = Some p ->
                     local_ack (Header p) <> key).
Proof.
  revert i0. induction Queue as [|q Queue IH]; intros i0 Hi0;
    cbn [GetPacketIndexByLocalSequence_from GetAckCounters].
  - left. split; [reflexivity|]. intros p [].
  - destruct (local_ack (Header q) =? key) eqn:E.
    + right. apply Z.eqb_eq in E. replace (i0 - i0) with 0 by lia.
      split; [cbn [length]; lia|]. split.
      * exists q. split; [reflexivity|exact E].
      * intros j p Hj. cbn in Hj. lia.
    + apply Z.eqb_neq in E.
      destruct (IH (i0 + 1) ltac:(lia)) as [[Hi Hall]|(Hrange & (p & Hp & Hk) & Hbefore)].
      * left. split; [exact Hi|]. intros p [<-|Hp]; [exact E|apply Hall; exact Hp].
      * right. cbv zeta in *.
        set (i := GetPacketIndexByLocalSequence_from (i0 + 1) Queue key) in *.
        replace (Z.to_nat (i - i0)) with (S (Z.to_nat (i - (i0 + 1)))) by lia.
        split; [cbn [length]; lia|]. split.
        -- exists p. split; [exact Hp|exact Hk].
        -- intros [|j] p' Hj Hnth; cbn in Hnth.
           ++ injection Hnth as <-. exact E.
           ++ apply (Hbefore j p'); [lia|exact Hnth].
Qed.

(** X1.  [GetPacketIndexByLocalSequence] finds the first packet of the queue
    that carries the given local sequence index: it returns -1 exactly when
    no packet of the queue carries it, and otherwise the position of a
    packet that carries it, no earlier packet doing so. *)
Theorem GetPacketIndexByLocalSequence_first
  (Queue : list Frpg2ReliableUdpPacket) (key : Z) :
  let i := GetPacketIndexByLocalSequence Queue key in
  (i = -1 /\ forall p, In p Queue -> local_ack (Header p) <> key)
  \/ (0 <= i < Z.of_nat (length Queue)
      /\ (exists p, nth_error Queue (Z.to_nat i) = Some p
                    /\ local_ack (Header p) = key)
      /\ forall j p, (j < Z.to_nat i)%nat -> nth_error Queue j = Some p ->
                     local_ack (Header p) <> key).
Proof.
  unfold GetPacketIndexByLocalSequence.
  pose proof (GetPacketIndexByLocalSequence_from_spec Queue key 0 ltac:(lia)) as H.
  cbv zeta in *.
  destruct H as [H|(Hr & Hp & Hb)]; [left; exact H|right].
  rewrite Z.sub_0_r in *. rewrite Z.add_0_l in Hr. auto.
Qed.

(** ** Encoding and decoding *)

Lemma nth_app_left {A} (l l' : list A) (n : nat) (d : A) :
  (n < length l)%nat -> nth n (l ++ l') d = nth n l d.
Proof. intros H. apply app_nth1. exact H. Qed.

(** X2.  Decoding what [EncodeReliablePacket] produced for a packet that is
    not a SYN gives back the header and the payload of the packet, whenever
    the layout of the header struct is one that [memcpy] round-trips: twelve
    bytes that start with the magic number.  The send time is not carried. *)
Theorem DecodeReliablePacket_EncodeReliablePacket
  (wire : WireLayout) (Input Output : Frpg2ReliableUdpPacket)
  (sender receiver : Frpg2ReliableUdpPacketStream) :
  opcode (Header Input) <> SYN ->
  length (BytesOfHeader wire (Header Input)) = 12%nat ->
  nth 0 (BytesOfHeader wire (Header Input)) x00 = xf5 ->
  nth 1 (BytesOfHeader wire (Header Input)) x00 = x02 ->
  HeaderOfBytes wire (BytesOfHeader wire (Header Input)) = Header Input ->
  HasConnectionPrefix (snd (EncodeReliablePacket wire Input sender)) = false
  /\ DecodeReliablePacket wire (snd (EncodeReliablePacket wire Input sender))
       Output receiver
     = Done ((true, mkPacket (Header Input) (Payload Input) (SendTime Output)),
             receiver).
Proof.
  intros Hop Hlen H0 H1 Hrt.
  unfold EncodeReliablePacket.
  replace (opcode_eqb (opcode (Header Input)) SYN) with false
    by (destruct (opcode (Header Input)); try reflexivity; contradiction Hop;
        reflexivity).
  cbn [snd HasConnectionPrefix app]. split; [reflexivity|].
  rewrite DecodeReliablePacket_decoded; cbn [UdpPayload].
  - rewrite firstn_app, Hlen. rewrite firstn_all2 by lia.
    replace (12 - 12)%nat with 0%nat by lia. cbn [firstn]. rewrite app_nil_r, Hrt.
    rewrite skipn_app, Hlen. rewrite skipn_all2 by lia.
    replace (12 - 12)%nat with 0%nat by lia. reflexivity.
  - rewrite length_app. lia.
  - rewrite nth_app_left by lia. exact H0.
  - rewrite nth_app_left by lia. exact H1.
Qed.

Lemma DecodeReliablePacket_EncodeReliablePacket_witness :
  DecodeReliablePacket sample_wire
    (snd (EncodeReliablePacket sample_wire
            (mkPacket (mkHeader 0xF502 7 3 DAT 0) [x41; x42] 5) sample_stream))
    new_Frpg2ReliableUdpPacket sample_established
  = Done ((true, mkPacket (mkHeader 0xF502 7 3 DAT 0) [x41; x42] 0),
          sample_established).
Proof.
  refine (proj2 (DecodeReliablePacket_EncodeReliablePacket sample_wire
                   (mkPacket (mkHeader 0xF502 7 3 DAT 0) [x41; x42] 5)
                   new_Frpg2ReliableUdpPacket sample_stream sample_established
                   _ _ _ _ _));
    [discriminate|reflexivity|reflexivity|reflexivity|reflexivity].
Defined.

(** X3.  A SYN travels behind the initial connection data.  When the
    receiving loop of [HandleIncoming] reads the datagram that
    [EncodeReliablePacket] produced for a SYN, it strips the connection data
    and hands [HandleIncomingPacket] a packet with the header and payload of
    the SYN, provided the connection data has the size of its struct and does
    not start with [0xF5] or [0x25], the two first bytes the loop takes for
    the start of a reliable header. *)
Theorem HandleIncoming_recieve_SYN_datagram
  (cfg : BuildConfig) (wire : WireLayout) (now : Q) (fuel : nat)
  (Input : Frpg2ReliableUdpPacket) (rest : list Frpg2UdpPacket)
  (sender s : Frpg2ReliableUdpPacketStream) :
  opcode (Header Input) = SYN ->
  length (BytesOfInitialData wire (SteamId sender))
  = sizeof_Frpg2ReliableUdpInitialData wire ->
  nth 0 (BytesOfInitialData wire (SteamId sender)) x00 <> xf5 ->
  nth 0 (BytesOfInitialData wire (SteamId sender)) x00 <> x25 ->
  (0 < sizeof_Frpg2ReliableUdpInitialData wire)%nat ->
  length (BytesOfHeader wire (Header Input)) = 12%nat ->
  nth 0 (BytesOfHeader wire (Header Input)) x00 = xf5 ->
  nth 1 (BytesOfHeader wire (Header Input)) x00 = x02 ->
  HeaderOfBytes wire (BytesOfHeader wire (Header Input)) = Header Input ->
  Inbound (Udp s) = snd (EncodeReliablePacket wire Input sender) :: rest ->
  HasConnectionPrefix (snd (EncodeReliablePacket wire Input sender)) = true
  /\ HandleIncoming_recieve cfg wire now (S fuel) s
     = (HandleIncomingPacket cfg wire now
          (mkPacket (Header Input) (Payload Input) 0) ;;
        HandleIncoming_recieve cfg wire now fuel)
         (set_Udp (mkUdp rest (Sent (Udp s)) (SendFails (Udp s))
                         (PumpFatal (Udp s))) s).
Proof.
  intros Hop Hsize Hf5 H25 Hpos Hlen H0 H1 Hrt Hin.
  unfold EncodeReliablePacket in *. rewrite Hop in *.
  cbn [opcode_eqb snd HasConnectionPrefix] in *. split; [reflexivity|].
  cbn [HandleIncoming_recieve]. rewrite bind_get.
  unfold Frpg2UdpPacketStream_Recieve. rewrite Hin, bind_modify.
  cbn [UdpPayload HasConnectionPrefix auth_token].
  set (prefix := BytesOfInitialData wire (SteamId sender)) in *.
  set (hdr := BytesOfHeader wire (Header Input)) in *.
  assert (Hn0 : nth 0 (prefix ++ hdr ++ Payload Input) x00 = nth 0 prefix x00)
    by (apply nth_app_left; lia).
  rewrite Hn0.
  replace (sizeof_Frpg2ReliableUdpInitialData wire
           <? length (prefix ++ hdr ++ Payload Input))%nat with true
    by (symmetry; apply Nat.ltb_lt; rewrite !length_app; lia).
  replace (Byte.eqb (nth 0 prefix x00) xf5) with false
    by (symmetry; destruct (Byte.eqb (nth 0 prefix x00) xf5) eqn:E;
        [apply Byte.byte_dec_bl in E; contradiction|reflexivity]).
  replace (Byte.eqb (nth 0 prefix x00) x25) with false
    by (symmetry; destruct (Byte.eqb (nth 0 prefix x00) x25) eqn:E;
        [apply Byte.byte_dec_bl in E; contradiction|reflexivity]).
  cbn [andb negb].
  rewrite <- Hsize, skipn_app, skipn_all2 by lia.
  replace (length prefix - length prefix)%nat with 0%nat by lia.
  cbn [skipn app].
  unfold bind at 1.
  rewrite DecodeReliablePacket_decoded; cbn [UdpPayload].
  - rewrite firstn_app. fold hdr. rewrite Hlen, firstn_all2 by (fold hdr; lia).
    replace (12 - 12)%nat with 0%nat by lia. cbn [firstn]. rewrite app_nil_r.
    rewrite Hrt.
    rewrite skipn_app. fold hdr. rewrite Hlen, skipn_all2 by (fold hdr; lia).
    replace (12 - 12)%nat with 0%nat by lia. reflexivity.
  - rewrite length_app. fold hdr. lia.
  - rewrite nth_app_left by (fold hdr; lia). exact H0.
  - rewrite nth_app_left by (fold hdr; lia). exact H1.
Qed.

Lemma HandleIncoming_recieve_SYN_datagram_witness :
  HandleIncoming_recieve sample_config sample_wire 0 1
    (with_Inbound
       [snd (EncodeReliablePacket sample_wire (sample_packet SYN 1 0) sample_connecting)]
       sample_stream)
  = (HandleIncomingPacket sample_config sample_wire 0
       (mkPacket (Header (sample_packet SYN 1 0)) (Payload (sample_packet SYN 1 0)) 0) ;;
     HandleIncoming_recieve sample_config sample_wire 0 0)
      (set_Udp
         (mkUdp []
            (Sent (Udp (with_Inbound
                          [snd (EncodeReliablePacket sample_wire
                                  (sample_packet SYN 1 0) sample_connecting)]
                          sample_stream)))
            (SendFails (Udp (with_Inbound
                          [snd (EncodeReliablePacket sample_wire
                                  (sample_packet SYN 1 0) sample_connecting)]
                          sample_stream)))
            (PumpFatal (Udp (with_Inbound
                          [snd (EncodeReliablePacket sample_wire
                                  (sample_packet SYN 1 0) sample_connecting)]
                          sample_stream))))
         (with_Inbound
            [snd (EncodeReliablePacket sample_wire (sample_packet SYN 1 0)
                    sample_connecting)]
            sample_stream)).
Proof.
  refine (proj2 (HandleIncoming_recieve_SYN_datagram sample_config sample_wire 0 0
                   (sample_packet SYN 1 0) [] sample_connecting
                   (with_Inbound
                      [snd (EncodeReliablePacket sample_wire
                              (sample_packet SYN 1 0) sample_connecting)]
                      sample_stream)
                   _ _ _ _ _ _ _ _ _ _));
    try reflexivity; try discriminate.
  cbn. lia.
Defined.

(** ** Encryption and decryption *)

Section CWCRoundTrip.

Variable cwc_ctx : Type.
Variable RETURN_ERROR : Z.
Variable cwc_encrypt_message :
  list byte -> nat -> list byte -> nat -> list byte -> nat -> list byte -> nat ->
  cwc_ctx -> Z * list byte * list byte * cwc_ctx.
Variable cwc_decrypt_message :
  list byte -> nat -> list byte -> nat -> list byte -> nat -> list byte -> nat ->
  cwc_ctx -> Z * list byte * cwc_ctx.
Variable FillRandomBytes : list byte -> list byte.

(** [same_key ctx ctx2]: the two contexts were set up with the same key. *)
Variable same_key : cwc_ctx -> cwc_ctx -> Prop.

(** The buffers keep their sizes: [FillRandomBytes] and the primitive write
    into the vectors they are given. *)
Hypothesis FillRandomBytes_length :
  forall buffer, length (FillRandomBytes buffer) = length buffer.
Hypothesis cwc_encrypt_message_length :
  forall iv hdr msg tag ctx code msg' tag' ctx',
    cwc_encrypt_message iv 11%nat hdr 11%nat msg (length msg) tag 16%nat ctx
    = (code, msg', tag', ctx') ->
    length msg' = length msg /\ length tag' = length tag.

Lemma Encrypt_framing Input Output c Output' c' :
  Encrypt RETURN_ERROR cwc_encrypt_message FillRandomBytes Input Output c
  = (true, Output', c') ->
  exists IV Tag Ciphertext code,
    cwc_encrypt_message (FillRandomBytes (repeat x00 11)) 11%nat
      (FillRandomBytes (repeat x00 11)) 11%nat Input (length Input)
      (repeat x00 16) 16%nat (CwcContext c)
    = (code, Ciphertext, Tag, CwcContext c')
    /\ code <> RETURN_ERROR
    /\ IV = FillRandomBytes (repeat x00 11)
    /\ length IV = 11%nat /\ length Tag = 16%nat
    /\ length Ciphertext = length Input
    /\ Output' = IV ++ Tag ++ Ciphertext.
Proof.
  unfold Encrypt. intros E.
  destruct (cwc_encrypt_message _ _ _ _ _ _ _ _ _) as [[[code ct] tag] ctx] eqn:P.
  destruct (code =? RETURN_ERROR) eqn:Ec; [discriminate E|].
  pose proof (f_equal (fun r => snd (fst r)) E) as E1.
  pose proof (f_equal snd E) as E2. cbn [fst snd] in E1, E2.
  subst Output' c'. clear E.
  destruct (cwc_encrypt_message_length _ _ _ _ _ _ _ _ _ P) as [Hct Htag].
  rewrite repeat_length in Htag.
  exists (FillRandomBytes (repeat x00 11)), tag, ct, code.
  assert (Hiv : length (FillRandomBytes (repeat x00 11)) = 11%nat)
    by (rewrite FillRandomBytes_length; apply repeat_length).
  split; [reflexivity|]. split; [apply Z.eqb_neq; exact Ec|].
  split; [reflexivity|]. split; [exact Hiv|]. split; [exact Htag|].
  split; [exact Hct|].
  rewrite !firstn_all2 by lia. reflexivity.
Qed.

(** X4.  [Encrypt] frames what the primitive produced.  It draws a random
    IV of 11 bytes and calls the primitive once, with the IV as nonce and as
    header, the plaintext, and a tag buffer of 16 bytes.  It returns false
    exactly when the primitive returns [RETURN_ERROR], and then leaves its
    output untouched.  Otherwise its output is the IV, then the 16 bytes of
    the tag the primitive wrote, then the ciphertext the primitive wrote, as
    long as the plaintext: 11 + 16 bytes more than the plaintext.  In both
    cases the cipher keeps its key and takes the context the primitive left. *)
Theorem Encrypt_output
  (Input Output : list byte) (c : CWCCipher cwc_ctx)
  (code : Z) (Ciphertext Tag : list byte) (ctx : cwc_ctx) :
  let IV := FillRandomBytes (repeat x00 11) in
  cwc_encrypt_message IV 11%nat IV 11%nat Input (length Input)
                      (repeat x00 16) 16%nat (CwcContext c)
  = (code, Ciphertext, Tag, ctx) ->
  let result :=
    Encrypt RETURN_ERROR cwc_encrypt_message FillRandomBytes Input Output c in
  result
  = (negb (code =? RETURN_ERROR),
     if code =? RETURN_ERROR then Output else IV ++ Tag ++ Ciphertext,
     mkCWCCipher (Key c) ctx)
  /\ length IV = 11%nat /\ length Tag = 16%nat
  /\ length Ciphertext = length Input
  /\ (code <> RETURN_ERROR ->
      firstn 11 (snd (fst result)) = IV
      /\ firstn 16 (skipn 11 (snd (fst result))) = Tag
      /\ skipn (11 + 16) (snd (fst result)) = Ciphertext
      /\ length (snd (fst result)) = (11 + 16 + length Input)%nat).
Proof.
  intros IV P result.
  destruct (cwc_encrypt_message_length _ _ _ _ _ _ _ _ _ P) as [Hct Htag].
  rewrite repeat_length in Htag.
  assert (Hiv : length IV = 11%nat)
    by (unfold IV; rewrite FillRandomBytes_length; apply repeat_length).
  assert (E : result
              = (negb (code =? RETURN_ERROR),
                 if code =? RETURN_ERROR then Output
                 else IV ++ Tag ++ Ciphertext,
                 mkCWCCipher (Key c) ctx)).
  { unfold result, Encrypt. fold IV. rewrite P.
    destruct (code =? RETURN_ERROR); [reflexivity|].
    rewrite !firstn_all2 by lia. reflexivity. }
  split; [exact E|]. split; [exact Hiv|]. split; [exact Htag|].
  split; [exact Hct|].
  intros Hcode. rewrite E. cbn [fst snd].
  replace (code =? RETURN_ERROR) with false
    by (symmetry; apply Z.eqb_neq; exact Hcode).
  assert (F2 : skipn 11 (IV ++ Tag ++ Ciphertext) = Tag ++ Ciphertext).
  { rewrite skipn_app, skipn_all2 by lia.
    replace (11 - length IV)%nat with 0%nat by lia. reflexivity. }
  repeat apply conj.
  - rewrite firstn_app, firstn_all2 by lia.
    replace (11 - length IV)%nat with 0%nat by lia.
    cbn [firstn]. apply app_nil_r.
  - rewrite F2, firstn_app, firstn_all2 by lia.
    replace (16 - length Tag)%nat with 0%nat by lia.
    cbn [firstn]. apply app_nil_r.
  - rewrite <- (skipn_skipn 16 11), F2.
    rewrite skipn_app, skipn_all2 by lia.
    replace (16 - length Tag)%nat with 0%nat by lia. reflexivity.
  - rewrite !length_app. lia.
Qed.

(** X5.  [Decrypt] undoes [Encrypt] on every plaintext that is not empty,
    between two ciphers whose contexts were set up with the same key,
    whenever the decrypting half of the primitive undoes the encrypting half
    under the same key (for the same nonce and header): the decryption
    succeeds and its output is the plaintext. *)
Theorem Decrypt_Encrypt
  (Input Output Output2 : list byte) (c c' c2 : CWCCipher cwc_ctx)
  (Encrypted : list byte) :
  (forall iv msg ctx ctx2 code ct tag ctx',
      same_key ctx ctx2 ->
      cwc_encrypt_message iv 11%nat iv 11%nat msg (length msg) (repeat x00 16)
                          16%nat ctx
      = (code, ct, tag, ctx') ->
      code <> RETURN_ERROR ->
      exists code2 ctx2',
        cwc_decrypt_message iv 11%nat iv 11%nat ct (length ct) tag 16%nat ctx2
        = (code2, msg, ctx2') /\ code2 <> RETURN_ERROR) ->
  same_key (CwcContext c) (CwcContext c2) ->
  Input <> [] ->
  Encrypt RETURN_ERROR cwc_encrypt_message FillRandomBytes Input Output c
  = (true, Encrypted, c') ->
  exists c2',
    Decrypt RETURN_ERROR cwc_decrypt_message Encrypted Output2 c2
    = (true, Input, c2').
Proof.
  intros Hinv Hkey Hne E.
  destruct (Encrypt_framing _ _ _ _ _ E)
    as (IV & Tag & Ct & code & P & Hcode & HIV & Hiv & Htag & Hct & ->).
  rewrite <- HIV in P.
  destruct (Hinv IV Input _ (CwcContext c2) code Ct Tag _ Hkey P Hcode)
    as (code2 & ctx2' & D & Hcode2).
  assert (Hin : (0 < length Input)%nat)
    by (destruct Input; [contradiction Hne; reflexivity|cbn; lia]).
  unfold Decrypt.
  replace (length (IV ++ Tag ++ Ct) <? 11 + 16 + 1)%nat with false
    by (symmetry; apply Nat.ltb_ge; rewrite !length_app; lia).
  assert (F1 : firstn 11 (IV ++ Tag ++ Ct) = IV).
  { rewrite firstn_app, firstn_all2 by lia.
    replace (11 - length IV)%nat with 0%nat by lia.
    cbn [firstn]. apply app_nil_r. }
  assert (F2 : skipn 11 (IV ++ Tag ++ Ct) = Tag ++ Ct).
  { rewrite skipn_app, skipn_all2 by lia.
    replace (11 - length IV)%nat with 0%nat by lia. reflexivity. }
  assert (F3 : firstn 16 (Tag ++ Ct) = Tag).
  { rewrite firstn_app, firstn_all2 by lia.
    replace (16 - length Tag)%nat with 0%nat by lia.
    cbn [firstn]. apply app_nil_r. }
  assert (F4 : skipn (11 + 16) (IV ++ Tag ++ Ct) = Ct).
  { rewrite <- (skipn_skipn 16 11), F2.
    rewrite skipn_app, skipn_all2 by lia.
    replace (16 - length Tag)%nat with 0%nat by lia. reflexivity. }
  rewrite F1, F2, F3, F4.
  replace (firstn (length (IV ++ Tag ++ Ct) - 11 - 16) Ct) with Ct
    by (symmetry; apply firstn_all2; rewrite !length_app; lia).
  rewrite D.
  replace (code2 =? RETURN_ERROR) with false
    by (symmetry; apply Z.eqb_neq; exact Hcode2).
  eexists. reflexivity.
Qed.

(** X6.  The empty plaintext does not survive the round trip: [Encrypt]
    accepts it and returns 11 + 16 bytes, which [Decrypt] refuses as too
    short without calling the primitive, whatever the primitive is. *)
Theorem Decrypt_Encrypt_empty
  (Output Output2 : list byte) (c c' c2 : CWCCipher cwc_ctx)
  (Encrypted : list byte) :
  Encrypt RETURN_ERROR cwc_encrypt_message FillRandomBytes [] Output c
  = (true, Encrypted, c') ->
  length Encrypted = 27%nat
  /\ Decrypt RETURN_ERROR cwc_decrypt_message Encrypted Output2 c2
     = (false, Output2, c2).
Proof.
  intros E.
  destruct (Encrypt_framing _ _ _ _ _ E)
    as (IV & Tag & Ct & code & _ & _ & _ & Hiv & Htag & Hct & ->).
  assert (L : length (IV ++ Tag ++ Ct) = 27%nat)
    by (rewrite !length_app; cbn [length] in Hct; lia).
  split; [exact L|].
  unfold Decrypt. rewrite L. reflexivity.
Qed.

End CWCRoundTrip.

Lemma toy_FillRandomBytes_length buffer :
  length (toy_FillRandomBytes buffer) = length buffer.
Proof. apply length_map. Qed.

Lemma toy_cwc_encrypt_message_length iv hdr msg tag ctx code msg' tag' ctx' :
  toy_cwc_encrypt_message iv 11%nat hdr 11%nat msg (length msg) tag 16%nat ctx
  = (code, msg', tag', ctx') ->
  length msg' = length msg /\ length tag' = length tag.
Proof.
  unfold toy_cwc_encrypt_message. intros E.
  pose proof (f_equal (fun r => snd (fst (fst r))) E) as E1.
  pose proof (f_equal (fun r => snd (fst r)) E) as E2.
  cbn [fst snd] in E1, E2. subst msg' tag'.
  split; [reflexivity|apply length_map].
Qed.

Lemma keyed_tag_length key n : length (keyed_tag key n) = n.
Proof.
  unfold keyed_tag. rewrite length_firstn, length_app, repeat_length. lia.
Qed.

Lemma keyed_cwc_encrypt_message_length iv hdr msg tag ctx code msg' tag' ctx' :
  keyed_cwc_encrypt_message iv 11%nat hdr 11%nat msg (length msg) tag 16%nat ctx
  = (code, msg', tag', ctx') ->
  length msg' = length msg /\ length tag' = length tag.
Proof.
  unfold keyed_cwc_encrypt_message. intros E.
  pose proof (f_equal (fun r => snd (fst (fst r))) E) as E1.
  pose proof (f_equal (fun r => snd (fst r)) E) as E2.
  cbn [fst snd] in E1, E2. subst msg' tag'.
  split; [reflexivity|apply keyed_tag_length].
Qed.

Lemma Encrypt_output_witness :
  let IV := toy_FillRandomBytes (repeat x00 11) in
  let result :=
    Encrypt (-1) keyed_cwc_encrypt_message toy_FillRandomBytes [x41; x42] []
      (mkCWCCipher [x6b; x31] [x6b; x31]) in
  result
  = (negb (0 =? -1),
     if 0 =? -1 then [] else IV ++ keyed_tag [x6b; x31] 16 ++ [x41; x42],
     mkCWCCipher [x6b; x31] [x6b; x31])
  /\ length IV = 11%nat /\ length (keyed_tag [x6b; x31] 16) = 16%nat
  /\ length [x41; x42] = length [x41; x42]
  /\ (0 <> -1 ->
      firstn 11 (snd (fst result)) = IV
      /\ firstn 16 (skipn 11 (snd (fst result))) = keyed_tag [x6b; x31] 16
      /\ skipn (11 + 16) (snd (fst result)) = [x41; x42]
      /\ length (snd (fst result)) = (11 + 16 + length [x41; x42])%nat).
Proof.
  refine (Encrypt_output (list byte) (-1) keyed_cwc_encrypt_message
            toy_FillRandomBytes toy_FillRandomBytes_length
            keyed_cwc_encrypt_message_length
            [x41; x42] [] (mkCWCCipher [x6b; x31] [x6b; x31])
            0 [x41; x42] (keyed_tag [x6b; x31] 16) [x6b; x31] _).
  reflexivity.
Defined.

Lemma keyed_cwc_round_trip iv msg ctx ctx2 code ct tag ctx' :
  ctx = ctx2 ->
  keyed_cwc_encrypt_message iv 11%nat iv 11%nat msg (length msg) (repeat x00 16)
                            16%nat ctx
  = (code, ct, tag, ctx') ->
  code <> -1 ->
  exists code2 ctx2',
    keyed_cwc_decrypt_message iv 11%nat iv 11%nat ct (length ct) tag 16%nat ctx2
    = (code2, msg, ctx2') /\ code2 <> -1.
Proof.
  intros <- E _. unfold keyed_cwc_encrypt_message in E.
  pose proof (f_equal (fun r => snd (fst (fst r))) E) as E1.
  pose proof (f_equal (fun r => snd (fst r)) E) as E2.
  cbn [fst snd] in E1, E2. subst ct tag.
  exists 0, ctx. unfold keyed_cwc_decrypt_message.
  rewrite keyed_tag_length, repeat_length.
  destruct (list_eq_dec Byte.byte_eq_dec (keyed_tag ctx 16) (keyed_tag ctx 16))
    as [_|Hne]; [|contradiction Hne; reflexivity].
  split; [reflexivity|discriminate].
Qed.

Lemma Decrypt_Encrypt_witness :
  exists c2',
    Decrypt (-1) keyed_cwc_decrypt_message
      (snd (fst (Encrypt (-1) keyed_cwc_encrypt_message toy_FillRandomBytes
                   [x41; x42] [] (mkCWCCipher [x6b; x31] [x6b; x31]))))
      [] (mkCWCCipher [x6b; x31] [x6b; x31])
    = (true, [x41; x42], c2').
Proof.
  refine (Decrypt_Encrypt (list byte) (-1) keyed_cwc_encrypt_message
            keyed_cwc_decrypt_message toy_FillRandomBytes
            (fun ctx ctx2 => ctx = ctx2)
            toy_FillRandomBytes_length keyed_cwc_encrypt_message_length
            [x41; x42] [] [] (mkCWCCipher [x6b; x31] [x6b; x31])
            (mkCWCCipher [x6b; x31] [x6b; x31])
            (mkCWCCipher [x6b; x31] [x6b; x31]) _ _ _ _ _).
  - exact keyed_cwc_round_trip.
  - reflexivity.
  - discriminate.
  - reflexivity.
Defined.

(** A cipher set up with another key refuses what [Encrypt] produced: the
    stand-in primitive does check its key. *)
Example Decrypt_with_another_key :
  Decrypt (-1) keyed_cwc_decrypt_message
    (snd (fst (Encrypt (-1) keyed_cwc_encrypt_message toy_FillRandomBytes
                 [x41; x42] [] (mkCWCCipher [x6b; x31] [x6b; x31]))))
    [] (mkCWCCipher [x6b; x32] [x6b; x32])
  = (false, [x41; x42], mkCWCCipher [x6b; x32] [x6b; x32]).
Proof. vm_compute. reflexivity. Qed.

Lemma Decrypt_Encrypt_empty_witness :
  length (snd (fst (Encrypt (-1) toy_cwc_encrypt_message toy_FillRandomBytes
                      [] [] (mkCWCCipher [] tt)))) = 27%nat
  /\ Decrypt (-1) toy_cwc_decrypt_message
       (snd (fst (Encrypt (-1) toy_cwc_encrypt_message toy_FillRandomBytes
                    [] [] (mkCWCCipher [] tt))))
       [x07] (mkCWCCipher [] tt)
     = (false, [x07], mkCWCCipher [] tt).
Proof.
  refine (Decrypt_Encrypt_empty unit (-1) toy_cwc_encrypt_message
            toy_cwc_decrypt_message toy_FillRandomBytes
            toy_FillRandomBytes_length toy_cwc_encrypt_message_length
            [] [x07] (mkCWCCipher [] tt) (mkCWCCipher [] tt)
            (mkCWCCipher [] tt) _ _).
  reflexivity.
Defined.

(** ** What a poll returns and what it reads *)

Lemma Poll_process_drains fuel c :
  (length (Inbound (MessageStream c)) < fuel)%nat ->
  fst (Poll_process fuel c)
  = mkGameClient
      (mkGameService (RefreshedAuthTokens (Service c)
                      ++ map auth_token (Inbound (MessageStream c))))
      (Connection c)
      (mkUdp [] (Sent (MessageStream c)) (SendFails (MessageStream c))
             (PumpFatal (MessageStream c)))
      (LastMessageRecievedTime c).
Proof.
  revert c. induction fuel as [|fuel IH]; intros c Hlen; [lia|].
  cbn [Poll_process]. unfold Frpg2UdpPacketStream_Recieve.
  destruct c as [[tokens] conn [inbound sent fails fatal] t].
  cbn [MessageStream Inbound Service RefreshedAuthTokens Connection Sent
       SendFails PumpFatal LastMessageRecievedTime] in *.
  destruct inbound as [|Packet rest].
  - cbn. rewrite app_nil_r. reflexivity.
  - cbn [length] in Hlen.
    match goal with
    | |- context [Poll_process fuel ?c'] =>
        specialize (IH c'); destruct (Poll_process fuel c') as [c'' calls]
    end.
    cbn [fst MessageStream Inbound Service RefreshedAuthTokens Connection Sent
         SendFails PumpFatal LastMessageRecievedTime] in *.
    rewrite IH by lia. cbn [map]. rewrite <- app_assoc. reflexivity.
Qed.

(** X7.  [Poll] returns true in exactly four cases: the client has timed out
    (the time since the last message, as the machine computes the difference
    of the two clock readings, is at least [CLIENT_TIMEOUT]), the connection
    reports an error, the connection is no longer connected, or the message
    stream reports a fatal error.  When it returns false it has read every
    datagram waiting on the message stream and passed their auth tokens to
    the service, in the order of arrival. *)
Theorem Poll_result
  (cfg : BuildConfig) (now : Q) (c : GameClient) :
  fst (fst (Poll cfg now c))
  = Qgeb (double_minus cfg now (LastMessageRecievedTime c)) (CLIENT_TIMEOUT cfg)
    || ConnectionPumpError (Connection c)
    || negb (ConnectionIsConnected (Connection c))
    || PumpFatal (MessageStream c)
  /\ (fst (fst (Poll cfg now c)) = false ->
      snd (fst (Poll cfg now c))
      = mkGameClient
          (mkGameService (RefreshedAuthTokens (Service c)
                          ++ map auth_token (Inbound (MessageStream c))))
          (Connection c)
          (mkUdp [] (Sent (MessageStream c)) (SendFails (MessageStream c))
                 (PumpFatal (MessageStream c)))
          (LastMessageRecievedTime c)).
Proof.
  unfold Poll, Frpg2UdpPacketStream_Pump.
  destruct (Qgeb _ _); [split; [reflexivity|discriminate]|].
  destruct (ConnectionPumpError _); [split; [reflexivity|discriminate]|].
  destruct (ConnectionIsConnected _); cbn [negb orb];
    [|split; [reflexivity|discriminate]].
  destruct (PumpFatal (MessageStream c)) eqn:F;
    [split; [reflexivity|discriminate]|].
  match goal with
  | |- context [Poll_process ?n ?c'] =>
      pose proof (Poll_process_drains n c') as H;
      destruct (Poll_process n c') as [c'' calls]
  end.
  cbn [fst snd MessageStream Inbound Service Connection Sent SendFails PumpFatal
       LastMessageRecievedTime] in *.
  split; [reflexivity|]. intros _. rewrite H by lia. rewrite F. reflexivity.
Qed.

(** ** Acknowledgements that arrive twice *)

Lemma spec_modular_max_idempotent x y :
  spec_modular_max (spec_modular_max x y) y = spec_modular_max x y.
Proof.
  unfold spec_modular_max.
  destruct ((3 * 2 ^ 22 <? x) && (y <? 2 ^ 22)) eqn:E.
  - apply andb_prop in E. destruct E as [_ E]. apply Z.ltb_lt in E.
    replace (3 * 2 ^ 22 <? y) with false by (symmetry; apply Z.ltb_ge; lia).
    cbn [andb]. apply Z.max_id.
  - destruct ((3 * 2 ^ 22 <? Z.max x y) && (y <? 2 ^ 22)) eqn:E'.
    + apply andb_prop in E'. destruct E' as [E1 E2].
      apply Z.ltb_lt in E1, E2. apply andb_false_iff in E.
      destruct E as [E|E]; apply Z.ltb_ge in E; lia.
    + lia.
Qed.

(** X8.  An ACK, HBT or DAT_ACK packet that is processed twice moves
    [SequenceIndexAcked] no further than the first time, and processing it
    never moves [SequenceIndexAcked] backwards except in the wrap-around
    case (old value above [3 * 2^22], remote_ack below [2^22]). *)
Theorem ProcessPacket_twice_SequenceIndexAcked
  (cfg : BuildConfig) (wire : WireLayout) (now now' : Q)
  (Packet : Frpg2ReliableUdpPacket) (s : Frpg2ReliableUdpPacketStream) :
  opcode (Header Packet) = ACK \/ opcode (Header Packet) = HBT
  \/ opcode (Header Packet) = DAT_ACK ->
  exists s1 s2,
    ProcessPacket cfg wire now Packet s = Done (tt, s1)
    /\ ProcessPacket cfg wire now' Packet s1 = Done (tt, s2)
    /\ SequenceIndexAcked s2 = SequenceIndexAcked s1
    /\ (SequenceIndexAcked s <= SequenceIndexAcked s1
        \/ (3 * 2 ^ 22 < SequenceIndexAcked s
            /\ SequenceIndexAcked s1 = remote_ack (Header Packet)
            /\ remote_ack (Header Packet) < 2 ^ 22)).
Proof.
  intros H.
  assert (Ht : forall n, total (ProcessPacket cfg wire n Packet))
    by (intros n; apply ProcessPacket_total;
        destruct H as [H|[H|H]]; rewrite H; exact I).
  destruct (total_hoare _ _ _ s (Ht now)
              (ProcessPacket_SequenceIndexAcked_hoare cfg wire now Packet
                 (SequenceIndexAcked s) H) eq_refl) as ([] & s1 & E1 & H1).
  destruct (total_hoare _ _ _ s1 (Ht now')
              (ProcessPacket_SequenceIndexAcked_hoare cfg wire now' Packet
                 (SequenceIndexAcked s1) H) eq_refl) as ([] & s2 & E2 & H2).
  exists s1, s2. split; [exact E1|]. split; [exact E2|]. split.
  - rewrite H2, H1. apply spec_modular_max_idempotent.
  - rewrite H1. unfold spec_modular_max.
    destruct ((3 * 2 ^ 22 <? SequenceIndexAcked s)
              && (remote_ack (Header Packet) <? 2 ^ 22)) eqn:E.
    + right. apply andb_prop in E. destruct E as [Ea Eb].
      apply Z.ltb_lt in Ea, Eb. auto.
    + left. lia.
Qed.

Lemma ProcessPacket_twice_SequenceIndexAcked_witness :
  exists s1 s2,
    ProcessPacket sample_config sample_wire 1 (sample_packet ACK 0 7)
      sample_established = Done (tt, s1)
    /\ ProcessPacket sample_config sample_wire 2 (sample_packet ACK 0 7) s1
       = Done (tt, s2)
    /\ SequenceIndexAcked s2 = SequenceIndexAcked s1
    /\ (SequenceIndexAcked sample_established <= SequenceIndexAcked s1
        \/ (3 * 2 ^ 22 < SequenceIndexAcked sample_established
            /\ SequenceIndexAcked s1 = remote_ack (Header (sample_packet ACK 0 7))
            /\ remote_ack (Header (sample_packet ACK 0 7)) < 2 ^ 22)).
Proof.
  refine (ProcessPacket_twice_SequenceIndexAcked sample_config sample_wire 1 2
            (sample_packet ACK 0 7) sample_established _).
  left. reflexivity.
Defined.

(** ** Reading the receive queue *)

(** X9.  [Recieve] hands out the receive queue from its head: [n] calls in a
    row yield the first [n] packets of the queue in queue order (all of them
    when the queue is shorter, the later calls returning false) and leave
    the rest of the queue, touching nothing else of the receive path. *)
Theorem Recieve_all_FIFO (n : nat) (s : Frpg2ReliableUdpPacketStream) :
  exists s',
    Recieve_all n s = Done (firstn n (RecieveQueue s), s')
    /\ RecieveQueue s' = skipn n (RecieveQueue s)
    /\ PendingRecieveQueue s' = PendingRecieveQueue s
    /\ RemoteSequenceIndex s' = RemoteSequenceIndex s
    /\ State s' = State s
    /\ Udp s' = Udp s.
Proof.
  revert s. induction n as [|fuel IH]; intros s.
  - exists s. repeat split.
  - cbn [Recieve_all]. unfold Recieve. unfold bind at 1. unfold bind at 1.
    unfold get at 1. cbv beta iota.
    destruct (RecieveQueue s) as [|Output rest] eqn:Q.
    + exists s. cbn. rewrite Q. repeat split.
    + rewrite bind_modify. unfold ret at 1. cbv beta iota.
      destruct (IH (set_RecieveQueue rest s)) as (s' & E & Hq & Hp & Hr & Hst & Hu).
      unfold bind. rewrite E. exists s'. cbn in *. repeat split; assumption.
Qed.

(** Reads the members of a stream written as a chain of updates. *)
Ltac members :=
  cbn [Udp InErrorState State SteamId ResendSynTimer SequenceIndex
       SequenceIndexAcked RemoteSequenceIndex RemoteSequenceIndexAcked
       DatAckResponses ExpectedDatAckResponses SendQueue RetransmitBuffer
       PendingRecieveQueue RecieveQueue LastPacketRecievedTime
       LastAckSendTime CloseTimer IsRetransmitting RetransmittingIndex
       RetransmitPacket RetransmissionTimer set_Udp set_InErrorState
       set_State set_SteamId set_ResendSynTimer set_SequenceIndex
       set_SequenceIndexAcked set_RemoteSequenceIndex
       set_RemoteSequenceIndexAcked set_DatAckResponses
       set_ExpectedDatAckResponses set_SendQueue set_RetransmitBuffer
       set_PendingRecieveQueue set_RecieveQueue set_LastPacketRecievedTime
       set_LastAckSendTime set_CloseTimer set_IsRetransmitting
       set_RetransmittingIndex set_RetransmitPacket set_RetransmissionTimer
       Inbound Sent SendFails PumpFatal Udp_sent].

Ltac members_in H :=
  cbn [Udp InErrorState State SteamId ResendSynTimer SequenceIndex
       SequenceIndexAcked RemoteSequenceIndex RemoteSequenceIndexAcked
       DatAckResponses ExpectedDatAckResponses SendQueue RetransmitBuffer
       PendingRecieveQueue RecieveQueue LastPacketRecievedTime
       LastAckSendTime CloseTimer IsRetransmitting RetransmittingIndex
       RetransmitPacket RetransmissionTimer set_Udp set_InErrorState
       set_State set_SteamId set_ResendSynTimer set_SequenceIndex
       set_SequenceIndexAcked set_RemoteSequenceIndex
       set_RemoteSequenceIndexAcked set_DatAckResponses
       set_ExpectedDatAckResponses set_SendQueue set_RetransmitBuffer
       set_PendingRecieveQueue set_RecieveQueue set_LastPacketRecievedTime
       set_LastAckSendTime set_CloseTimer set_IsRetransmitting
       set_RetransmittingIndex set_RetransmitPacket set_RetransmissionTimer
       Inbound Sent SendFails PumpFatal Udp_sent] in H.

(** ** Packets that go straight to the wire *)

Lemma SendRaw_sent wire Input s :
  opcode_eqb (opcode (Header Input)) Unset = false ->
  SendFails (Udp s) = false ->
  SendRaw wire Input s
  = Done (true,
          set_Udp (Udp_sent [snd (EncodeReliablePacket wire Input s)] (Udp s)) s).
Proof.
  intros Hop Hsend.
  unfold SendRaw, Frpg2UdpPacketStream_Send, Udp_sent.
  rewrite Hop. cbn [negb]. unfold Ensure, bind at 1. rewrite bind_get.
  unfold EncodeReliablePacket at 1. cbn [negb]. rewrite Hsend.
  rewrite bind_modify. reflexivity.
Qed.

Lemma Send_not_queued_sent wire now Input s :
  IsOpcodeSequenced (opcode (Header Input))
  || opcode_eqb (opcode (Header Input)) Unset = false ->
  State s <> Closing ->
  SendFails (Udp s) = false ->
  Send wire now Input s
  = Done (true,
          set_Udp (Udp_sent [snd (EncodeReliablePacket wire Input s)] (Udp s)) s).
Proof.
  intros Hop Hstate Hsend. unfold Send. rewrite bind_get.
  replace (state_eqb (State s) Closing) with false
    by (destruct (State s); try reflexivity; contradiction Hstate; reflexivity).
  rewrite Hop. unfold bind.
  rewrite SendRaw_sent; [reflexivity| |exact Hsend].
  apply orb_false_elim in Hop. apply Hop.
Qed.

Lemma EncodeReliablePacket_not_SYN wire Input s :
  opcode_eqb (opcode (Header Input)) SYN = false ->
  snd (EncodeReliablePacket wire Input s) = Encoded wire Input.
Proof.
  intros H. unfold EncodeReliablePacket, Encoded. rewrite H. reflexivity.
Qed.

(** ** Closing a stream *)

Lemma Send_FIN_sent wire now s :
  State s <> Closing -> SendFails (Udp s) = false ->
  Send_FIN wire now s
  = Done (tt,
          set_CloseTimer now
            (set_State Closing
               (set_Udp (Udp_sent [Encoded wire (Packet_FIN (SequenceIndex s))]
                                  (Udp s)) s))).
Proof.
  intros Hstate Hsend. unfold Send_FIN. rewrite bind_get. unfold bind at 1.
  rewrite Send_not_queued_sent by (try reflexivity; assumption).
  rewrite EncodeReliablePacket_not_SYN by reflexivity.
  rewrite bind_modify. reflexivity.
Qed.

(** X10.  [Disconnect] does nothing unless the stream is Established.  On an
    Established stream it sends one FIN straight to the wire (the FIN is not
    queued, takes no sequence index and is never retransmitted), moves to
    Closing and starts the close timer; from then on [Send] swallows every
    packet: it returns true and changes nothing. *)
Theorem Disconnect_then_Send
  (wire : WireLayout) (now : Q) (s : Frpg2ReliableUdpPacketStream) :
  (State s <> Established -> Disconnect wire now s = Done (tt, s))
  /\ (State s = Established -> SendFails (Udp s) = false ->
      exists s1,
        Disconnect wire now s = Done (tt, s1)
        /\ State s1 = Closing
        /\ CloseTimer s1 = now
        /\ Sent (Udp s1)
           = Sent (Udp s) ++ [Encoded wire (Packet_FIN (SequenceIndex s))]
        /\ SequenceIndex s1 = SequenceIndex s
        /\ SendQueue s1 = SendQueue s
        /\ RetransmitBuffer s1 = RetransmitBuffer s
        /\ forall now' Input, Send wire now' Input s1 = Done (true, s1)).
Proof.
  split.
  - intros H. unfold Disconnect. rewrite bind_get.
    replace (state_eqb (State s) Established) with false
      by (destruct (State s); try reflexivity; contradiction H; reflexivity).
    reflexivity.
  - intros H Hsend. unfold Disconnect. rewrite bind_get, H. cbn [state_eqb].
    rewrite Send_FIN_sent by (try assumption; rewrite H; discriminate).
    eexists. split; [reflexivity|]. cbn.
    repeat split.
Qed.

Lemma Disconnect_then_Send_witness :
  exists s1,
    Disconnect sample_wire 5 sample_established = Done (tt, s1)
    /\ State s1 = Closing
    /\ CloseTimer s1 = 5%Q
    /\ Sent (Udp s1)
       = Sent (Udp sample_established)
         ++ [Encoded sample_wire (Packet_FIN (SequenceIndex sample_established))]
    /\ SequenceIndex s1 = SequenceIndex sample_established
    /\ SendQueue s1 = SendQueue sample_established
    /\ RetransmitBuffer s1 = RetransmitBuffer sample_established
    /\ forall now' Input, Send sample_wire now' Input s1 = Done (true, s1).
Proof.
  refine (proj2 (Disconnect_then_Send sample_wire 5 sample_established) _ _);
    vm_compute; reflexivity.
Defined.

Lemma Send_FIN_Closing wire now :
  hoare (fun s => SendQueue s = [])
        (Send_FIN wire now)
        (fun _ s => SendQueue s = [] /\ State s = Closing).
Proof.
  unfold Send_FIN. apply hoare_get_bind_forget. intros s0.
  apply hoare_keeps_bind; [apply Send_raw_keeps; [stable|stable|reflexivity]|].
  intros ?.
  eapply hoare_bind with (R := fun _ s => SendQueue s = [] /\ State s = Closing).
  - apply hoare_modify. intros s Hs. split; [exact Hs|reflexivity].
  - intros ?. apply hoare_modify. intros s Hs. exact Hs.
Qed.

(** X11.  A graceful close does not wait for the peer.  After [Disconnect] on
    an Established stream whose send queue is empty, the next [Pump] returns
    true with the stream Closed and reset: packets still in the retransmit
    buffer (sent, not yet acknowledged) and packets received but not yet read
    are dropped, and no FIN_ACK has been awaited. *)
Theorem Disconnect_then_Pump
  (cfg : BuildConfig) (wire : WireLayout) (now now' : Q)
  (s : Frpg2ReliableUdpPacketStream) :
  State s = Established ->
  SendQueue s = [] ->
  exists s1 s2,
    Disconnect wire now s = Done (tt, s1)
    /\ Pump cfg wire now' s1 = Done (true, s2)
    /\ State s2 = Closed
    /\ RetransmitBuffer s2 = []
    /\ RecieveQueue s2 = []
    /\ PendingRecieveQueue s2 = []
    /\ SequenceIndex s2 = START_SEQUENCE_INDEX cfg.
Proof.
  intros H Hq.
  assert (E : Disconnect wire now s = Send_FIN wire now s)
    by (unfold Disconnect; rewrite bind_get, H; reflexivity).
  destruct (total_hoare _ _ _ s (Send_FIN_total wire now)
              (Send_FIN_Closing wire now) Hq) as ([] & s1 & E1 & Hq1 & Hs1).
  exists s1, (Reset cfg (set_State Closed s1)).
  split; [rewrite E; exact E1|].
  split; [apply Pump_Closing_drained; assumption|].
  repeat split.
Qed.

Lemma Disconnect_then_Pump_witness :
  exists s1 s2,
    Disconnect sample_wire 5 sample_established = Done (tt, s1)
    /\ Pump sample_config sample_wire 6 s1 = Done (true, s2)
    /\ State s2 = Closed
    /\ RetransmitBuffer s2 = []
    /\ RecieveQueue s2 = []
    /\ PendingRecieveQueue s2 = []
    /\ SequenceIndex s2 = START_SEQUENCE_INDEX sample_config.
Proof.
  refine (Disconnect_then_Pump sample_config sample_wire 5 6 sample_established
            _ _); vm_compute; reflexivity.
Defined.

Lemma Pump_not_closing_now cfg wire now s :
  state_eqb (State s) Closing && (length (SendQueue s) =? 0)%nat = false ->
  State s <> Closed ->
  PumpFatal (Udp s) = false ->
  State s <> Connecting ->
  Pump cfg wire now s
  = (s <- get ;;
     if Qgtb (CloseTimer s) 0 && state_eqb (State s) Closing
        && Qgtb (double_minus cfg now (CloseTimer s)) (CONNECTION_CLOSE_TIMEOUT cfg)
     then modify (set_State Closed) ;; ret true
     else HandleIncoming cfg wire now ;; HandleOutgoing cfg wire now ;; ret false)
      (set_Udp (Udp s) s).
Proof.
  intros Hc Hclosed Hfatal Hconn. unfold Pump. rewrite bind_get, Hc.
  rewrite bind_ret, bind_get.
  replace (state_eqb (State s) Closed) with false
    by (destruct (State s); try reflexivity; contradiction Hclosed; reflexivity).
  unfold Frpg2UdpPacketStream_Pump. rewrite bind_modify, Hfatal.
  replace (state_eqb (State s) Connecting) with false
    by (destruct (State s); try reflexivity; contradiction Hconn; reflexivity).
  rewrite bind_ret. reflexivity.
Qed.

(** X12.  A Closing stream whose send queue is not empty is closed by the
    close timer only: when the timer was started (by [Disconnect], at a clock
    reading above zero) and more than [CONNECTION_CLOSE_TIMEOUT] has passed,
    [Pump] returns true with the stream Closed, its queues kept until the
    next tick.  When the timer was never started, as after a FIN from the
    peer, no clock reading makes that [Pump] return true. *)
Theorem Pump_close_timer
  (cfg : BuildConfig) (wire : WireLayout) (now : Q)
  (s : Frpg2ReliableUdpPacketStream) :
  State s = Closing ->
  SendQueue s <> [] ->
  PumpFatal (Udp s) = false ->
  ((0 < CloseTimer s)%Q ->
   (CONNECTION_CLOSE_TIMEOUT cfg < double_minus cfg now (CloseTimer s))%Q ->
   Pump cfg wire now s = Done (true, set_State Closed (set_Udp (Udp s) s)))
  /\ ((CloseTimer s <= 0)%Q \/
      (double_minus cfg now (CloseTimer s) <= CONNECTION_CLOSE_TIMEOUT cfg)%Q ->
      forall r s', Pump cfg wire now s = Done (r, s') -> r = false).
Proof.
  intros H Hq Hfatal.
  assert (E : Pump cfg wire now s
              = (s <- get ;;
                 if Qgtb (CloseTimer s) 0 && state_eqb (State s) Closing
                    && Qgtb (double_minus cfg now (CloseTimer s))
                           (CONNECTION_CLOSE_TIMEOUT cfg)
                 then modify (set_State Closed) ;; ret true
                 else HandleIncoming cfg wire now ;;
                      HandleOutgoing cfg wire now ;; ret false)
                  (set_Udp (Udp s) s)).
  { apply Pump_not_closing_now; try (rewrite H; discriminate); try assumption.
    rewrite H. destruct (SendQueue s); [contradiction Hq; reflexivity|reflexivity]. }
  rewrite E, bind_get. cbn [CloseTimer State set_Udp]. rewrite H.
  cbn [state_eqb]. rewrite andb_true_r. unfold Qgtb.
  split.
  - intros H0 Ht.
    replace (Qle_bool (CloseTimer s) 0) with false.
    2:{ symmetry. destruct (Qle_bool (CloseTimer s) 0) eqn:B; [|reflexivity].
        apply Qle_bool_iff in B. exfalso. apply (Qlt_not_le _ _ H0 B). }
    replace (Qle_bool (double_minus cfg now (CloseTimer s))
           (CONNECTION_CLOSE_TIMEOUT cfg))
      with false.
    2:{ symmetry.
        destruct (Qle_bool (double_minus cfg now (CloseTimer s))
               (CONNECTION_CLOSE_TIMEOUT cfg))
          eqn:B; [|reflexivity].
        apply Qle_bool_iff in B. exfalso. apply (Qlt_not_le _ _ Ht B). }
    reflexivity.
  - intros Hno r s' Er.
    replace (negb (Qle_bool (CloseTimer s) 0)
             && negb (Qle_bool (double_minus cfg now (CloseTimer s))
                               (CONNECTION_CLOSE_TIMEOUT cfg))) with false in Er.
    2:{ symmetry. apply andb_false_iff.
        destruct Hno as [Hno|Hno]; [left|right];
          apply negb_false_iff, Qle_bool_iff; exact Hno. }
    assert (Hh : hoare (fun _ => True)
                   (HandleIncoming cfg wire now ;;
                    HandleOutgoing cfg wire now ;; ret false)
                   (fun r _ => r = false)).
    { eapply hoare_bind; [apply hoare_True|]. intros ?.
      eapply hoare_bind; [apply hoare_True|]. intros ?.
      apply hoare_ret. auto. }
    apply (hoare_done _ _ _ _ r s' Hh I Er).
Qed.

Lemma Pump_close_timer_witness :
  Pump sample_config sample_wire 11 sample_closing
  = Done (true, set_State Closed (set_Udp (Udp sample_closing) sample_closing)).
Proof.
  refine (proj1 (Pump_close_timer sample_config sample_wire 11 sample_closing
                   _ _ _) _ _);
    try (vm_compute; reflexivity).
  vm_compute. discriminate.
Defined.

(** ** The handshake *)

Lemma Send_SYN_ACK_sent wire now RemoteIndex s :
  State s <> Closing -> SendFails (Udp s) = false ->
  Send_SYN_ACK wire now RemoteIndex s
  = Done (tt,
          set_SequenceIndex (u32 (SequenceIndex s + 1) mod MAX_ACK_VALUE)
            (set_RemoteSequenceIndex RemoteIndex
               (set_Udp
                  (Udp_sent [Encoded wire (Packet_SYN_ACK wire (SequenceIndex s)
                                                          RemoteIndex)]
                            (Udp s)) s))).
Proof.
  intros Hstate Hsend. unfold Send_SYN_ACK. rewrite bind_get. unfold bind at 1.
  rewrite Send_not_queued_sent by (try reflexivity; assumption).
  rewrite EncodeReliablePacket_not_SYN by reflexivity.
  rewrite bind_modify. reflexivity.
Qed.

Lemma Send_SYN_sent wire now s :
  State s <> Closing -> SendFails (Udp s) = false ->
  Send_SYN wire now s
  = Done (tt,
          set_Udp (Udp_sent [Encoded_SYN wire (SteamId s) (SequenceIndex s)]
                            (Udp s)) s).
Proof.
  intros Hstate Hsend. unfold Send_SYN. rewrite bind_get. unfold bind at 1.
  rewrite Send_not_queued_sent by (try reflexivity; assumption).
  reflexivity.
Qed.

(** X13.  The handshake on the listening side.  A SYN, in whatever state it
    arrives, moves the stream to SynRecieved, records the peer's local index
    as the remote sequence index, takes one sequence index, and is answered
    by a SYN_ACK followed by an ACK, both for the peer's index; the queues
    are left as they are.  The ACK that follows moves the stream to
    Established and is not answered. *)
Theorem handshake_on_SYN
  (cfg : BuildConfig) (wire : WireLayout) (now now' : Q)
  (syn ack : Frpg2ReliableUdpPacket) (s : Frpg2ReliableUdpPacketStream) :
  opcode (Header syn) = SYN ->
  opcode (Header ack) = ACK ->
  SendFails (Udp s) = false ->
  exists s1 s2,
    HandleIncomingPacket cfg wire now syn s = Done (tt, s1)
    /\ State s1 = SynRecieved
    /\ RemoteSequenceIndex s1 = local_ack (Header syn)
    /\ RemoteSequenceIndexAcked s1 = local_ack (Header syn)
    /\ SequenceIndex s1 = (SequenceIndex s + 1) mod MAX_ACK_VALUE
    /\ Sent (Udp s1)
       = Sent (Udp s)
         ++ [Encoded wire (Packet_SYN_ACK wire (SequenceIndex s)
                                          (local_ack (Header syn)));
             Encoded_ACK wire (local_ack (Header syn))]
    /\ SendQueue s1 = SendQueue s
    /\ RecieveQueue s1 = RecieveQueue s
    /\ HandleIncomingPacket cfg wire now' ack s1 = Done (tt, s2)
    /\ State s2 = Established
    /\ Sent (Udp s2) = Sent (Udp s1)
    /\ SequenceIndex s2 = SequenceIndex s1.
Proof.
  intros Hsyn Hack Hsend.
  rewrite HandleIncomingPacket_not_sequenced by (rewrite Hsyn; reflexivity).
  unfold ProcessPacket at 1. rewrite Hsyn.
  unfold Handle_SYN, GetAckCounters. rewrite bind_modify. unfold bind at 1.
  rewrite Send_SYN_ACK_sent by (cbn; (discriminate || assumption)).
  rewrite Send_ACK_sent by (cbn; (discriminate || assumption)).
  eexists. eexists.
  split; [reflexivity|].
  split; [reflexivity|]. split; [reflexivity|]. split; [reflexivity|].
  split; [cbn; apply u32_mod_MAX_ACK_VALUE|].
  split; [cbn; rewrite <- app_assoc; reflexivity|].
  split; [reflexivity|]. split; [reflexivity|].
  rewrite HandleIncomingPacket_not_sequenced by (rewrite Hack; reflexivity).
  unfold ProcessPacket. rewrite Hack.
  unfold Handle_ACK, GetAckCounters, UpdateSequenceIndexAcked.
  rewrite bind_get. cbn [State set_LastPacketRecievedTime set_LastAckSendTime
    set_RemoteSequenceIndexAcked set_Udp set_SequenceIndex
    set_RemoteSequenceIndex set_State state_eqb].
  rewrite bind_modify. unfold modify.
  split; [reflexivity|].
  match goal with
  | |- context [if ?c then _ else _] => destruct c
  end; members; repeat apply conj; reflexivity.
Qed.

Lemma handshake_on_SYN_witness :
  exists s1 s2,
    HandleIncomingPacket sample_config sample_wire 0 (sample_packet SYN 1 0)
      sample_stream = Done (tt, s1)
    /\ State s1 = SynRecieved
    /\ RemoteSequenceIndex s1 = local_ack (Header (sample_packet SYN 1 0))
    /\ RemoteSequenceIndexAcked s1 = local_ack (Header (sample_packet SYN 1 0))
    /\ SequenceIndex s1 = (SequenceIndex sample_stream + 1) mod MAX_ACK_VALUE
    /\ Sent (Udp s1)
       = Sent (Udp sample_stream)
         ++ [Encoded sample_wire
               (Packet_SYN_ACK sample_wire (SequenceIndex sample_stream)
                  (local_ack (Header (sample_packet SYN 1 0))));
             Encoded_ACK sample_wire (local_ack (Header (sample_packet SYN 1 0)))]
    /\ SendQueue s1 = SendQueue sample_stream
    /\ RecieveQueue s1 = RecieveQueue sample_stream
    /\ HandleIncomingPacket sample_config sample_wire 1 (sample_packet ACK 0 1) s1
       = Done (tt, s2)
    /\ State s2 = Established
    /\ Sent (Udp s2) = Sent (Udp s1)
    /\ SequenceIndex s2 = SequenceIndex s1.
Proof.
  refine (handshake_on_SYN sample_config sample_wire 0 1 (sample_packet SYN 1 0)
            (sample_packet ACK 0 1) sample_stream _ _ _); reflexivity.
Defined.

(** X14.  The handshake on the connecting side.  [Connect], from whatever
    state, moves the stream to Connecting and sends a SYN behind the initial
    connection data, without taking a sequence index.  The SYN_ACK of the
    peer moves the stream to SynRecieved, records the peer's local index,
    takes one sequence index and is answered by an ACK.  Only the ACK of the
    peer then moves the stream to Established. *)
Theorem handshake_on_Connect
  (cfg : BuildConfig) (wire : WireLayout) (now now' now'' : Q)
  (ClientSteamId : string) (synack ack : Frpg2ReliableUdpPacket)
  (s : Frpg2ReliableUdpPacketStream) :
  opcode (Header synack) = SYN_ACK ->
  opcode (Header ack) = ACK ->
  SendFails (Udp s) = false ->
  exists s1 s2 s3,
    Connect wire now ClientSteamId s = Done (tt, s1)
    /\ State s1 = Connecting
    /\ SequenceIndex s1 = SequenceIndex s
    /\ Sent (Udp s1)
       = Sent (Udp s) ++ [Encoded_SYN wire ClientSteamId (SequenceIndex s)]
    /\ HandleIncomingPacket cfg wire now' synack s1 = Done (tt, s2)
    /\ State s2 = SynRecieved
    /\ RemoteSequenceIndex s2 = local_ack (Header synack)
    /\ SequenceIndex s2 = (SequenceIndex s + 1) mod MAX_ACK_VALUE
    /\ Sent (Udp s2)
       = Sent (Udp s1) ++ [Encoded_ACK wire (local_ack (Header synack))]
    /\ HandleIncomingPacket cfg wire now'' ack s2 = Done (tt, s3)
    /\ State s3 = Established
    /\ Sent (Udp s3) = Sent (Udp s2).
Proof.
  intros Hsa Hack Hsend.
  unfold Connect. rewrite !bind_modify.
  rewrite Send_SYN_sent by (cbn; (discriminate || assumption)).
  eexists. eexists. eexists.
  split; [reflexivity|].
  split; [reflexivity|]. split; [reflexivity|]. split; [reflexivity|].
  rewrite HandleIncomingPacket_not_sequenced by (rewrite Hsa; reflexivity).
  unfold ProcessPacket at 1. rewrite Hsa.
  unfold Handle_SYN_ACK, GetAckCounters. rewrite !bind_modify, bind_get.
  unfold bind at 1.
  rewrite Send_ACK_sent by (cbn; (discriminate || assumption)).
  unfold modify at 1.
  split; [reflexivity|].
  split; [reflexivity|]. split; [reflexivity|].
  split; [cbn; apply u32_mod_MAX_ACK_VALUE|].
  split; [reflexivity|].
  rewrite HandleIncomingPacket_not_sequenced by (rewrite Hack; reflexivity).
  unfold ProcessPacket. rewrite Hack.
  unfold Handle_ACK, GetAckCounters, UpdateSequenceIndexAcked.
  rewrite bind_get. cbn [State set_LastPacketRecievedTime set_LastAckSendTime
    set_RemoteSequenceIndexAcked set_Udp set_SequenceIndex
    set_RemoteSequenceIndex set_State state_eqb].
  rewrite bind_modify. unfold modify.
  split; [reflexivity|].
  match goal with
  | |- context [if ?c then _ else _] => destruct c
  end; members; repeat apply conj; reflexivity.
Qed.

Lemma handshake_on_Connect_witness :
  exists s1 s2 s3,
    Connect sample_wire 0 "76561198000000001"%string sample_stream = Done (tt, s1)
    /\ State s1 = Connecting
    /\ SequenceIndex s1 = SequenceIndex sample_stream
    /\ Sent (Udp s1)
       = Sent (Udp sample_stream)
         ++ [Encoded_SYN sample_wire "76561198000000001"%string
               (SequenceIndex sample_stream)]
    /\ HandleIncomingPacket sample_config sample_wire 1
         (sample_packet SYN_ACK 1 1) s1 = Done (tt, s2)
    /\ State s2 = SynRecieved
    /\ RemoteSequenceIndex s2 = local_ack (Header (sample_packet SYN_ACK 1 1))
    /\ SequenceIndex s2 = (SequenceIndex sample_stream + 1) mod MAX_ACK_VALUE
    /\ Sent (Udp s2)
       = Sent (Udp s1)
         ++ [Encoded_ACK sample_wire
               (local_ack (Header (sample_packet SYN_ACK 1 1)))]
    /\ HandleIncomingPacket sample_config sample_wire 2
         (sample_packet ACK 0 1) s2 = Done (tt, s3)
    /\ State s3 = Established
    /\ Sent (Udp s3) = Sent (Udp s2).
Proof.
  refine (handshake_on_Connect sample_config sample_wire 0 1 2
            "76561198000000001"%string (sample_packet SYN_ACK 1 1)
            (sample_packet ACK 0 1) sample_stream _ _ _); reflexivity.
Defined.

Lemma HandleIncoming_idle cfg wire now s :
  Inbound (Udp s) = [] -> PendingRecieveQueue s = [] ->
  HandleIncoming cfg wire now s = Done (tt, s).
Proof.
  intros Hin Hp. unfold HandleIncoming. rewrite bind_get, Hin.
  cbn [length HandleIncoming_recieve]. rewrite bind_ret, bind_get, Hp.
  reflexivity.
Qed.

Lemma HandleOutgoing_idle cfg wire now s :
  SendQueue s = [] -> RetransmitBuffer s = [] -> IsRetransmitting s = false ->
  HandleOutgoing cfg wire now s = Done (tt, set_RetransmitBuffer [] s).
Proof.
  intros Hq Hb Hr. unfold HandleOutgoing. rewrite bind_modify, bind_get.
  members. rewrite Hr, Hb. cbn [negb filter HandleOutgoing_scan].
  rewrite bind_ret, bind_get. members. rewrite Hq. reflexivity.
Qed.

(** X15.  While the stream is Connecting and nothing else is going on, a tick
    repeats the SYN when more than [RESEND_SYN_INTERVAL] has passed since the
    last one, restarting the interval, and sends nothing otherwise; in both
    cases the stream stays Connecting and [Pump] returns false. *)
Theorem Pump_Connecting_resends_SYN
  (cfg : BuildConfig) (wire : WireLayout) (now : Q)
  (s : Frpg2ReliableUdpPacketStream) :
  State s = Connecting ->
  PumpFatal (Udp s) = false ->
  SendFails (Udp s) = false ->
  Inbound (Udp s) = [] ->
  PendingRecieveQueue s = [] ->
  SendQueue s = [] ->
  RetransmitBuffer s = [] ->
  IsRetransmitting s = false ->
  exists s',
    Pump cfg wire now s = Done (false, s')
    /\ State s' = Connecting
    /\ SequenceIndex s' = SequenceIndex s
    /\ if Qgtb (double_minus cfg now (ResendSynTimer s)) (RESEND_SYN_INTERVAL cfg)
       then Sent (Udp s')
            = Sent (Udp s) ++ [Encoded_SYN wire (SteamId s) (SequenceIndex s)]
            /\ ResendSynTimer s' = now
       else Sent (Udp s') = Sent (Udp s)
            /\ ResendSynTimer s' = ResendSynTimer s.
Proof.
  intros Hst Hfatal Hsend Hin Hp Hq Hb Hr.
  unfold Pump. rewrite bind_get, Hst. cbn [state_eqb andb].
  rewrite bind_ret, bind_get, Hst. cbn [state_eqb].
  unfold Frpg2UdpPacketStream_Pump. rewrite bind_modify, Hfatal.
  destruct (Qgtb (double_minus cfg now (ResendSynTimer s))
         (RESEND_SYN_INTERVAL cfg)).
  - unfold bind at 1. unfold bind at 1.
    rewrite Send_SYN_sent by (members; (rewrite Hst; discriminate) || assumption).
    unfold modify at 1. rewrite bind_get. members. rewrite Hst.
    cbn [state_eqb andb]. rewrite andb_false_r. cbn [andb].
    unfold bind at 1. rewrite HandleIncoming_idle by (members; assumption).
    unfold bind at 1. rewrite HandleOutgoing_idle by (members; assumption).
    eexists. split; [reflexivity|]. members. rewrite Hst. repeat apply conj; reflexivity.
  - rewrite bind_ret, bind_get. members. rewrite Hst. cbn [state_eqb andb].
    rewrite andb_false_r. cbn [andb].
    unfold bind at 1. rewrite HandleIncoming_idle by (members; assumption).
    unfold bind at 1. rewrite HandleOutgoing_idle by (members; assumption).
    eexists. split; [reflexivity|]. members. rewrite Hst. repeat apply conj; reflexivity.
Qed.

Lemma Pump_Connecting_resends_SYN_witness :
  exists s',
    Pump sample_config sample_wire 5 sample_connecting = Done (false, s')
    /\ State s' = Connecting
    /\ SequenceIndex s' = SequenceIndex sample_connecting
    /\ if Qgtb (double_minus sample_config 5 (ResendSynTimer sample_connecting))
               (RESEND_SYN_INTERVAL sample_config)
       then Sent (Udp s')
            = Sent (Udp sample_connecting)
              ++ [Encoded_SYN sample_wire (SteamId sample_connecting)
                    (SequenceIndex sample_connecting)]
            /\ ResendSynTimer s' = 5%Q
       else Sent (Udp s') = Sent (Udp sample_connecting)
            /\ ResendSynTimer s' = ResendSynTimer sample_connecting.
Proof.
  refine (Pump_Connecting_resends_SYN sample_config sample_wire 5
            sample_connecting _ _ _ _ _ _ _ _); vm_compute; reflexivity.
Defined.

(** ** Well-formed streams stay well-formed *)

Lemma GetPacketIndexByLocalSequence_from_absent Queue key i0 :
  0 <= i0 ->
  (GetPacketIndexByLocalSequence_from i0 Queue key >=? 0) = false ->
  ~ In key (local_acks Queue).
Proof.
  revert i0. induction Queue as [|q Queue IH]; intros i0 Hi0 H;
    cbn [GetPacketIndexByLocalSequence_from GetAckCounters local_acks map] in *.
  - intros [].
  - destruct (local_ack (Header q) =? key) eqn:E.
    + exfalso. rewrite Z.geb_leb in H. apply Z.leb_gt in H. lia.
    + apply Z.eqb_neq in E. intros [Hq|Hq]; [contradiction|].
      apply (IH (i0 + 1)); [lia|exact H|exact Hq].
Qed.

Lemma GetPacketIndexByLocalSequence_absent Queue key :
  (GetPacketIndexByLocalSequence Queue key >=? 0) = false ->
  ~ In key (local_acks Queue).
Proof.
  apply GetPacketIndexByLocalSequence_from_absent. lia.
Qed.

Lemma NoDup_tl {A} (l : list A) : NoDup l -> NoDup (tl l).
Proof. intros H. destruct l; [exact H|]. inversion H. assumption. Qed.

Lemma Forall_tl {A} (P : A -> Prop) (l : list A) : Forall P l -> Forall P (tl l).
Proof. intros H. destruct l; [exact H|]. inversion H. assumption. Qed.

Lemma Forall_filter {A} (P : A -> Prop) (f : A -> bool) (l : list A) :
  Forall P l -> Forall P (filter f l).
Proof.
  intros H. apply Forall_forall. intros x Hx. apply filter_In in Hx.
  destruct Hx as [Hx _]. revert x Hx. apply Forall_forall. exact H.
Qed.

Lemma NoDup_snoc {A} (l : list A) (a : A) :
  NoDup l -> ~ In a l -> NoDup (l ++ [a]).
Proof.
  intros Hl Ha. induction l as [|b l IH]; cbn.
  - constructor; [intros []|constructor].
  - inversion Hl as [|? ? Hb Hl']; subst. constructor.
    + intros Hin. apply in_app_or in Hin. destruct Hin as [Hin|[<-|[]]].
      * contradiction.
      * apply Ha. left. reflexivity.
    + apply IH; [exact Hl'|]. intros Hin. apply Ha. right. exact Hin.
Qed.

Lemma Forall_snoc {A} (P : A -> Prop) (l : list A) (a : A) :
  Forall P l -> P a -> Forall P (l ++ [a]).
Proof. intros Hl Ha. apply Forall_app. split; [exact Hl|]. constructor; auto. Qed.

(** Closes a goal [WellFormed (update s)] from [WellFormed s] when the update
    leaves the members of the invariant alone, or changes them in one of the
    ways the code does. *)
Ltac wf :=
  intros;
  match goal with
  | H : WellFormed _ |- WellFormed _ =>
      let Hsi := fresh "Hsi" in let Hnd := fresh "Hnd" in
      let Hpq := fresh "Hpq" in let Hsq := fresh "Hsq" in
      let Hrb := fresh "Hrb" in let Hcur := fresh "Hcur" in
      destruct H as (Hsi & Hnd & Hpq & Hsq & Hrb & Hcur);
      unfold WellFormed; members;
      refine (conj _ (conj _ (conj _ (conj _ (conj _ _)))));
      first [ assumption
            | apply Z.mod_pos_bound; reflexivity
            | apply NoDup_tl; assumption
            | apply Forall_tl; assumption
            | apply Forall_filter; assumption
            | constructor
            | discriminate
            | idtac ]
  end.

Section WellFormedness.

Variable cfg : BuildConfig.
Variable wire : WireLayout.
Hypothesis START_SEQUENCE_INDEX_range :
  0 <= START_SEQUENCE_INDEX cfg < MAX_ACK_VALUE.

Lemma Reset_WellFormed s : WellFormed s -> WellFormed (Reset cfg s).
Proof. unfold Reset. wf. Qed.

Lemma Send_WellFormed now Input : keeps WellFormed (Send wire now Input).
Proof.
  unfold Send. apply keeps_get_bind. intros s0.
  destruct (state_eqb (State s0) Closing); [apply keeps_ret|].
  destruct (IsOpcodeSequenced (opcode (Header Input))
            || opcode_eqb (opcode (Header Input)) Unset) eqn:Hop.
  - eapply hoare_bind with (R := fun p s => WellFormed s /\ Sequenced p).
    + cbn [set_SendTime Header opcode].
      destruct (opcode_eqb (opcode (Header Input)) Unset) eqn:Hun.
      * unfold GetAckCounters.
        destruct (remote_ack (Header Input) >? 0).
        -- eapply hoare_bind with (R := fun _ => WellFormed);
             [apply hoare_modify; wf|intros ?].
           eapply hoare_bind with (R := fun _ => WellFormed);
             [apply hoare_modify; wf|intros ?].
           apply hoare_ret. intros s Hs. split; [exact Hs|reflexivity].
        -- apply hoare_ret. intros s Hs. split; [exact Hs|reflexivity].
      * apply hoare_ret. intros s Hs. split; [exact Hs|].
        rewrite orb_false_r in Hop. exact Hop.
    + intros p.
      eapply hoare_bind with (R := fun _ s => WellFormed s /\ Sequenced p).
      * apply hoare_modify. intros s [Hs Hp]. split; [wf|exact Hp].
      * intros ?.
        eapply hoare_bind with (R := fun _ => WellFormed);
          [|intros ?; apply keeps_ret].
        apply hoare_modify. intros s [Hs Hp]. wf.
        apply Forall_snoc; assumption.
  - apply keeps_bind; [apply SendRaw_keeps; wf|intros ?; apply keeps_ret].
Qed.

Lemma Send_ACK_WellFormed now RemoteIndex :
  keeps WellFormed (Send_ACK wire now RemoteIndex).
Proof. apply Send_ACK_keeps; wf. Qed.

Lemma Send_HBT_WellFormed now : keeps WellFormed (Send_HBT wire now).
Proof. apply Send_HBT_keeps; wf. Qed.

Lemma Send_SYN_WellFormed now : keeps WellFormed (Send_SYN wire now).
Proof. apply Send_SYN_keeps; wf. Qed.

Lemma Send_FIN_WellFormed now : keeps WellFormed (Send_FIN wire now).
Proof. apply Send_FIN_keeps; wf. Qed.

#[local] Hint Resolve Send_WellFormed Send_ACK_WellFormed Send_HBT_WellFormed
  Send_SYN_WellFormed Send_FIN_WellFormed : keeps.
#[local] Hint Extern 1 (WellFormed _) => solve [wf] : keeps.

Lemma Send_SYN_ACK_WellFormed now RemoteIndex :
  keeps WellFormed (Send_SYN_ACK wire now RemoteIndex).
Proof. unfold Send_SYN_ACK. keeps_auto. Qed.

Lemma Send_FIN_ACK_WellFormed now RemoteIndex :
  keeps WellFormed (Send_FIN_ACK wire now RemoteIndex).
Proof. unfold Send_FIN_ACK. keeps_auto. Qed.

Lemma Send_DAT_ACK_WellFormed now LocalIndex RemoteIndex :
  keeps WellFormed (Send_DAT_ACK wire now LocalIndex RemoteIndex).
Proof. unfold Send_DAT_ACK. keeps_auto. Qed.

#[local] Hint Resolve Send_SYN_ACK_WellFormed Send_FIN_ACK_WellFormed
  Send_DAT_ACK_WellFormed : keeps.

Lemma UpdateSequenceIndexAcked_WellFormed InRemoteAck :
  keeps WellFormed (UpdateSequenceIndexAcked InRemoteAck).
Proof. apply UpdateSequenceIndexAcked_keeps; wf. Qed.
#[local] Hint Resolve UpdateSequenceIndexAcked_WellFormed : keeps.

Lemma ProcessPacket_WellFormed now Packet :
  keeps WellFormed (ProcessPacket cfg wire now Packet).
Proof.
  unfold ProcessPacket.
  destruct (opcode (Header Packet));
    unfold Handle_SYN, Handle_SYN_ACK, Handle_DAT, Handle_HBT, Handle_FIN,
      Handle_RST, Handle_ACK, Handle_RACK, Handle_DAT_ACK, Handle_FIN_ACK;
    keeps_auto.
  all: apply keeps_modify; intros s Hs; apply Reset_WellFormed; exact Hs.
Qed.
#[local] Hint Resolve ProcessPacket_WellFormed : keeps.

Lemma Connect_WellFormed now ClientSteamId :
  keeps WellFormed (Connect wire now ClientSteamId).
Proof. unfold Connect. keeps_auto. Qed.

Lemma Disconnect_WellFormed now : keeps WellFormed (Disconnect wire now).
Proof. unfold Disconnect. keeps_auto. Qed.

Lemma Recieve_WellFormed : keeps WellFormed Recieve.
Proof. unfold Recieve. keeps_auto. Qed.

Lemma HandledPacket_WellFormed now AckSequence :
  keeps WellFormed (HandledPacket wire now AckSequence).
Proof. unfold HandledPacket. keeps_auto. Qed.

Lemma hoare_total_intro {A} P (m : M A) (Q : A -> _ -> Prop) :
  total m -> hoare P m Q -> hoare_total P m Q.
Proof. intros Ht Hh s Hs. exact (total_hoare P m Q s Ht Hh Hs). Qed.

Lemma hoare_total_hoare {A} P (m : M A) (Q : A -> _ -> Prop) :
  hoare_total P m Q -> hoare P m Q.
Proof.
  intros H s Hs. destruct (H s Hs) as (a & s' & E & HQ). rewrite E. exact HQ.
Qed.

Lemma hoare_total_ret {A} P (a : A) (Q : A -> _ -> Prop) :
  (forall s, P s -> Q a s) -> hoare_total P (ret a) Q.
Proof. intros H s Hs. exists a, s. split; [reflexivity|auto]. Qed.

Lemma hoare_total_modify P f (Q : unit -> _ -> Prop) :
  (forall s, P s -> Q tt (f s)) -> hoare_total P (modify f) Q.
Proof. intros H s Hs. exists tt, (f s). split; [reflexivity|auto]. Qed.

Lemma hoare_total_bind {A B} P (R : A -> _ -> Prop) (Q : B -> _ -> Prop)
  (m : M A) (k : A -> M B) :
  hoare_total P m R -> (forall a, hoare_total (R a) (k a) Q) ->
  hoare_total P (bind m k) Q.
Proof.
  intros Hm Hk s Hs. destruct (Hm s Hs) as (a & s1 & E & HR).
  destruct (Hk a s1 HR) as (b & s2 & E2 & HQ).
  exists b, s2. split; [|exact HQ]. unfold bind. rewrite E. exact E2.
Qed.

Lemma hoare_total_get_bind {A} P (Q : A -> _ -> Prop)
  (k : Frpg2ReliableUdpPacketStream -> M A) :
  (forall s0, hoare_total (fun s => P s /\ s = s0) (k s0) Q) ->
  hoare_total P (bind get k) Q.
Proof. intros H s Hs. rewrite bind_get. apply (H s s). auto. Qed.

Lemma Sequenced_not_Unset Packet :
  Sequenced Packet -> opcode_eqb (opcode (Header Packet)) Unset = false.
Proof. unfold Sequenced. destruct (opcode (Header Packet)); cbn; congruence. Qed.

Lemma SendRaw_Sequenced Packet :
  Sequenced Packet ->
  hoare_total WellFormed (SendRaw wire Packet) (fun _ => WellFormed).
Proof.
  intros H. apply hoare_total_intro.
  - apply SendRaw_total. apply Sequenced_not_Unset. exact H.
  - apply SendRaw_keeps; wf.
Qed.

Lemma WellFormed_cursor now Index Packet s :
  WellFormed s -> Sequenced Packet ->
  WellFormed
    (set_RetransmissionTimer now
       (set_RetransmitPacket Packet
          (set_RetransmittingIndex Index (set_IsRetransmitting true s)))).
Proof. intros Hs Hp. wf. intros _. exact Hp. Qed.

Lemma HandleOutgoing_scan_WellFormed now CurrentTime buffer :
  Forall Sequenced buffer ->
  hoare_total WellFormed (HandleOutgoing_scan cfg wire now CurrentTime buffer)
    (fun _ => WellFormed).
Proof.
  induction buffer as [|Packet rest IH]; intros Hb; cbn [HandleOutgoing_scan].
  - apply hoare_total_ret. auto.
  - inversion Hb as [|? ? Hp Hrest]; subst.
    unfold GetAckCounters. cbv iota beta.
    apply hoare_total_bind with (R := fun _ => WellFormed);
      [|intros ?; apply IH; exact Hrest].
    destruct (Qgtb _ _); [|apply hoare_total_ret; auto].
    apply hoare_total_bind with (R := fun _ => WellFormed);
      [apply SendRaw_Sequenced; exact Hp|intros ?].
    intros s Hs. exists tt. eexists. split; [reflexivity|].
    apply WellFormed_cursor; assumption.
Qed.

Lemma HandleOutgoing_send_WellFormed fuel :
  hoare_total WellFormed (HandleOutgoing_send cfg wire fuel) (fun _ => WellFormed).
Proof.
  induction fuel as [|fuel IH]; cbn [HandleOutgoing_send];
    [apply hoare_total_ret; auto|].
  apply hoare_total_get_bind. intros s0.
  destruct (SendQueue s0) as [|Packet rest] eqn:Hq;
    [apply hoare_total_ret; intros s [Hs _]; exact Hs|].
  destruct (negb (IsRetransmitting s0) && _);
    [|apply hoare_total_ret; intros s [Hs _]; exact Hs].
  apply hoare_total_bind with (R := fun _ s => WellFormed s /\ Sequenced Packet).
  { apply hoare_total_modify. intros s [Hs ->].
    assert (Hp : Forall Sequenced (Packet :: rest))
      by (rewrite <- Hq; apply Hs).
    inversion Hp; subst. split; [|assumption]. wf. }
  intros ?.
  apply hoare_total_bind with (R := fun _ s => WellFormed s /\ Sequenced Packet).
  { apply hoare_total_modify. intros s [Hs Hp]. split; [|exact Hp]. wf.
    apply Forall_snoc; assumption. }
  intros ?.
  apply hoare_total_bind with (R := fun _ => WellFormed); [|intros ?; exact IH].
  intros s [Hs Hp]. apply SendRaw_Sequenced; assumption.
Qed.

Lemma HandleOutgoing_hoare_total now :
  hoare_total WellFormed (HandleOutgoing cfg wire now) (fun _ => WellFormed).
Proof.
  unfold HandleOutgoing.
  apply hoare_total_bind with (R := fun _ => WellFormed);
    [apply hoare_total_modify; wf|intros ?].
  apply hoare_total_get_bind. intros s0.
  apply hoare_total_bind with (R := fun _ => WellFormed).
  - destruct (IsRetransmitting s0) eqn:Hr; cbn [negb].
    + destruct (_ || _); [apply hoare_total_modify; intros s [Hs _]; wf|].
      destruct (Qgtb _ _); [|apply hoare_total_ret; intros s [Hs _]; exact Hs].
      apply hoare_total_bind with (R := fun _ s => WellFormed s /\ WellFormed s0).
      { apply hoare_total_modify. intros s [Hs ->]. split; [wf|exact Hs]. }
      intros ?.
      apply hoare_total_bind with (R := fun _ => WellFormed);
        [|intros ?; apply hoare_total_ret; auto].
      intros s [Hs Hs0]. apply SendRaw_Sequenced; [|exact Hs].
      apply Hs0. exact Hr.
    + intros s [Hs ->]. apply HandleOutgoing_scan_WellFormed; [|exact Hs].
      apply Hs.
  - intros ?. apply hoare_total_get_bind. intros s1.
    intros s [Hs _]. apply HandleOutgoing_send_WellFormed. exact Hs.
Qed.

Lemma HandleOutgoing_WellFormed now :
  keeps WellFormed (HandleOutgoing cfg wire now).
Proof. apply hoare_total_hoare. apply HandleOutgoing_hoare_total. Qed.

Lemma local_acks_tl Queue : local_acks (tl Queue) = tl (local_acks Queue).
Proof. destruct Queue; reflexivity. Qed.

Lemma local_acks_snoc Queue Packet :
  local_acks (Queue ++ [Packet]) = local_acks Queue ++ [local_ack (Header Packet)].
Proof. unfold local_acks. rewrite map_app. reflexivity. Qed.

Lemma HandleIncomingPacket_WellFormed now Packet :
  keeps WellFormed (HandleIncomingPacket cfg wire now Packet).
Proof.
  unfold HandleIncomingPacket.
  apply keeps_bind; [apply keeps_modify; wf|intros ?].
  unfold GetAckCounters. cbv iota beta.
  destruct (IsOpcodeSequenced (opcode (Header Packet))) eqn:Hop;
    [|apply ProcessPacket_WellFormed].
  apply hoare_get_bind. intros s0.
  destruct (negb (state_eqb (State s0) Established));
    [apply hoare_modify; intros s [Hs _]; wf|].
  destruct (GetPacketIndexByLocalSequence (PendingRecieveQueue s0)
              (local_ack (Header Packet)) >=? 0) eqn:Hidx;
    destruct (negb (local_ack (Header Packet) =? GetNextRemoteSequenceIndex s0));
    cbv iota; cbn [andb negb].
  1-3: destruct (Qgtb _ _);
       [eapply hoare_weaken;
        [apply Send_ACK_WellFormed|intros s [Hs _]; exact Hs|auto]
       |apply hoare_ret; intros s [Hs _]; exact Hs].
  apply hoare_modify. intros s [Hs ->].
  apply GetPacketIndexByLocalSequence_absent in Hidx.
  wf.
  - rewrite local_acks_snoc. apply NoDup_snoc; assumption.
  - apply Forall_snoc; assumption.
Qed.
#[local] Hint Resolve HandleIncomingPacket_WellFormed : keeps.

Lemma DecodeReliablePacket_WellFormed Input Output :
  keeps WellFormed (DecodeReliablePacket wire Input Output).
Proof. apply DecodeReliablePacket_keeps; wf. Qed.
#[local] Hint Resolve DecodeReliablePacket_WellFormed : keeps.

Lemma HandleIncoming_recieve_WellFormed now fuel :
  keeps WellFormed (HandleIncoming_recieve cfg wire now fuel).
Proof.
  induction fuel as [|fuel IH]; cbn [HandleIncoming_recieve].
  - apply keeps_ret.
  - unfold Frpg2UdpPacketStream_Recieve. keeps_auto.
Qed.

Lemma WellFormed_pop s :
  WellFormed s ->
  WellFormed (set_PendingRecieveQueue (tl (PendingRecieveQueue s)) s).
Proof. intros Hs. wf. rewrite local_acks_tl. apply NoDup_tl. assumption. Qed.

Lemma HandleIncoming_pending_WellFormed now fuel :
  keeps WellFormed (HandleIncoming_pending cfg wire now fuel).
Proof.
  induction fuel as [|fuel IH]; cbn [HandleIncoming_pending].
  - apply keeps_ret.
  - apply keeps_get_bind. intros s0.
    destruct (PendingRecieveQueue s0); [apply keeps_ret|].
    unfold GetAckCounters. cbv iota beta.
    destruct (_ =? _); [|apply keeps_ret].
    apply keeps_bind; [apply ProcessPacket_WellFormed|intros ?].
    apply keeps_bind; [apply keeps_modify; apply WellFormed_pop|intros ?].
    apply keeps_bind; [apply keeps_modify; wf|intros ?; exact IH].
Qed.

Lemma HandleIncoming_WellFormed now :
  keeps WellFormed (HandleIncoming cfg wire now).
Proof.
  unfold HandleIncoming.
  apply keeps_get_bind. intros s0.
  apply keeps_bind; [apply HandleIncoming_recieve_WellFormed|intros ?].
  apply keeps_get_bind. intros s1. apply HandleIncoming_pending_WellFormed.
Qed.

Lemma Pump_WellFormed now : keeps WellFormed (Pump cfg wire now).
Proof.
  unfold Pump, Frpg2UdpPacketStream_Pump.
  apply keeps_get_bind. intros s0.
  apply keeps_bind.
  { destruct (_ && _); [apply keeps_modify; wf|apply keeps_ret]. }
  intros ?. apply keeps_get_bind. intros s1.
  destruct (state_eqb (State s1) Closed).
  { apply keeps_bind; [apply keeps_modify; apply Reset_WellFormed|].
    intros ?. apply keeps_ret. }
  apply keeps_bind; [apply keeps_modify; wf|intros ?].
  destruct (PumpFatal (Udp s1)); [apply keeps_ret|].
  apply keeps_bind.
  { destruct (state_eqb (State s1) Connecting); [|apply keeps_ret].
    destruct (Qgtb _ _); [|apply keeps_ret].
    apply keeps_bind; [apply Send_SYN_WellFormed|intros ?].
    apply keeps_modify; wf. }
  intros ?. apply keeps_get_bind. intros s2.
  destruct (_ && _).
  { apply keeps_bind; [apply keeps_modify; wf|intros ?; apply keeps_ret]. }
  apply keeps_bind; [apply HandleIncoming_WellFormed|intros ?].
  apply keeps_bind; [apply HandleOutgoing_WellFormed|intros ?; apply keeps_ret].
Qed.

Lemma run_WellFormed op : keeps WellFormed (run cfg wire op).
Proof.
  destruct op; cbn [run].
  - apply keeps_bind; [apply Send_WellFormed|intros ?; apply keeps_ret].
  - apply keeps_bind; [apply Recieve_WellFormed|intros ?; apply keeps_ret].
  - apply Connect_WellFormed.
  - apply Disconnect_WellFormed.
  - apply keeps_bind; [apply Pump_WellFormed|intros ?; apply keeps_ret].
  - apply HandledPacket_WellFormed.
  - apply HandleIncoming_WellFormed.
  - apply HandleOutgoing_WellFormed.
  - apply HandleIncomingPacket_WellFormed.
  - apply ProcessPacket_WellFormed.
  - apply keeps_modify. apply Reset_WellFormed.
  - apply keeps_modify. wf.
Qed.

Lemma Runs_WellFormed s s' :
  Runs cfg wire s s' -> WellFormed s -> WellFormed s'.
Proof.
  intros H. induction H as [s|op s s1 s2 E _ IH]; intros Hs; [exact Hs|].
  apply IH. exact (keeps_done WellFormed (run cfg wire op) s tt s1
                     (run_WellFormed op) Hs E).
Qed.

End WellFormedness.

(** ** Sending leaves the inbound datagrams alone *)

Section InboundKept.

Variable cfg : BuildConfig.
Variable wire : WireLayout.
Variable Q : list Frpg2UdpPacket -> Prop.

Let P (s : Frpg2ReliableUdpPacketStream) : Prop := Q (Inbound (Udp s)).

#[local] Hint Extern 1 (P _) =>
  unfold P, Reset in *; members; assumption : keeps.

Lemma SendRaw_Inbound Input : keeps P (SendRaw wire Input).
Proof.
  unfold SendRaw. apply keeps_bind; [apply keeps_Ensure|intros ?].
  apply hoare_get_bind. intros s0.
  unfold EncodeReliablePacket, Frpg2UdpPacketStream_Send. cbn [negb].
  destruct (SendFails (Udp s0));
    (eapply hoare_bind with (R := fun _ => P);
     [apply hoare_modify; intros s [Hs ->]; unfold P in *; members; exact Hs
     |intros ?; cbn [negb];
      match goal with |- hoare ?P0 ?m _ => change (keeps P0 m) end;
      keeps_auto]).
Qed.
#[local] Hint Resolve SendRaw_Inbound : keeps.

Lemma Send_Inbound now Input : keeps P (Send wire now Input).
Proof. unfold Send. keeps_auto. Qed.
#[local] Hint Resolve Send_Inbound : keeps.

Lemma Send_SYN_Inbound now : keeps P (Send_SYN wire now).
Proof. unfold Send_SYN. keeps_auto. Qed.

Lemma Send_ACK_Inbound now RemoteIndex : keeps P (Send_ACK wire now RemoteIndex).
Proof. unfold Send_ACK. keeps_auto. Qed.
#[local] Hint Resolve Send_ACK_Inbound : keeps.

Lemma UpdateSequenceIndexAcked_Inbound InRemoteAck :
  keeps P (UpdateSequenceIndexAcked InRemoteAck).
Proof.
  unfold UpdateSequenceIndexAcked. apply keeps_modify. intros s Hs.
  destruct (_ && _); unfold P in *; members; exact Hs.
Qed.
#[local] Hint Resolve UpdateSequenceIndexAcked_Inbound : keeps.

Lemma ProcessPacket_Inbound now Packet :
  keeps P (ProcessPacket cfg wire now Packet).
Proof.
  unfold ProcessPacket.
  destruct (opcode (Header Packet));
    unfold Handle_SYN, Handle_SYN_ACK, Handle_DAT, Handle_HBT, Handle_FIN,
      Handle_RST, Handle_ACK, Handle_RACK, Handle_DAT_ACK, Handle_FIN_ACK,
      Send_SYN_ACK, Send_HBT, Send_FIN_ACK;
    keeps_auto.
Qed.
#[local] Hint Resolve ProcessPacket_Inbound : keeps.

Lemma HandleIncomingPacket_Inbound now Packet :
  keeps P (HandleIncomingPacket cfg wire now Packet).
Proof. unfold HandleIncomingPacket. keeps_auto. Qed.

Lemma DecodeReliablePacket_Inbound Input Output :
  keeps P (DecodeReliablePacket wire Input Output).
Proof. unfold DecodeReliablePacket. keeps_auto. Qed.

#[local] Hint Resolve HandleIncomingPacket_Inbound DecodeReliablePacket_Inbound
  : keeps.

Lemma HandleIncoming_recieve_one_Inbound now Packet :
  keeps P (HandleIncoming_recieve_one cfg wire now Packet).
Proof. unfold HandleIncoming_recieve_one. keeps_auto. Qed.

Lemma HandleIncoming_pending_Inbound now fuel :
  keeps P (HandleIncoming_pending cfg wire now fuel).
Proof.
  induction fuel as [|fuel IH]; cbn [HandleIncoming_pending].
  - apply keeps_ret.
  - keeps_auto.
Qed.

End InboundKept.

(** ** When a tick returns *)

Lemma bind_assoc {A B C} (m : M A) (k : A -> M B) (k' : B -> M C) s :
  bind (bind m k) k' s = bind m (fun x => bind (k x) k') s.
Proof. unfold bind. destruct (m s) as [[a s1]|]; reflexivity. Qed.

Lemma bind_ext {A B} (m : M A) (k1 k2 : A -> M B) s :
  (forall a s1, k1 a s1 = k2 a s1) -> bind m k1 s = bind m k2 s.
Proof. intros H. unfold bind. destruct (m s) as [[a s1]|]; [apply H|reflexivity]. Qed.

Lemma bind_Ensure_true {A} (k : unit -> M A) s : bind (Ensure true) k s = k tt s.
Proof. reflexivity. Qed.

Lemma keeps_conj {A} (P1 P2 : _ -> Prop) (m : M A) :
  keeps P1 m -> keeps P2 m -> keeps (fun s => P1 s /\ P2 s) m.
Proof.
  intros H1 H2 s [Hs1 Hs2]. specialize (H1 s Hs1). specialize (H2 s Hs2).
  destruct (m s) as [[a s1]|]; [split; assumption|exact I].
Qed.

Lemma opcode_known_handled o :
  opcode_known o = true ->
  match o with
  | Unset | UnknownOpCode _ => False
  | _ => True
  end.
Proof. destruct o; cbn; intros H; try exact I; discriminate H. Qed.

Lemma Sequenced_known Packet :
  Sequenced Packet -> opcode_known (opcode (Header Packet)) = true.
Proof. unfold Sequenced. destruct (opcode (Header Packet)); cbn; congruence. Qed.

Section Returns.

Variable cfg : BuildConfig.
Variable wire : WireLayout.
Hypothesis START_SEQUENCE_INDEX_range :
  0 <= START_SEQUENCE_INDEX cfg < MAX_ACK_VALUE.

Lemma HandleIncoming_recieve_step now fuel s d rest :
  Inbound (Udp s) = d :: rest ->
  HandleIncoming_recieve cfg wire now (S fuel) s
  = bind (HandleIncoming_recieve_one cfg wire now d)
         (fun _ => HandleIncoming_recieve cfg wire now fuel) (Inbound_popped s).
Proof.
  intros Hin. cbn [HandleIncoming_recieve]. rewrite bind_get.
  unfold Frpg2UdpPacketStream_Recieve. rewrite Hin, bind_modify.
  unfold Inbound_popped. rewrite Hin. cbn [tl].
  unfold HandleIncoming_recieve_one. fold (without_InitialData wire d).
  rewrite bind_assoc. apply bind_ext. intros [Decoded p] s1.
  destruct Decoded; reflexivity.
Qed.

Lemma HandleIncomingPacket_total now Packet :
  opcode_known (opcode (Header Packet)) = true ->
  total (HandleIncomingPacket cfg wire now Packet).
Proof.
  intros H. unfold HandleIncomingPacket. total_auto.
  - apply Send_ACK_total.
  - apply ProcessPacket_total. apply opcode_known_handled. exact H.
Qed.

Lemma HandleIncoming_recieve_one_keeps now d l :
  keeps (fun s => WellFormed s /\ Inbound (Udp s) = l)
    (HandleIncoming_recieve_one cfg wire now d).
Proof.
  apply keeps_conj.
  - unfold HandleIncoming_recieve_one.
    apply keeps_bind; [apply DecodeReliablePacket_WellFormed|intros [Decoded p]].
    destruct Decoded; cbn [negb];
      [apply HandleIncomingPacket_WellFormed; assumption
      |apply keeps_modify; wf].
  - apply (HandleIncoming_recieve_one_Inbound cfg wire (fun i => i = l)).
Qed.

Lemma HandleIncoming_recieve_one_total now d :
  Acceptable wire d = true ->
  total (HandleIncoming_recieve_one cfg wire now d).
Proof.
  unfold Acceptable, HandleIncoming_recieve_one, DecodeReliablePacket.
  cbv zeta. intros H.
  destruct (length (UdpPayload (without_InitialData wire d))
            <? sizeof_Frpg2ReliableUdpPacketHeader)%nat.
  - intros s. rewrite bind_assoc, bind_modify, bind_ret. cbn [negb].
    do 2 eexists. reflexivity.
  - cbn [orb] in H. apply andb_prop in H. destruct H as [Hmagic Hop].
    rewrite Hmagic. intros s. rewrite bind_assoc, bind_Ensure_true, bind_ret.
    cbn [negb]. apply HandleIncomingPacket_total. exact Hop.
Qed.

Lemma HandleIncoming_recieve_one_stops now d s :
  Acceptable wire d = false ->
  HandleIncoming_recieve_one cfg wire now d s = EnsureFailed.
Proof.
  unfold Acceptable, HandleIncoming_recieve_one, DecodeReliablePacket.
  cbv zeta. intros H.
  apply orb_false_elim in H. destruct H as [Hlen H]. rewrite Hlen.
  destruct (Byte.eqb _ xf5 && Byte.eqb _ x02); [|reflexivity].
  cbn [andb] in H.
  unfold bind, Ensure, ret. cbn [negb].
  unfold HandleIncomingPacket, GetAckCounters, bind, modify, ProcessPacket.
  cbn [Header].
  destruct (opcode _); cbn in H; try discriminate H; reflexivity.
Qed.

(** The first loop of [HandleIncoming] takes every datagram, or stops at the
    first one that is not acceptable. *)
Lemma HandleIncoming_recieve_loop now l : forall s,
  WellFormed s -> Inbound (Udp s) = l ->
  if forallb (Acceptable wire) l
  then exists s',
         HandleIncoming_recieve cfg wire now (length l) s = Done (tt, s')
         /\ WellFormed s' /\ Inbound (Udp s') = []
  else HandleIncoming_recieve cfg wire now (length l) s = EnsureFailed.
Proof.
  induction l as [|d rest IH]; intros s Hs Hin.
  - cbn. exists s. auto.
  - cbn [length forallb].
    rewrite (HandleIncoming_recieve_step now (length rest) s d rest Hin).
    destruct (Acceptable wire d) eqn:Hd; cbn [andb].
    + assert (Hp : WellFormed (Inbound_popped s)
                   /\ Inbound (Udp (Inbound_popped s)) = rest).
      { split; [unfold Inbound_popped; wf|].
        unfold Inbound_popped. members. rewrite Hin. reflexivity. }
      destruct (total_hoare _ _ _ (Inbound_popped s)
                  (HandleIncoming_recieve_one_total now d Hd)
                  (HandleIncoming_recieve_one_keeps now d rest) Hp)
        as ([] & s1 & E & Hs1 & Hin1).
      unfold bind. rewrite E. apply IH; assumption.
    + unfold bind. rewrite HandleIncoming_recieve_one_stops by exact Hd.
      reflexivity.
Qed.

Lemma HandleIncoming_pending_hoare_total now fuel :
  hoare_total WellFormed (HandleIncoming_pending cfg wire now fuel)
    (fun _ => WellFormed).
Proof.
  induction fuel as [|fuel IH]; cbn [HandleIncoming_pending];
    [apply hoare_total_ret; auto|].
  apply hoare_total_get_bind. intros s0.
  destruct (PendingRecieveQueue s0) as [|Next rest] eqn:Hq;
    [apply hoare_total_ret; intros s [Hs _]; exact Hs|].
  unfold GetAckCounters. cbv iota beta.
  destruct (_ =? _); [|apply hoare_total_ret; intros s [Hs _]; exact Hs].
  apply hoare_total_bind with (R := fun _ => WellFormed).
  { intros s [Hs ->].
    assert (Hn : Forall Sequenced (Next :: rest)) by (rewrite <- Hq; apply Hs).
    inversion Hn; subst.
    refine (hoare_total_intro WellFormed _ (fun _ => WellFormed) _ _ s0 Hs).
    - apply ProcessPacket_total. apply opcode_known_handled.
      apply Sequenced_known. assumption.
    - apply ProcessPacket_WellFormed. assumption. }
  intros ?.
  apply hoare_total_bind with (R := fun _ => WellFormed);
    [apply hoare_total_modify; apply WellFormed_pop|intros ?].
  apply hoare_total_bind with (R := fun _ => WellFormed);
    [apply hoare_total_modify; wf|intros ?; exact IH].
Qed.

Lemma HandleIncoming_outcome now s :
  WellFormed s ->
  if forallb (Acceptable wire) (Inbound (Udp s))
  then exists s', HandleIncoming cfg wire now s = Done (tt, s') /\ WellFormed s'
  else HandleIncoming cfg wire now s = EnsureFailed.
Proof.
  intros Hs. unfold HandleIncoming. rewrite bind_get.
  pose proof (HandleIncoming_recieve_loop now (Inbound (Udp s)) s Hs eq_refl) as H.
  destruct (forallb _ _).
  - destruct H as (s1 & E & Hs1 & _). unfold bind at 1. rewrite E.
    rewrite bind_get.
    destruct (HandleIncoming_pending_hoare_total now
                (length (PendingRecieveQueue s1)) s1 Hs1) as ([] & s2 & E2 & Hs2).
    exists s2. split; assumption.
  - unfold bind at 1. rewrite H. reflexivity.
Qed.

Lemma Pump_hoare_total now :
  hoare_total
    (fun s => WellFormed s /\ forallb (Acceptable wire) (Inbound (Udp s)) = true)
    (Pump cfg wire now) (fun _ => WellFormed).
Proof.
  set (P := fun s => WellFormed s
                     /\ forallb (Acceptable wire) (Inbound (Udp s)) = true).
  assert (HP : forall s, P s -> WellFormed s) by (intros s [H _]; exact H).
  unfold Pump, Frpg2UdpPacketStream_Pump.
  apply hoare_total_get_bind. intros s0.
  apply hoare_total_bind with (R := fun _ => P).
  { destruct (_ && _);
      [apply hoare_total_modify|apply hoare_total_ret];
      intros s [[Hs Hin] _]; split; [wf| |exact Hs|]; exact Hin. }
  intros ?. apply hoare_total_get_bind. intros s1.
  destruct (state_eqb (State s1) Closed).
  { apply hoare_total_bind with (R := fun _ => WellFormed);
      [|intros ?; apply hoare_total_ret; auto].
    apply hoare_total_modify. intros s [[Hs _] _].
    apply Reset_WellFormed; assumption. }
  apply hoare_total_bind with (R := fun _ => P).
  { apply hoare_total_modify. intros s [[Hs Hin] ->]. split; [wf|exact Hin]. }
  intros ?.
  destruct (PumpFatal (Udp s1)); [apply hoare_total_ret; exact HP|].
  apply hoare_total_bind with (R := fun _ => P).
  { destruct (state_eqb (State s1) Connecting);
      [|apply hoare_total_ret; auto].
    destruct (Qgtb _ _); [|apply hoare_total_ret; auto].
    apply hoare_total_bind with (R := fun _ => P).
    - apply hoare_total_intro; [apply Send_SYN_total|].
      apply keeps_conj; [apply Send_SYN_WellFormed|].
      apply (Send_SYN_Inbound wire
               (fun i => forallb (Acceptable wire) i = true)).
    - intros ?. apply hoare_total_modify. intros s [Hs Hin].
      split; [wf|exact Hin]. }
  intros ?. apply hoare_total_get_bind. intros s2.
  destruct (_ && _).
  { apply hoare_total_bind with (R := fun _ => WellFormed);
      [|intros ?; apply hoare_total_ret; auto].
    apply hoare_total_modify. intros s [[Hs _] _]. wf. }
  apply hoare_total_bind with (R := fun _ => WellFormed).
  { intros s [[Hs Hin] _].
    pose proof (HandleIncoming_outcome now s Hs) as H. rewrite Hin in H.
    destruct H as (s' & E & Hs'). exists tt, s'. split; assumption. }
  intros ?.
  apply hoare_total_bind with (R := fun _ => WellFormed);
    [apply HandleOutgoing_hoare_total|intros ?; apply hoare_total_ret; auto].
Qed.

End Returns.

(** Proves [WellFormed] of a stream given by its members. *)
Ltac well_formed_sample :=
  unfold WellFormed;
  refine (conj (conj _ _) (conj _ (conj _ (conj _ (conj _ _)))));
  [ apply Z.leb_le; vm_compute; reflexivity
  | apply Z.ltb_lt; vm_compute; reflexivity
  | vm_compute; repeat constructor
  | vm_compute; repeat constructor
  | vm_compute; repeat constructor
  | vm_compute; repeat constructor
  | vm_compute; first [discriminate | intros _; reflexivity] ].

(** X16.  The stream keeps its queues well formed.  When the first sequence
    index is one of the [2^24] values a header can carry and the stream is
    constructed outside retransmit mode, then after any sequence of
    operations that return (send, receive, connect, disconnect, tick and its
    two halves, the processing of a received packet, reset, and the layer
    below changing between calls): [SequenceIndex] is below [MAX_ACK_VALUE],
    no two packets of the pending queue carry the same local sequence index,
    the pending queue, the send queue and the retransmit buffer hold only
    packets with a sequenced opcode, and so does the retransmit cursor while
    the stream is retransmitting. *)
Theorem WellFormed_invariant
  (cfg : BuildConfig) (wire : WireLayout)
  (members s : Frpg2ReliableUdpPacketStream) :
  0 <= START_SEQUENCE_INDEX cfg < MAX_ACK_VALUE ->
  IsRetransmitting members = false ->
  Runs cfg wire (new_Frpg2ReliableUdpPacketStream cfg members) s ->
  WellFormed s.
Proof.
  intros Hrange Hr Hruns.
  apply (Runs_WellFormed cfg wire Hrange _ s Hruns).
  unfold new_Frpg2ReliableUdpPacketStream, Reset, WellFormed. members.
  refine (conj Hrange (conj _ (conj _ (conj _ (conj _ _)))));
    try constructor.
  rewrite Hr. discriminate.
Qed.

Lemma WellFormed_invariant_witness : WellFormed sample_in_flight.
Proof.
  refine (WellFormed_invariant sample_config sample_wire sample_members
            sample_in_flight _ _ _).
  - split; [apply Z.leb_le|apply Z.ltb_lt]; vm_compute; reflexivity.
  - reflexivity.
  - refine (Runs_more sample_config sample_wire
              (Op_Send 0 (sample_packet DAT 0 0)) _
              (match Send sample_wire 0 (sample_packet DAT 0 0) sample_stream with
               | Done (_, s) => s
               | EnsureFailed => sample_stream
               end) sample_in_flight _ _).
    + vm_compute. reflexivity.
    + refine (Runs_more sample_config sample_wire (Op_Pump 0) _
                sample_in_flight sample_in_flight _
                (Runs_none sample_config sample_wire sample_in_flight)).
      vm_compute. reflexivity.
Defined.

(** X17.  On a well-formed stream [HandleOutgoing] always returns: none of the
    [SendRaw] calls it makes, for a stale packet, for the retransmit cursor or
    for a packet leaving the send queue, stops at the [Ensure] on the opcode.
    The stream it leaves is well formed again. *)
Theorem HandleOutgoing_returns
  (cfg : BuildConfig) (wire : WireLayout) (now : Q)
  (s : Frpg2ReliableUdpPacketStream) :
  WellFormed s ->
  exists s', HandleOutgoing cfg wire now s = Done (tt, s') /\ WellFormed s'.
Proof.
  intros Hs.
  destruct (HandleOutgoing_hoare_total cfg wire now s Hs) as ([] & s' & E & Hs').
  exists s'. split; assumption.
Qed.

Lemma HandleOutgoing_returns_witness :
  exists s',
    HandleOutgoing sample_config sample_wire 2 sample_in_flight = Done (tt, s')
    /\ WellFormed s'.
Proof.
  refine (HandleOutgoing_returns sample_config sample_wire 2 sample_in_flight _).
  well_formed_sample.
Defined.

(** X18.  On a well-formed stream [HandleIncoming] returns exactly when every
    datagram waiting in the layer below is acceptable: too short to hold a
    header (it is flagged and skipped), or starting with the magic bytes and
    carrying an opcode that has a handler.  Any other datagram stops the call
    at an [Ensure]. *)
Theorem HandleIncoming_returns_iff
  (cfg : BuildConfig) (wire : WireLayout) (now : Q)
  (s : Frpg2ReliableUdpPacketStream) :
  0 <= START_SEQUENCE_INDEX cfg < MAX_ACK_VALUE ->
  WellFormed s ->
  (exists s', HandleIncoming cfg wire now s = Done (tt, s'))
  <-> forallb (Acceptable wire) (Inbound (Udp s)) = true.
Proof.
  intros Hrange Hs.
  pose proof (HandleIncoming_outcome cfg wire Hrange now s Hs) as H.
  destruct (forallb _ _).
  - destruct H as (s' & E & _). split; [reflexivity|]. intros _. exists s'. exact E.
  - split; [|discriminate]. intros (s' & E). rewrite H in E. discriminate E.
Qed.

Lemma HandleIncoming_returns_iff_witness :
  (exists s',
     HandleIncoming sample_config sample_wire 0
       (with_Inbound [sample_SYN_datagram; bad_magic_datagram] sample_stream)
     = Done (tt, s'))
  <-> forallb (Acceptable sample_wire)
        (Inbound (Udp (with_Inbound [sample_SYN_datagram; bad_magic_datagram]
                         sample_stream))) = true.
Proof.
  refine (HandleIncoming_returns_iff sample_config sample_wire 0
            (with_Inbound [sample_SYN_datagram; bad_magic_datagram] sample_stream)
            _ _).
  - split; [apply Z.leb_le|apply Z.ltb_lt]; vm_compute; reflexivity.
  - well_formed_sample.
Defined.

(** X19.  A tick on a well-formed stream whose waiting datagrams are all
    acceptable returns, and leaves the stream well formed. *)
Theorem Pump_returns
  (cfg : BuildConfig) (wire : WireLayout) (now : Q)
  (s : Frpg2ReliableUdpPacketStream) :
  0 <= START_SEQUENCE_INDEX cfg < MAX_ACK_VALUE ->
  WellFormed s ->
  forallb (Acceptable wire) (Inbound (Udp s)) = true ->
  exists r s', Pump cfg wire now s = Done (r, s') /\ WellFormed s'.
Proof.
  intros Hrange Hs Hin.
  exact (Pump_hoare_total cfg wire Hrange now s (conj Hs Hin)).
Qed.

Lemma Pump_returns_witness :
  exists r s',
    Pump sample_config sample_wire 0
      (with_Inbound [sample_SYN_datagram; sample_datagram ACK 0 1] sample_stream)
    = Done (r, s')
    /\ WellFormed s'.
Proof.
  refine (Pump_returns sample_config sample_wire 0
            (with_Inbound [sample_SYN_datagram; sample_datagram ACK 0 1]
               sample_stream) _ _ _).
  - split; [apply Z.leb_le|apply Z.ltb_lt]; vm_compute; reflexivity.
  - well_formed_sample.
  - vm_compute. reflexivity.
Defined.

(** ** What a tick does to the packets waiting to leave *)

Section Outgoing.

Variable cfg : BuildConfig.
Variable wire : WireLayout.

Lemma HandleOutgoing_send_conserves fuel L :
  keeps (fun s => RetransmitBuffer s ++ SendQueue s = L)
    (HandleOutgoing_send cfg wire fuel).
Proof.
  induction fuel as [|fuel IH]; cbn [HandleOutgoing_send]; [apply keeps_ret|].
  apply hoare_get_bind. intros s0.
  destruct (SendQueue s0) as [|Packet rest] eqn:Hq;
    [apply hoare_ret; intros s [Hs _]; exact Hs|].
  destruct (negb (IsRetransmitting s0) && _);
    [|apply hoare_ret; intros s [Hs _]; exact Hs].
  eapply hoare_bind
    with (R := fun _ s => RetransmitBuffer s ++ Packet :: SendQueue s = L).
  { apply hoare_modify. intros s [Hs ->]. members. rewrite <- Hq. exact Hs. }
  intros ?.
  eapply hoare_bind
    with (R := fun _ s => RetransmitBuffer s ++ SendQueue s = L).
  { apply hoare_modify. intros s Hs. members. rewrite <- app_assoc. exact Hs. }
  intros ?. apply keeps_bind; [apply SendRaw_keeps; stable|intros ?; exact IH].
Qed.

Lemma HandleOutgoing_conserves_hoare now s0 :
  hoare (fun s => s = s0) (HandleOutgoing cfg wire now)
    (fun _ s =>
       RetransmitBuffer s ++ SendQueue s
       = filter (fun Packet =>
                   negb (HandleOutgoing_acknowledged (SequenceIndexAcked s0) Packet))
           (RetransmitBuffer s0) ++ SendQueue s0).
Proof.
  unfold HandleOutgoing.
  set (L := filter _ _ ++ SendQueue s0).
  eapply hoare_bind
    with (R := fun _ s => RetransmitBuffer s ++ SendQueue s = L);
    [apply hoare_modify; intros s ->; members; reflexivity|].
  intros ?.
  apply keeps_get_bind. intros s1.
  apply keeps_bind.
  { destruct (negb (IsRetransmitting s1)).
    - apply HandleOutgoing_scan_keeps; stable.
    - destruct (_ || _); [apply keeps_modify; stable|].
      destruct (Qgtb _ _); [|apply keeps_ret].
      apply keeps_bind; [apply keeps_modify; stable|intros ?].
      apply keeps_bind; [apply SendRaw_keeps; stable|intros ?; apply keeps_ret]. }
  intros ?. apply keeps_get_bind. intros s2. apply HandleOutgoing_send_conserves.
Qed.

End Outgoing.




(** ** From [Send] on one side to [Recieve] on the other *)

Lemma Send_Unset wire now Input s :
  opcode (Header Input) = Unset ->
  (remote_ack (Header Input) >? 0) = false ->
  State s <> Closing ->
  Send wire now Input s
  = Done (true,
          set_SendQueue (SendQueue s ++ [Packet_DAT now (SequenceIndex s) Input])
            (set_SequenceIndex (u32 (SequenceIndex s + 1) mod MAX_ACK_VALUE) s)).
Proof.
  intros Hop Hremote Hstate. unfold Send. rewrite bind_get.
  replace (state_eqb (State s) Closing) with false
    by (destruct (State s); try reflexivity; contradiction Hstate; reflexivity).
  rewrite Hop. cbn [IsOpcodeSequenced opcode_eqb orb set_SendTime Header opcode].
  rewrite Hop. cbn [opcode_eqb]. unfold GetAckCounters. rewrite Hremote.
  rewrite bind_ret, bind_modify, bind_modify. reflexivity.
Qed.

Lemma HandleOutgoing_sends_one cfg wire now p s :
  SendQueue s = [p] -> RetransmitBuffer s = [] -> IsRetransmitting s = false ->
  (0 < MAX_PACKETS_IN_FLIGHT cfg)%nat ->
  opcode (Header p) = DAT ->
  SendFails (Udp s) = false ->
  HandleOutgoing cfg wire now s
  = Done (tt,
          set_Udp (Udp_sent [Encoded wire p] (Udp s))
            (set_RetransmitBuffer [p]
               (set_SendQueue [] (set_RetransmitBuffer [] s)))).
Proof.
  intros Hq Hb Hr Hmax Hop Hsend.
  unfold HandleOutgoing. rewrite bind_modify, bind_get. members.
  rewrite Hr, Hb. cbn [negb filter HandleOutgoing_scan].
  rewrite bind_ret, bind_get. members. rewrite Hq.
  cbn [length HandleOutgoing_send]. rewrite bind_get. members.
  rewrite Hq, Hr. cbn [negb andb length].
  replace (0 <? MAX_PACKETS_IN_FLIGHT cfg)%nat with true
    by (symmetry; apply Nat.ltb_lt; exact Hmax).
  rewrite bind_modify, bind_modify. members. cbn [app].
  unfold bind. rewrite SendRaw_sent;
    [|rewrite Hop; reflexivity|members; exact Hsend].
  rewrite EncodeReliablePacket_not_SYN by (rewrite Hop; reflexivity).
  members. reflexivity.
Qed.

Lemma Decodes_Encoded wire p :
  length (BytesOfHeader wire (Header p)) = 12%nat ->
  nth 0 (BytesOfHeader wire (Header p)) x00 = xf5 ->
  nth 1 (BytesOfHeader wire (Header p)) x00 = x02 ->
  HeaderOfBytes wire (BytesOfHeader wire (Header p)) = Header p ->
  Decodes wire (Encoded wire p) (mkPacket (Header p) (Payload p) 0).
Proof.
  intros Hlen H0 H1 Hrt. unfold Decodes, Encoded. cbn [UdpPayload].
  repeat apply conj.
  - rewrite length_app. lia.
  - rewrite nth_app_left by lia. exact H0.
  - rewrite nth_app_left by lia. exact H1.
  - rewrite firstn_app, Hlen. rewrite firstn_all2 by lia.
    replace (12 - 12)%nat with 0%nat by lia. cbn [firstn]. rewrite app_nil_r, Hrt.
    rewrite skipn_app, Hlen. rewrite skipn_all2 by lia.
    replace (12 - 12)%nat with 0%nat by lia. reflexivity.
Qed.

(** X22.  What [Send] takes on one side, [Recieve] gives on the other.  A
    message handed to [Send] with opcode [Unset] on a stream with nothing in
    flight leaves with the next tick as a DAT that carries the sequence index
    of the stream, and stays in the retransmit buffer.  When the datagram
    reaches an established peer that expects this sequence index, the peer's
    [HandleIncoming] acknowledges it and [Recieve] returns the packet with the
    payload of the message, whenever the layout of the header struct is one
    that [memcpy] round-trips. *)
Theorem Send_reaches_Recieve
  (cfg : BuildConfig) (wire : WireLayout) (now now' : Q)
  (Input : Frpg2ReliableUdpPacket)
  (sender receiver : Frpg2ReliableUdpPacketStream) :
  let p := Packet_DAT now (SequenceIndex sender) Input in
  opcode (Header Input) = Unset ->
  (remote_ack (Header Input) >? 0) = false ->
  State sender <> Closing ->
  SendFails (Udp sender) = false ->
  SendQueue sender = [] ->
  RetransmitBuffer sender = [] ->
  IsRetransmitting sender = false ->
  (0 < MAX_PACKETS_IN_FLIGHT cfg)%nat ->
  length (BytesOfHeader wire (Header p)) = 12%nat ->
  nth 0 (BytesOfHeader wire (Header p)) x00 = xf5 ->
  nth 1 (BytesOfHeader wire (Header p)) x00 = x02 ->
  HeaderOfBytes wire (BytesOfHeader wire (Header p)) = Header p ->
  State receiver = Established ->
  SendFails (Udp receiver) = false ->
  PendingRecieveQueue receiver = [] ->
  RecieveQueue receiver = [] ->
  GetNextRemoteSequenceIndex receiver = SequenceIndex sender mod MAX_ACK_VALUE ->
  exists sender' receiver',
    (Send wire now Input ;; HandleOutgoing cfg wire now) sender
    = Done (tt, sender')
    /\ Sent (Udp sender') = Sent (Udp sender) ++ [Encoded wire p]
    /\ RetransmitBuffer sender' = [p]
    /\ (HandleIncoming cfg wire now' ;; Recieve)
         (with_Inbound [Encoded wire p] receiver)
       = Done (Some (mkPacket (Header p) (Payload Input) 0), receiver')
    /\ Sent (Udp receiver')
       = Sent (Udp receiver) ++ [Encoded_ACK wire (local_ack (Header p))]
    /\ RemoteSequenceIndex receiver' = SequenceIndex sender mod MAX_ACK_VALUE.
Proof.
  intros p Hop Hremote Hstate Hsend Hq Hb Hr Hmax Hlen H0 H1 Hrt
         Rstate Rsend Rpending Rqueue Rnext.
  destruct (HandleIncoming_in_sequence cfg wire now'
              (with_Inbound [Encoded wire p] receiver) (Encoded wire p)
              (mkPacket (Header p) (Payload p) 0))
    as (r1 & E & Hrq & _ & Hrsi & _ & _ & Hsent);
    try assumption; try reflexivity.
  { apply Decodes_Encoded; assumption. }
  { cbn [Header local_ack p Packet_DAT]. symmetry. exact Rnext. }
  unfold with_Inbound in Hrq, Hsent, Hrsi. members_in Hrq. members_in Hsent.
  unfold GetNextRemoteSequenceIndex in Hrsi. members_in Hrsi.
  fold (GetNextRemoteSequenceIndex receiver) in Hrsi.
  rewrite Rqueue in Hrq. cbn [app] in Hrq.
  eexists. exists (set_RecieveQueue [] r1). split.
  { unfold bind. rewrite Send_Unset by assumption. fold p.
    apply HandleOutgoing_sends_one; members; try assumption.
    - rewrite Hq. reflexivity.
    - reflexivity. }
  members. split; [reflexivity|]. split; [reflexivity|].
  split.
  { unfold bind. rewrite E. unfold Recieve. rewrite bind_get, Hrq, bind_modify.
    reflexivity. }
  split; [exact Hsent|].
  rewrite Hrsi. exact Rnext.
Qed.

Lemma Send_reaches_Recieve_witness :
  exists sender' receiver',
    (Send sample_wire 1 sample_message ;;
     HandleOutgoing sample_config sample_wire 1) sample_established
    = Done (tt, sender')
    /\ Sent (Udp sender')
       = Sent (Udp sample_established)
         ++ [Encoded sample_wire
               (Packet_DAT 1 (SequenceIndex sample_established) sample_message)]
    /\ RetransmitBuffer sender'
       = [Packet_DAT 1 (SequenceIndex sample_established) sample_message]
    /\ (HandleIncoming sample_config sample_wire 2 ;; Recieve)
         (with_Inbound
            [Encoded sample_wire
               (Packet_DAT 1 (SequenceIndex sample_established) sample_message)]
            sample_peer)
       = Done (Some (mkPacket
                       (Header (Packet_DAT 1 (SequenceIndex sample_established)
                                  sample_message))
                       (Payload sample_message) 0), receiver')
    /\ Sent (Udp receiver')
       = Sent (Udp sample_peer)
         ++ [Encoded_ACK sample_wire
               (local_ack
                  (Header (Packet_DAT 1 (SequenceIndex sample_established)
                             sample_message)))]
    /\ RemoteSequenceIndex receiver'
       = SequenceIndex sample_established mod MAX_ACK_VALUE.
Proof.
  refine (Send_reaches_Recieve sample_config sample_wire 1 2 sample_message
            sample_established sample_peer _ _ _ _ _ _ _ _ _ _ _ _ _ _ _ _ _);
    try (vm_compute; reflexivity).
  - vm_compute. discriminate.
  - apply Nat.ltb_lt. vm_compute. reflexivity.
Defined.

(** ** Acknowledgements *)

Lemma ProcessPacket_keeps_queues cfg wire now Packet (P : _ -> Prop) :
  opcode (Header Packet) = ACK \/ opcode (Header Packet) = HBT
  \/ opcode (Header Packet) = DAT_ACK ->
  (forall v s, P s -> P (set_Udp v s)) ->
  (forall v s, P s -> P (set_InErrorState v s)) ->
  (forall v s, P s -> P (set_State v s)) ->
  (forall v s, P s -> P (set_SequenceIndexAcked v s)) ->
  (forall v s, P s -> P (set_RemoteSequenceIndexAcked v s)) ->
  (forall v s, P s -> P (set_RecieveQueue v s)) ->
  (forall v s, P s -> P (set_LastAckSendTime v s)) ->
  keeps P (ProcessPacket cfg wire now Packet).
Proof.
  intros H ? ? ? ? ? ? ?. unfold ProcessPacket.
  destruct H as [H|[H|H]]; rewrite H.
  - apply Handle_ACK_keeps; auto.
  - apply Handle_HBT_keeps; auto.
  - apply Handle_DAT_ACK_keeps; auto.
Qed.

Lemma spec_modular_max_reaches x y : y <= spec_modular_max x y.
Proof. unfold spec_modular_max. destruct (_ && _); lia. Qed.

(** X23.  Acknowledgements are cumulative.  After an ACK, HBT or DAT_ACK has
    been processed, the next [HandleOutgoing] leaves in the retransmit buffer
    only packets that have just left the send queue, and packets that were in
    the buffer whose local sequence index is above the acknowledged one. *)
Theorem acknowledged_packets_leave
  (cfg : BuildConfig) (wire : WireLayout) (now now' : Q)
  (Ack : Frpg2ReliableUdpPacket) (s s' : Frpg2ReliableUdpPacketStream) :
  opcode (Header Ack) = ACK \/ opcode (Header Ack) = HBT
  \/ opcode (Header Ack) = DAT_ACK ->
  (ProcessPacket cfg wire now Ack ;; HandleOutgoing cfg wire now') s
  = Done (tt, s') ->
  Forall (fun Packet =>
            In Packet (SendQueue s)
            \/ In Packet (RetransmitBuffer s)
               /\ remote_ack (Header Ack) < local_ack (Header Packet))
         (RetransmitBuffer s').
Proof.
  intros Hop E. unfold bind in E.
  destruct (ProcessPacket cfg wire now Ack s) as [[[] s1]|] eqn:E1;
    [|discriminate E].
  pose proof (hoare_done _ _ _ s tt s1
                (ProcessPacket_SequenceIndexAcked_hoare cfg wire now Ack
                   (SequenceIndexAcked s) Hop) eq_refl E1) as Hacked.
  assert (Hsame : RetransmitBuffer s1 = RetransmitBuffer s
                  /\ SendQueue s1 = SendQueue s).
  { refine (keeps_done
              (fun s1 => RetransmitBuffer s1 = RetransmitBuffer s
                         /\ SendQueue s1 = SendQueue s)
              _ s tt s1 _ (conj eq_refl eq_refl) E1).
    apply ProcessPacket_keeps_queues; [exact Hop|..]; stable. }
  destruct Hsame as [Hb Hq].
  pose proof (hoare_done _ _ _ s1 tt s'
                (HandleOutgoing_conserves_hoare cfg wire now' s1) eq_refl E)
    as Hcons.
  cbv beta in Hacked, Hcons. rewrite Hb, Hq in Hcons.
  apply Forall_forall. intros Packet Hin.
  assert (Hin' : In Packet (RetransmitBuffer s' ++ SendQueue s'))
    by (apply in_or_app; left; exact Hin).
  rewrite Hcons in Hin'. apply in_app_or in Hin'.
  destruct Hin' as [Hin'|Hin']; [|left; exact Hin'].
  apply filter_In in Hin'. destruct Hin' as [Hold Hnot]. right.
  split; [exact Hold|].
  apply negb_true_iff in Hnot.
  unfold HandleOutgoing_acknowledged, GetAckCounters in Hnot.
  apply orb_false_elim in Hnot. destruct Hnot as [_ Hnot].
  apply Z.leb_gt in Hnot. rewrite Hacked in Hnot.
  pose proof (spec_modular_max_reaches (SequenceIndexAcked s)
                (remote_ack (Header Ack))).
  lia.
Qed.

Lemma acknowledged_packets_leave_witness :
  Forall (fun Packet =>
            In Packet (SendQueue sample_unacknowledged)
            \/ In Packet (RetransmitBuffer sample_unacknowledged)
               /\ remote_ack (Header (sample_packet ACK 0 2))
                  < local_ack (Header Packet))
         (RetransmitBuffer
            (match (ProcessPacket sample_config sample_wire 2
                      (sample_packet ACK 0 2) ;;
                    HandleOutgoing sample_config sample_wire 2)
                     sample_unacknowledged with
             | Done (_, s) => s
             | EnsureFailed => sample_stream
             end)).
Proof.
  refine (acknowledged_packets_leave sample_config sample_wire 2 2
            (sample_packet ACK 0 2) sample_unacknowledged _ _ _).
  - left. reflexivity.
  - vm_compute. reflexivity.
Defined.

Lemma set_mem_set_add r l :
  set_mem Z.eq_dec r (set_add Z.eq_dec r l) = true.
Proof. apply set_mem_correct2. apply set_add_intro2. reflexivity. Qed.

(** X24.  A reply carries the acknowledgement.  When the answer to the
    sequence [r] is handed to [Send] (opcode [Unset], [remote_ack] [r] above
    zero) it is queued as a DAT_ACK, and the [HandledPacket] that follows for
    [r] sends nothing.  Without such a reply, [HandledPacket] sends one ACK
    that carries [r]. *)
Theorem reply_carries_acknowledgement
  (wire : WireLayout) (now now' : Q) (Input : Frpg2ReliableUdpPacket)
  (s : Frpg2ReliableUdpPacketStream) :
  let r := remote_ack (Header Input) in
  opcode (Header Input) = Unset ->
  0 < r ->
  State s <> Closing ->
  SendFails (Udp s) = false ->
  ~ set_In r (DatAckResponses s) ->
  (exists s',
     (Send wire now Input ;; HandledPacket wire now' r) s = Done (tt, s')
     /\ Sent (Udp s') = Sent (Udp s)
     /\ SendQueue s'
        = SendQueue s ++ [Packet_DAT_ACK now (SequenceIndex s) Input]
     /\ RemoteSequenceIndexAcked s' = r)
  /\ (exists s',
        HandledPacket wire now' r s = Done (tt, s')
        /\ Sent (Udp s') = Sent (Udp s) ++ [Encoded_ACK wire r]
        /\ SendQueue s' = SendQueue s
        /\ RemoteSequenceIndexAcked s' = r).
Proof.
  intros r Hop Hr Hstate Hsend Hnot. split.
  - eexists. split.
    + unfold Send. rewrite bind_assoc, bind_get.
      replace (state_eqb (State s) Closing) with false
        by (destruct (State s); try reflexivity; contradiction Hstate;
            reflexivity).
      rewrite Hop.
      cbn [IsOpcodeSequenced opcode_eqb orb set_SendTime Header opcode].
      rewrite Hop. cbn [opcode_eqb]. unfold GetAckCounters. fold r.
      replace (r >? 0) with true by (symmetry; apply Z.gtb_lt; exact Hr).
      rewrite !bind_assoc, bind_modify, !bind_assoc, bind_modify, bind_ret.
      rewrite !bind_assoc, bind_modify, !bind_assoc, bind_modify, bind_ret.
      unfold HandledPacket. rewrite bind_get. members.
      rewrite set_mem_set_add. reflexivity.
    + members. repeat split.
  - unfold HandledPacket. rewrite bind_get.
    replace (set_mem Z.eq_dec r (DatAckResponses s)) with false
      by (symmetry; apply set_mem_complete2; exact Hnot).
    destruct (set_mem Z.eq_dec r (ExpectedDatAckResponses s)).
    + rewrite bind_assoc, bind_modify, bind_ret, bind_get.
      rewrite Send_ACK_sent by (members; assumption).
      eexists. split; [reflexivity|]. members. repeat split.
    + rewrite bind_ret, bind_get.
      rewrite Send_ACK_sent by (members; assumption).
      eexists. split; [reflexivity|]. members. repeat split.
Qed.

Lemma reply_carries_acknowledgement_witness :
  (exists s',
     (Send sample_wire 3 sample_reply ;; HandledPacket sample_wire 4 7)
       sample_established = Done (tt, s')
     /\ Sent (Udp s') = Sent (Udp sample_established)
     /\ SendQueue s'
        = SendQueue sample_established
          ++ [Packet_DAT_ACK 3 (SequenceIndex sample_established) sample_reply]
     /\ RemoteSequenceIndexAcked s' = 7)
  /\ (exists s',
        HandledPacket sample_wire 4 7 sample_established = Done (tt, s')
        /\ Sent (Udp s') = Sent (Udp sample_established) ++ [Encoded_ACK sample_wire 7]
        /\ SendQueue s' = SendQueue sample_established
        /\ RemoteSequenceIndexAcked s' = 7).
Proof.
  refine (reply_carries_acknowledgement sample_wire 3 4 sample_reply
            sample_established _ _ _ _ _).
  - reflexivity.
  - reflexivity.
  - vm_compute. discriminate.
  - vm_compute. reflexivity.
  - vm_compute. intros H. exact H.
Defined.

(** ** Retransmission *)

Section Retransmission.

Variable cfg : BuildConfig.
Variable wire : WireLayout.

Lemma last_cons_default {A} (a d : A) (l : list A) :
  last (a :: l) d = last l a.
Proof.
  revert a d. induction l as [|b l IH]; intros a d; [reflexivity|].
  change (last (a :: b :: l) d) with (last (b :: l) d).
  rewrite (IH b d), (IH b a). reflexivity.
Qed.

Lemma Sequenced_not_SYN Packet :
  Sequenced Packet -> opcode_eqb (opcode (Header Packet)) SYN = false.
Proof. unfold Sequenced. destruct (opcode (Header Packet)); cbn; congruence. Qed.

Lemma HandleOutgoing_scan_sent now buffer : forall s,
  SendFails (Udp s) = false ->
  Forall Sequenced buffer ->
  exists s',
    HandleOutgoing_scan cfg wire now now buffer s = Done (tt, s')
    /\ Sent (Udp s')
       = Sent (Udp s) ++ map (Encoded wire) (filter (stale cfg now) buffer)
    /\ SendFails (Udp s') = false
    /\ IsRetransmitting s'
       = IsRetransmitting s || existsb (stale cfg now) buffer
    /\ RetransmitPacket s'
       = last (filter (stale cfg now) buffer) (RetransmitPacket s)
    /\ RetransmitBuffer s' = RetransmitBuffer s
    /\ SendQueue s' = SendQueue s.
Proof.
  induction buffer as [|Packet rest IH]; intros s Hsend Hb.
  - exists s. cbn. rewrite app_nil_r, orb_false_r. repeat split. exact Hsend.
  - inversion Hb as [|? ? Hp Hrest]; subst.
    cbn [HandleOutgoing_scan filter existsb]. unfold GetAckCounters.
    fold (stale cfg now Packet).
    destruct (stale cfg now Packet).
    + rewrite bind_assoc. unfold bind at 1.
      rewrite SendRaw_sent by (auto using Sequenced_not_Unset).
      rewrite EncodeReliablePacket_not_SYN by (auto using Sequenced_not_SYN).
      rewrite !bind_assoc, bind_modify, !bind_assoc, bind_modify.
      rewrite !bind_assoc, bind_modify, bind_modify.
      match goal with
      | |- exists s', HandleOutgoing_scan _ _ _ _ _ ?s1 = _ /\ _ =>
          destruct (IH s1) as (s' & E & Hsent & Hsf & Hr & Hcur & Hbuf & Hq);
            [members; exact Hsend|exact Hrest|]
      end.
      members_in Hsent. members_in Hr. members_in Hcur. members_in Hbuf.
      members_in Hq.
      exists s'. split; [exact E|].
      rewrite Hsent, <- app_assoc, Hr, Hcur, orb_true_r, last_cons_default.
      cbn [map app orb]. repeat split; assumption.
    + rewrite bind_ret.
      destruct (IH s Hsend Hrest) as (s' & E & Hsent & Hsf & Hr & Hcur & Hbuf & Hq).
      exists s'. cbn [orb]. repeat split; assumption.
Qed.

Lemma HandleOutgoing_send_blocked fuel s :
  IsRetransmitting s = true ->
  HandleOutgoing_send cfg wire fuel s = Done (tt, s).
Proof.
  intros Hr. destruct fuel as [|fuel]; [reflexivity|].
  cbn [HandleOutgoing_send]. rewrite bind_get, Hr.
  destruct (SendQueue s); reflexivity.
Qed.

End Retransmission.

(** X25.  Outside retransmit mode, a tick that finds unacknowledged packets
    sent more than [RETRANSMIT_INTERVAL] ago sends each of them again, in the
    order of the buffer, enters retransmit mode with the cursor on the last
    of them, and moves nothing from the send queue. *)
Theorem HandleOutgoing_retransmits_stale
  (cfg : BuildConfig) (wire : WireLayout) (now : Q)
  (s : Frpg2ReliableUdpPacketStream) :
  IsRetransmitting s = false ->
  SendFails (Udp s) = false ->
  Forall Sequenced (RetransmitBuffer s) ->
  existsb (stale cfg now) (unacknowledged s) = true ->
  exists s',
    HandleOutgoing cfg wire now s = Done (tt, s')
    /\ Sent (Udp s')
       = Sent (Udp s)
         ++ map (Encoded wire) (filter (stale cfg now) (unacknowledged s))
    /\ IsRetransmitting s' = true
    /\ RetransmitPacket s'
       = last (filter (stale cfg now) (unacknowledged s)) (RetransmitPacket s)
    /\ RetransmitBuffer s' = unacknowledged s
    /\ SendQueue s' = SendQueue s.
Proof.
  intros Hr Hsend Hb Hstale.
  unfold HandleOutgoing. rewrite bind_modify, bind_get. members.
  rewrite Hr. cbn [negb]. fold (unacknowledged s).
  destruct (HandleOutgoing_scan_sent cfg wire now (unacknowledged s)
              (set_RetransmitBuffer (unacknowledged s) s))
    as (s' & E & Hsent & _ & Hr' & Hcur & Hbuf & Hq).
  { members. exact Hsend. }
  { unfold unacknowledged. apply Forall_filter. exact Hb. }
  members_in Hsent. members_in Hr'. members_in Hcur. members_in Hbuf.
  members_in Hq. rewrite Hr, Hstale in Hr'. cbn [orb] in Hr'.
  exists s'. unfold bind at 1. rewrite E, bind_get.
  rewrite HandleOutgoing_send_blocked by exact Hr'.
  repeat split; assumption.
Qed.

Lemma HandleOutgoing_retransmits_stale_witness :
  exists s',
    HandleOutgoing sample_config sample_wire 5 sample_unacknowledged
    = Done (tt, s')
    /\ Sent (Udp s')
       = Sent (Udp sample_unacknowledged)
         ++ map (Encoded sample_wire)
              (filter (stale sample_config 5)
                 (unacknowledged sample_unacknowledged))
    /\ IsRetransmitting s' = true
    /\ RetransmitPacket s'
       = last (filter (stale sample_config 5)
                 (unacknowledged sample_unacknowledged))
              (RetransmitPacket sample_unacknowledged)
    /\ RetransmitBuffer s' = unacknowledged sample_unacknowledged
    /\ SendQueue s' = SendQueue sample_unacknowledged.
Proof.
  refine (HandleOutgoing_retransmits_stale sample_config sample_wire 5
            sample_unacknowledged _ _ _ _).
  - vm_compute. reflexivity.
  - vm_compute. reflexivity.
  - vm_compute. repeat constructor.
  - vm_compute. reflexivity.
Defined.

(** X26.  In retransmit mode, while the packet under the cursor is not
    acknowledged, a tick moves nothing from the send queue: it sends the
    cursor packet again when more than [RETRANSMIT_CYCLE_INTERVAL] has passed
    since the last time, restarting the interval, and sends nothing
    otherwise. *)
Theorem HandleOutgoing_while_retransmitting
  (cfg : BuildConfig) (wire : WireLayout) (now : Q)
  (s : Frpg2ReliableUdpPacketStream) :
  IsRetransmitting s = true ->
  cursor_acknowledged s = false ->
  SendFails (Udp s) = false ->
  Sequenced (RetransmitPacket s) ->
  exists s',
    HandleOutgoing cfg wire now s = Done (tt, s')
    /\ SendQueue s' = SendQueue s
    /\ RetransmitBuffer s' = unacknowledged s
    /\ IsRetransmitting s' = true
    /\ (if Qgtb (double_minus cfg now (RetransmissionTimer s))
           (RETRANSMIT_CYCLE_INTERVAL cfg)
        then Sent (Udp s') = Sent (Udp s) ++ [Encoded wire (RetransmitPacket s)]
             /\ RetransmissionTimer s' = now
        else Sent (Udp s') = Sent (Udp s)
             /\ RetransmissionTimer s' = RetransmissionTimer s).
Proof.
  intros Hr Hack Hsend Hp.
  unfold HandleOutgoing. rewrite bind_modify, bind_get. members.
  rewrite Hr. cbn [negb]. fold (unacknowledged s).
  unfold cursor_acknowledged in Hack. rewrite Hack.
  destruct (Qgtb _ _).
  - rewrite !bind_assoc, bind_modify, !bind_assoc. unfold bind at 1.
    rewrite SendRaw_sent
      by (members; auto using Sequenced_not_Unset).
    rewrite EncodeReliablePacket_not_SYN by (auto using Sequenced_not_SYN).
    rewrite bind_ret, bind_get.
    rewrite HandleOutgoing_send_blocked by (members; exact Hr).
    eexists. split; [reflexivity|]. members. repeat split. exact Hr.
  - rewrite bind_ret, bind_get.
    rewrite HandleOutgoing_send_blocked by (members; exact Hr).
    eexists. split; [reflexivity|]. members. repeat split. exact Hr.
Qed.

Lemma HandleOutgoing_while_retransmitting_witness :
  exists s',
    HandleOutgoing sample_config sample_wire 6 sample_retransmitting
    = Done (tt, s')
    /\ SendQueue s' = SendQueue sample_retransmitting
    /\ RetransmitBuffer s' = unacknowledged sample_retransmitting
    /\ IsRetransmitting s' = true
    /\ (if Qgtb (double_minus sample_config 6 (RetransmissionTimer sample_retransmitting))
                (RETRANSMIT_CYCLE_INTERVAL sample_config)
        then Sent (Udp s')
             = Sent (Udp sample_retransmitting)
               ++ [Encoded sample_wire (RetransmitPacket sample_retransmitting)]
             /\ RetransmissionTimer s' = 6%Q
        else Sent (Udp s') = Sent (Udp sample_retransmitting)
             /\ RetransmissionTimer s'
                = RetransmissionTimer sample_retransmitting).
Proof.
  refine (HandleOutgoing_while_retransmitting sample_config sample_wire 6
            sample_retransmitting _ _ _ _).
  - vm_compute. reflexivity.
  - vm_compute. reflexivity.
  - vm_compute. reflexivity.
  - vm_compute. reflexivity.
Defined.

(** ** The send window *)

Section Window.

Variable cfg : BuildConfig.
Variable wire : WireLayout.

Lemma HandleOutgoing_scan_fresh now buffer s :
  existsb (stale cfg now) buffer = false ->
  HandleOutgoing_scan cfg wire now now buffer s = Done (tt, s).
Proof.
  induction buffer as [|Packet rest IH]; intros H; [reflexivity|].
  cbn [existsb] in H. apply orb_false_elim in H. destruct H as [Hp Hrest].
  cbn [HandleOutgoing_scan]. unfold GetAckCounters.
  fold (stale cfg now Packet). rewrite Hp, bind_ret. apply IH. exact Hrest.
Qed.

(** The packets the send loop moves: as many as the send queue holds and the
    retransmit buffer has room for. *)
Lemma HandleOutgoing_send_window fuel : forall s,
  IsRetransmitting s = false ->
  SendFails (Udp s) = false ->
  Forall Sequenced (SendQueue s) ->
  (length (SendQueue s) <= fuel)%nat ->
  exists s',
    HandleOutgoing_send cfg wire fuel s = Done (tt, s')
    /\ Sent (Udp s')
       = Sent (Udp s)
         ++ map (Encoded wire)
              (firstn (MAX_PACKETS_IN_FLIGHT cfg - length (RetransmitBuffer s))
                      (SendQueue s))
    /\ RetransmitBuffer s'
       = RetransmitBuffer s
         ++ firstn (MAX_PACKETS_IN_FLIGHT cfg - length (RetransmitBuffer s))
                   (SendQueue s)
    /\ SendQueue s'
       = skipn (MAX_PACKETS_IN_FLIGHT cfg - length (RetransmitBuffer s))
               (SendQueue s)
    /\ IsRetransmitting s' = false.
Proof.
  induction fuel as [|fuel IH]; intros s Hr Hsend Hq Hfuel.
  - destruct (SendQueue s) as [|Packet rest] eqn:E; [|cbn in Hfuel; lia].
    exists s. cbn [HandleOutgoing_send]. rewrite E, firstn_nil, skipn_nil.
    cbn [map]. rewrite !app_nil_r. repeat split; assumption.
  - cbn [HandleOutgoing_send]. rewrite bind_get.
    destruct (SendQueue s) as [|Packet rest] eqn:E.
    { exists s. rewrite firstn_nil, skipn_nil. cbn [map].
      rewrite !app_nil_r. repeat split; assumption. }
    rewrite Hr. cbn [negb andb].
    destruct (length (RetransmitBuffer s) <? MAX_PACKETS_IN_FLIGHT cfg)%nat
      eqn:Hroom.
    + apply Nat.ltb_lt in Hroom.
      inversion Hq as [|? ? Hp Hrest]; subst.
      rewrite bind_modify, bind_modify. members.
      unfold bind at 1.
      rewrite SendRaw_sent
        by (members; auto using Sequenced_not_Unset).
      rewrite EncodeReliablePacket_not_SYN by (auto using Sequenced_not_SYN).
      match goal with
      | |- exists s', HandleOutgoing_send _ _ _ ?s1 = _ /\ _ =>
          destruct (IH s1) as (s' & E' & Hsent & Hbuf & Hqueue & Hr');
            [members; exact Hr|members; exact Hsend|members; exact Hrest
            |members; cbn in Hfuel; lia|]
      end.
      members_in Hsent. members_in Hbuf. members_in Hqueue.
      rewrite length_app in Hsent, Hbuf, Hqueue. cbn [length] in Hsent, Hbuf, Hqueue.
      exists s'. split; [exact E'|].
      replace (MAX_PACKETS_IN_FLIGHT cfg - length (RetransmitBuffer s))%nat
        with (S (MAX_PACKETS_IN_FLIGHT cfg
                 - (length (RetransmitBuffer s) + 1)))%nat by lia.
      cbn [firstn skipn map].
      rewrite Hsent, Hbuf, Hqueue, <- !app_assoc. cbn [app].
      repeat split. exact Hr'.
    + apply Nat.ltb_ge in Hroom.
      replace (MAX_PACKETS_IN_FLIGHT cfg - length (RetransmitBuffer s))%nat
        with 0%nat by lia.
      exists s. cbn [firstn skipn map]. rewrite !app_nil_r.
      repeat split; assumption.
Qed.

End Window.

(** X21.  [HandleOutgoing] sends as much as the window allows.  On a stream
    that is not retransmitting and holds no stale packet, or whose retransmit
    cursor has just been acknowledged, it moves packets from the head of the
    send queue to the end of the retransmit buffer for as long as the buffer
    holds fewer than [MAX_PACKETS_IN_FLIGHT] unacknowledged packets, and
    sends each of them once, in queue order: the packets sent are the first
    [MAX_PACKETS_IN_FLIGHT] minus the number of unacknowledged packets of the
    send queue (all of it when it is shorter), and nothing else is sent. *)
Theorem HandleOutgoing_sends_window
  (cfg : BuildConfig) (wire : WireLayout) (now : Q)
  (s : Frpg2ReliableUdpPacketStream) :
  let room := (MAX_PACKETS_IN_FLIGHT cfg - length (unacknowledged s))%nat in
  (if IsRetransmitting s then cursor_acknowledged s
   else negb (existsb (stale cfg now) (unacknowledged s))) = true ->
  SendFails (Udp s) = false ->
  Forall Sequenced (SendQueue s) ->
  exists s',
    HandleOutgoing cfg wire now s = Done (tt, s')
    /\ Sent (Udp s')
       = Sent (Udp s) ++ map (Encoded wire) (firstn room (SendQueue s))
    /\ RetransmitBuffer s' = unacknowledged s ++ firstn room (SendQueue s)
    /\ SendQueue s' = skipn room (SendQueue s)
    /\ IsRetransmitting s' = false.
Proof.
  intros room Hmode Hsend Hq.
  unfold HandleOutgoing. rewrite bind_modify, bind_get. members.
  fold (unacknowledged s).
  assert (Hloop : forall s1,
             IsRetransmitting s1 = false ->
             Udp s1 = Udp s -> SendQueue s1 = SendQueue s ->
             RetransmitBuffer s1 = unacknowledged s ->
             exists s',
               (s2 <- get ;;
                HandleOutgoing_send cfg wire (length (SendQueue s2))) s1
               = Done (tt, s')
               /\ Sent (Udp s')
                  = Sent (Udp s)
                    ++ map (Encoded wire) (firstn room (SendQueue s))
               /\ RetransmitBuffer s'
                  = unacknowledged s ++ firstn room (SendQueue s)
               /\ SendQueue s' = skipn room (SendQueue s)
               /\ IsRetransmitting s' = false).
  { intros s1 Hr1 Hu Hq1 Hb1. rewrite bind_get.
    destruct (HandleOutgoing_send_window cfg wire (length (SendQueue s1)) s1)
      as (s' & E & Hsent & Hbuf & Hqueue & Hr');
      [exact Hr1|rewrite Hu; exact Hsend|rewrite Hq1; exact Hq|lia|].
    rewrite Hu, Hq1, Hb1 in *. exists s'. repeat split; assumption. }
  destruct (IsRetransmitting s) eqn:Hr; cbn [negb].
  - unfold cursor_acknowledged in Hmode. members. rewrite Hmode.
    rewrite bind_modify. apply Hloop; reflexivity.
  - apply negb_true_iff in Hmode.
    unfold bind at 1.
    rewrite (HandleOutgoing_scan_fresh cfg wire now (unacknowledged s)
               (set_RetransmitBuffer (unacknowledged s) s) Hmode).
    apply Hloop; try reflexivity. members. exact Hr.
Qed.

Lemma HandleOutgoing_sends_window_witness :
  let room :=
    (MAX_PACKETS_IN_FLIGHT sample_config
     - length (unacknowledged sample_queued))%nat in
  exists s',
    HandleOutgoing sample_config sample_wire 0 sample_queued = Done (tt, s')
    /\ Sent (Udp s')
       = Sent (Udp sample_queued)
         ++ map (Encoded sample_wire) (firstn room (SendQueue sample_queued))
    /\ RetransmitBuffer s'
       = unacknowledged sample_queued ++ firstn room (SendQueue sample_queued)
    /\ SendQueue s' = skipn room (SendQueue sample_queued)
    /\ IsRetransmitting s' = false.
Proof.
  refine (HandleOutgoing_sends_window sample_config sample_wire 0
            sample_queued _ _ _).
  - vm_compute. reflexivity.
  - vm_compute. reflexivity.
  - vm_compute. repeat constructor.
Defined.
